(** * Crypto crawler: rate-limited retrying HTTP client, price poller,
      paged crawler and moving average

    A shallow embedding of [src/http_client.py], [src/core/models.py] and
    [src/service.py].  Coroutines are modelled as state transformers over
    the mutated object ([self]) and a [World] holding the clock, the call
    counters and the chronological trace of observable events.  The remote
    collaborators (HTTP server, data providers, storage, the operator's
    SIGINT) are oracles gathered in an [Env].  Python floats (durations,
    instants, prices) are modelled as exact rationals. *)

From Stdlib Require Import List ZArith QArith Qminmax Lia Lqa String Bool.
Import ListNotations.
Open Scope Z_scope.

(* ================================================================= *)
(** ** Python preliminaries *)

(** [range(start, stop)]. *)
Definition py_range (start stop : Z) : list Z :=
  map (fun i => start + Z.of_nat i) (seq 0 (Z.to_nat (stop - start))).

(** [len(l)] as a Python int. *)
Definition len {A : Type} (l : list A) : Z := Z.of_nat (List.length l).

Definition Qlt_bool (x y : Q) : bool := negb (Qle_bool y x).

(** The arithmetic [sum(values) / len(values)] needs from the element type
    of a list of samples. *)
Class Numeric (F : Type) : Type :=
  { py_sum : list F -> F;
    py_div : F -> Z -> F }.

#[export] Instance Numeric_Q : Numeric Q :=
  { py_sum := fun l => fold_left Qplus l (0 : Q);
    py_div := fun x n => (x / inject_Z n)%Q }.

(* ================================================================= *)
(** ** Exceptions, log records and events *)

Inductive ExnClass : Type :=
| ClientResponseError   (* aiohttp.ClientResponseError, a ClientError *)
| ClientError           (* aiohttp.ClientError *)
| TimeoutError          (* asyncio.TimeoutError *)
| TypeError
| OtherError.           (* any other subclass of Exception *)

Inductive Msg : Type :=
| ServerErrorAfter (retries status : Z)  (* "Server error after {max_retries} attempts: {status}" *)
| ClientErrorFor (status : Z) (url : string) (* "Client error: {status} for {url}" *)
| MaxRetriesExceeded                     (* "Max retries exceeded" *)
| FormatNone                             (* format spec applied to None *)
| Text (s : string).                     (* raised by a collaborator *)

Record Exn : Type := mkExn { exn_class : ExnClass; exn_msg : Msg }.

(** [isinstance(e, aiohttp.ClientResponseError)]. *)
Definition is_client_response_error (e : Exn) : bool :=
  match exn_class e with ClientResponseError => true | _ => false end.

(** [isinstance(e, (aiohttp.ClientError, asyncio.TimeoutError))]. *)
Definition is_client_or_timeout_error (e : Exn) : bool :=
  match exn_class e with
  | ClientResponseError | ClientError | TimeoutError => true
  | _ => false
  end.

(** What [response.json()] returns; the client never looks inside it, so
    the parsed document is kept as its text. *)
Inductive json : Type := Json (raw : string).

(** One row of a listing page (the dict built by the providers). *)
Record Listing : Type :=
  { rank : Z; name : string; symbol : string;
    price : Q; change_24h : Q; market_cap : Q }.

Inductive Level : Type := DEBUG | INFO | WARNING | ERROR.

Inductive Line : Type :=
(* http_client.py *)
| RateLimiting (sleep_time : Q)
| MakingRequest (url : string) (n : Z)
| ServerErrorRetrying (status : Z) (delay : Q)
| Message (m : Msg)
| Fetched (url : string)
| RequestFailedRetrying (e : Exn) (delay : Q)
| RequestFailedAfter (retries : Z) (e : Exn)
| HttpSessionClosed
(* service.py, price poller *)
| StartingPoller
| PressCtrlC
| ShutdownSignal
| ShuttingDown
| PriceLine (sym : string) (p : Q) (timestamp : Q) (sma : option Q)
| BitcoinPrice (p : Q)
| PriceFetchFailed (n : Z) (e : Exn)
| ConsecutiveFailures (threshold : Z) (e : Exn)
| StoppingPoller
| WaitingBeforeRetry (wait_time : Q)
| PollerStopped
(* service.py, paged crawls *)
| StartingHtml (pages : Z)
| ScrapingHtmlRange (pages : Z)
| ScrapingHtmlPage (page : Z)
| ScrapingPage (page : Z)
| ErrorScrapingPage (page : Z) (e : Exn)
| ScrapedHtml (n : Z)
| StartingJson (pages : Z)
| ScrapingJsonRange (pages : Z)
| FetchingJsonPage (page : Z)
| FetchingPage (page : Z)
| ErrorFetchingPage (page : Z) (e : Exn)
| ScrapedJson (n : Z).

Inductive Event : Type :=
| EvLog (lvl : Level) (l : Line)          (* self.logger.<lvl>(...) *)
| EvPrint (l : Line)                      (* print(...) *)
| EvSleep (d : Q)                         (* await asyncio.sleep(d) *)
| EvNewSession                            (* aiohttp.ClientSession(...) *)
| EvCloseSession                          (* await session.close() *)
| EvHttpGet (url : string)                (* session.get(url) *)
| EvGetPrice (sym : string)               (* coingecko.get_price(sym) *)
| EvStorePrice (sym : string) (p : Q) (timestamp : Q)
| EvGetListingsHtml (page : Z)            (* coinmarketcap.get_listings_html *)
| EvGetListings (page per_page : Z)       (* coinmarketcap.get_listings *)
| EvStoreListings (batch : list Listing). (* storage.store_listings *)

(* ================================================================= *)
(** ** The environment and the world *)

(** What [session.get] gives back: a response with a status whose body
    parses or not, or an exception raised by the transport. *)
Inductive Reply : Type :=
| Response (status : Z) (body : Exn + json)
| Failure (e : Exn).

Record Env : Type :=
  { http_reply : nat -> Reply;            (* outcome of the n-th session.get *)
    http_latency : nat -> Q;              (* how long the n-th session.get takes *)
    sleep_lag : nat -> Q;                 (* how late the n-th suspension resumes *)
    poll_price : nat -> Exn + Q;          (* get_price in poll cycle n *)
    poll_store : nat -> option Exn;       (* store_price in poll cycle n *)
    poll_sigint : nat -> bool;            (* SIGINT delivered during poll cycle n *)
    page_html : Z -> Exn + list Listing;  (* get_listings_html(page) *)
    page_json : Z -> Z -> Exn + list Listing; (* get_listings(page, per_page) *)
    store_batch : nat -> option Exn }.    (* the n-th store_listings *)

Record World : Type :=
  { clock : Q;             (* datetime.now(), in seconds *)
    http_calls : nat;
    naps : nat;
    cycles : nat;
    batch_calls : nat;
    trace : list Event }.

Definition emit_w (e : Event) (w : World) : World :=
  {| clock := clock w; http_calls := http_calls w; naps := naps w;
     cycles := cycles w; batch_calls := batch_calls w;
     trace := trace w ++ [e] |}.

Definition advance_w (d : Q) (w : World) : World :=
  {| clock := (clock w + d)%Q; http_calls := http_calls w; naps := naps w;
     cycles := cycles w; batch_calls := batch_calls w; trace := trace w |}.

Definition count_http_w (w : World) : World :=
  {| clock := clock w; http_calls := S (http_calls w); naps := naps w;
     cycles := cycles w; batch_calls := batch_calls w; trace := trace w |}.

Definition count_nap_w (w : World) : World :=
  {| clock := clock w; http_calls := http_calls w; naps := S (naps w);
     cycles := cycles w; batch_calls := batch_calls w; trace := trace w |}.

Definition count_cycle_w (w : World) : World :=
  {| clock := clock w; http_calls := http_calls w; naps := naps w;
     cycles := S (cycles w); batch_calls := batch_calls w; trace := trace w |}.

Definition count_batch_w (w : World) : World :=
  {| clock := clock w; http_calls := http_calls w; naps := naps w;
     cycles := cycles w; batch_calls := S (batch_calls w); trace := trace w |}.

(* ================================================================= *)
(** ** A state-and-exception monad for coroutines

    [M S A] is a coroutine of an object with state [S] producing an [A] or
    raising.  Mutations made before an exception is raised persist, as in
    Python. *)

Definition M (S A : Type) : Type := S -> World -> (Exn + A) * S * World.

Definition ret {S A : Type} (a : A) : M S A :=
  fun s w => (inr a, s, w).

Definition bind {S A B : Type} (m : M S A) (f : A -> M S B) : M S B :=
  fun s w =>
    match m s w with
    | (inr a, s', w') => f a s' w'
    | (inl e, s', w') => (inl e, s', w')
    end.

Definition raise {S A : Type} (e : Exn) : M S A :=
  fun s w => (inl e, s, w).

(** [try: m  except Exception as e: h e]. *)
Definition try_except {S A : Type} (m : M S A) (h : Exn -> M S A) : M S A :=
  fun s w =>
    match m s w with
    | (inr a, s', w') => (inr a, s', w')
    | (inl e, s', w') => h e s' w'
    end.

Definition get_self {S : Type} : M S S :=
  fun s w => (inr s, s, w).

Definition modify {S : Type} (f : S -> S) : M S unit :=
  fun s w => (inr tt, f s, w).

Definition emit {S : Type} (e : Event) : M S unit :=
  fun s w => (inr tt, s, emit_w e w).

Definition log {S : Type} (lvl : Level) (l : Line) : M S unit :=
  emit (EvLog lvl l).

Definition print {S : Type} (l : Line) : M S unit :=
  emit (EvPrint l).

(** [datetime.now()]. *)
Definition now {S : Type} : M S Q :=
  fun s w => (inr (clock w), s, w).

Declare Scope prog_scope.
Delimit Scope prog_scope with prog.
Notation "x <- m ;; k" := (bind m (fun x => k))
  (at level 100, m at next level, right associativity) : prog_scope.
Notation "m ;; k" := (bind m (fun _ => k))
  (at level 100, right associativity) : prog_scope.
Open Scope prog_scope.

(** [for x in xs: body x], where the body either falls through or
    [continue]s ([None]) or leaves the loop with a value ([Some v], a
    [return] or a [break]). *)
Fixpoint for_each {S A R : Type} (xs : list A) (body : A -> M S (option R))
  : M S (option R) :=
  match xs with
  | [] => ret None
  | x :: xs' =>
      r <- body x ;;
      match r with
      | Some v => ret (Some v)
      | None => for_each xs' body
      end
  end.

Definition continue {S R : Type} : M S (option R) := ret None.
Definition return_ {S R : Type} (v : R) : M S (option R) := ret (Some v).

(** [for x in xs: acc = body x acc]: a loop that rebinds or mutates a
    local variable. *)
Fixpoint for_fold {S A B : Type} (xs : list A) (acc : B)
  (body : A -> B -> M S B) : M S B :=
  match xs with
  | [] => ret acc
  | x :: xs' => acc' <- body x acc ;; for_fold xs' acc' body
  end.

(** A plain (synchronous, non-raising) method of an object: it returns a
    value and leaves the object in a new state. *)
Definition Method (S A : Type) : Type := S -> A * S.

(** Running a coroutine or a method of a component held in a field. *)
Definition zoom {S T A : Type} (proj : S -> T) (inj : T -> S -> S)
  (m : M T A) : M S A :=
  fun s w =>
    match m (proj s) w with
    | (r, t', w') => (r, inj t' s, w')
    end.

Definition call {S T A : Type} (proj : S -> T) (inj : T -> S -> S)
  (m : Method T A) : M S A :=
  fun s w =>
    match m (proj s) with
    | (a, t') => (inr a, inj t' s, w)
    end.

(** [2 ** n] for a Python int [n] (a float when [n] is negative). *)
Definition py_pow2 (n : Z) : Q :=
  if n <? 0 then (1 / inject_Z (2 ^ (- n)))%Q else inject_Z (2 ^ n).

(* ================================================================= *)
(** ** [src/core/models.py]: MovingAverage *)

Record MovingAverage (F : Type) : Type :=
  { window_size : Z; values : list F }.
Arguments window_size {F} _.
Arguments values {F} _.

Section MovingAverage.
Context {F : Type} `{Numeric F}.

Definition __post_init__ : Method (MovingAverage F) unit :=
  fun self => (tt, {| window_size := window_size self; values := [] |}).

(** The generated [__init__]: both fields are assigned from the
    arguments, then [__post_init__] runs. *)
Definition MovingAverage_init (window_size : Z) (values : list F)
  : MovingAverage F :=
  snd (__post_init__ {| window_size := window_size; values := values |}).

(** [list.pop(0)] on a list that holds something. *)
Definition pop0 (l : list F) : list F := tl l.

Definition add_value (value : F) : Method (MovingAverage F) unit :=
  fun self =>
    let appended := values self ++ [value] in
    if window_size self <? len appended
    then (tt, {| window_size := window_size self; values := pop0 appended |})
    else (tt, {| window_size := window_size self; values := appended |}).

Definition get_average : Method (MovingAverage F) (option F) :=
  fun self =>
    match values self with
    | [] => (None, self)
    | _ :: _ => (Some (py_div (py_sum (values self)) (len (values self))), self)
    end.

Definition is_ready : Method (MovingAverage F) bool :=
  fun self => (window_size self <=? len (values self), self).

(** Adding the samples of a list in order. *)
Definition add_values (vs : list F) (self : MovingAverage F)
  : MovingAverage F :=
  fold_left (fun m v => snd (add_value v m)) vs self.

(** The mean of a sequence of samples, when there is one. *)
Definition mean (vs : list F) : option F :=
  match vs with
  | [] => None
  | _ :: _ => Some (py_div (py_sum vs) (len vs))
  end.
End MovingAverage.

(* ================================================================= *)
(** ** [src/http_client.py]: HttpClient *)

Record HttpClient : Type :=
  { timeout : Z;
    max_retries : Z;
    requests_per_second : Q;
    session : option bool;          (* [None], or [Some closed] *)
    last_request_time : option Q;
    min_interval : Q }.

Definition set_session (v : option bool) (c : HttpClient) : HttpClient :=
  {| timeout := timeout c; max_retries := max_retries c;
     requests_per_second := requests_per_second c; session := v;
     last_request_time := last_request_time c;
     min_interval := min_interval c |}.

Definition set_last_request_time (v : option Q) (c : HttpClient)
  : HttpClient :=
  {| timeout := timeout c; max_retries := max_retries c;
     requests_per_second := requests_per_second c; session := session c;
     last_request_time := v; min_interval := min_interval c |}.

(** [HttpClient.__init__]. *)
Definition HttpClient_init (timeout max_retries : Z)
  (requests_per_second : Q) : HttpClient :=
  {| timeout := timeout; max_retries := max_retries;
     requests_per_second := requests_per_second;
     session := None;
     last_request_time := None;
     min_interval :=
       if Qlt_bool 0 requests_per_second
       then (1 / requests_per_second)%Q else 0%Q |}.

Section Client.
Variable env : Env.

(** [await asyncio.sleep(d)]: the caller resumes no earlier than asked. *)
Definition sleep {S : Type} (d : Q) : M S unit :=
  fun s w =>
    (inr tt, s,
     count_nap_w
       (advance_w (Qmax 0 d + sleep_lag env (naps w))%Q
          (emit_w (EvSleep d) w))).

(** [session.get(url)]: the response (status and body), or the
    transport's exception. *)
Definition session_get (url : string) : M HttpClient (Z * (Exn + json)) :=
  fun s w =>
    let w' :=
      count_http_w
        (advance_w (http_latency env (http_calls w))
           (emit_w (EvHttpGet url) w)) in
    match http_reply env (http_calls w) with
    | Response status body => (inr (status, body), s, w')
    | Failure e => (inl e, s, w')
    end.

(** [await response.json()]. *)
Definition response_json (body : Exn + json) : M HttpClient json :=
  match body with
  | inr data => ret data
  | inl e => raise e
  end.

Definition _get_session : M HttpClient unit :=
  self <- get_self ;;
  match session self with
  | Some false => ret tt
  | _ => emit EvNewSession ;; modify (set_session (Some false))
  end.

Definition _rate_limit : M HttpClient unit :=
  self <- get_self ;;
  match last_request_time self with
  | Some last =>
      if Qlt_bool 0 (min_interval self) then
        t <- now ;;
        let elapsed := (t - last)%Q in
        if Qlt_bool elapsed (min_interval self) then
          let sleep_time := (min_interval self - elapsed)%Q in
          log DEBUG (RateLimiting sleep_time) ;;
          sleep sleep_time
        else ret tt
      else ret tt
  | None => ret tt
  end ;;
  t <- now ;;
  modify (set_last_request_time (Some t)).

(** The body of [for attempt in range(self.max_retries)]. *)
Definition attempt_body (url : string) (attempt : Z)
  : M HttpClient (option json) :=
  self <- get_self ;;
  try_except
    (log DEBUG (MakingRequest url (attempt + 1)) ;;
     response <- session_get url ;;
     let '(status, body) := response in
     if 500 <=? status then
       if attempt <? max_retries self - 1 then
         let delay := py_pow2 attempt in
         log WARNING (ServerErrorRetrying status delay) ;;
         sleep delay ;;
         continue
       else
         let error_msg := ServerErrorAfter (max_retries self) status in
         log ERROR (Message error_msg) ;;
         raise (mkExn ClientError error_msg)
     else if 400 <=? status then
       let error_msg := ClientErrorFor status url in
       log ERROR (Message error_msg) ;;
       raise (mkExn ClientResponseError error_msg)
     else
       data <- response_json body ;;
       log DEBUG (Fetched url) ;;
       return_ data)
    (fun e =>
       if is_client_response_error e then
         (* Don't retry client errors (4xx) *)
         raise e
       else if is_client_or_timeout_error e then
         if attempt <? max_retries self - 1 then
           let delay := py_pow2 attempt in
           log WARNING (RequestFailedRetrying e delay) ;;
           sleep delay ;;
           continue
         else
           log ERROR (RequestFailedAfter (max_retries self) e) ;;
           raise e
       else raise e).

(** The attempt loop of [get] and the statement after it. *)
Definition attempts (url : string) : M HttpClient json :=
  self <- get_self ;;
  r <- for_each (py_range 0 (max_retries self)) (attempt_body url) ;;
  match r with
  | Some data => ret data
  | None => raise (mkExn ClientError MaxRetriesExceeded)
  end.

Definition get (url : string) : M HttpClient json :=
  _rate_limit ;;
  _get_session ;;
  attempts url.

Definition close : M HttpClient unit :=
  self <- get_self ;;
  match session self with
  | Some false =>
      emit EvCloseSession ;;
      modify (set_session (Some true)) ;;
      log DEBUG HttpSessionClosed
  | _ => ret tt
  end.

(** A caller issuing [get] on each URL in turn, busy with something else
    for [idle] seconds before each call and carrying on whether the
    call returned or raised.  The result lists the value of
    [last_request_time] after each call. *)
Fixpoint get_each (calls : list (Q * string)) (c : HttpClient) (w : World)
  : list (option Q) * HttpClient * World :=
  match calls with
  | [] => ([], c, w)
  | (idle, url) :: rest =>
      match get url c (advance_w idle w) with
      | (_, c1, w1) =>
          match get_each rest c1 w1 with
          | (stamps, c2, w2) => (last_request_time c1 :: stamps, c2, w2)
          end
      end
  end.
End Client.

(* ================================================================= *)
(** ** [src/core/config.py]: the settings the service reads *)

Module Config.
Record t : Type :=
  { http_timeout : Z;
    http_max_retries : Z;
    poll_interval : Q;
    max_consecutive_failures : Z;
    html_scraping_delay : Q;
    json_api_delay : Q;
    moving_average_window : Z;
    requests_per_second : Q }.

(** The defaults of the dataclass. *)
Definition default : t :=
  {| http_timeout := 30;
     http_max_retries := 5;
     poll_interval := 1;
     max_consecutive_failures := 5;
     html_scraping_delay := 1 # 2;
     json_api_delay := 1 # 5;
     moving_average_window := 10;
     requests_per_second := 2 |}.
End Config.

(* ================================================================= *)
(** ** [src/service.py]: CryptoCrawlerService *)

Record PriceData : Type :=
  { pd_symbol : string; pd_price : Q; pd_timestamp : Q; pd_source : string }.

Record Service : Type :=
  { config : Config.t;
    http_client : HttpClient;
    moving_average : MovingAverage Q;
    running : bool;
    consecutive_failures : Z }.

Definition set_http_client (v : HttpClient) (s : Service) : Service :=
  {| config := config s; http_client := v;
     moving_average := moving_average s; running := running s;
     consecutive_failures := consecutive_failures s |}.

Definition set_moving_average (v : MovingAverage Q) (s : Service) : Service :=
  {| config := config s; http_client := http_client s;
     moving_average := v; running := running s;
     consecutive_failures := consecutive_failures s |}.

Definition set_running (v : bool) (s : Service) : Service :=
  {| config := config s; http_client := http_client s;
     moving_average := moving_average s; running := v;
     consecutive_failures := consecutive_failures s |}.

Definition set_consecutive_failures (v : Z) (s : Service) : Service :=
  {| config := config s; http_client := http_client s;
     moving_average := moving_average s; running := running s;
     consecutive_failures := v |}.

(** [CryptoCrawlerService.__init__] with a config given. *)
Definition Service_init (config : Config.t) : Service :=
  {| config := config;
     http_client :=
       HttpClient_init (Config.http_timeout config)
         (Config.http_max_retries config)
         (Config.requests_per_second config);
     moving_average :=
       MovingAverage_init (Config.moving_average_window config) [];
     running := false;
     consecutive_failures := 0 |}.

Section Service.
Variable env : Env.

(** [await self.coingecko.get_price(sym)] in the current poll cycle. *)
Definition get_price (sym : string) : M Service Q :=
  fun s w =>
    match poll_price env (cycles w) with
    | inr p => (inr p, s, emit_w (EvGetPrice sym) w)
    | inl e => (inl e, s, emit_w (EvGetPrice sym) w)
    end.

(** [await self.storage.store_price(sym, p, timestamp)]. *)
Definition store_price (sym : string) (p timestamp : Q) : M Service unit :=
  fun s w =>
    match poll_store env (cycles w) with
    | None => (inr tt, s, emit_w (EvStorePrice sym p timestamp) w)
    | Some e => (inl e, s, emit_w (EvStorePrice sym p timestamp) w)
    end.

(** [await self.coinmarketcap.get_listings_html(page)]. *)
Definition get_listings_html (page : Z) : M Service (list Listing) :=
  fun s w =>
    match page_html env page with
    | inr l => (inr l, s, emit_w (EvGetListingsHtml page) w)
    | inl e => (inl e, s, emit_w (EvGetListingsHtml page) w)
    end.

(** [await self.coinmarketcap.get_listings(page, per_page)]. *)
Definition get_listings (page per_page : Z) : M Service (list Listing) :=
  fun s w =>
    match page_json env page per_page with
    | inr l => (inr l, s, emit_w (EvGetListings page per_page) w)
    | inl e => (inl e, s, emit_w (EvGetListings page per_page) w)
    end.

(** [await self.storage.store_listings(batch)]. *)
Definition store_listings (batch : list Listing) : M Service unit :=
  fun s w =>
    let w' := count_batch_w (emit_w (EvStoreListings batch) w) in
    match store_batch env (batch_calls w) with
    | None => (inr tt, s, w')
    | Some e => (inl e, s, w')
    end.

Definition on_moving_average {A : Type} (m : Method (MovingAverage Q) A)
  : M Service A :=
  call moving_average set_moving_average m.

Definition on_http_client {A : Type} (m : M HttpClient A) : M Service A :=
  zoom http_client set_http_client m.

(** The handler installed for SIGINT. *)
Definition signal_handler : M Service unit :=
  log INFO ShutdownSignal ;;
  print ShuttingDown ;;
  modify (set_running false).

(** The handler runs if the operator's SIGINT has arrived by the time
    the loop condition is about to be tested for cycle [cycles w]. *)
Definition deliver_sigint : M Service unit :=
  fun s w =>
    if poll_sigint env (cycles w) then signal_handler s w
    else (inr tt, s, w).

Definition end_of_cycle : M Service unit :=
  fun s w => (inr tt, s, count_cycle_w w).

Definition break : M Service (option unit) := ret (Some tt).

(** The [try] suite of a poll cycle. *)
Definition poll_try : M Service unit :=
  (* Fetch Bitcoin price *)
  price_data <- get_price "bitcoin" ;;
  timestamp <- now ;;
  (* Create a price object *)
  let btc_price :=
    {| pd_symbol := "BTC"; pd_price := price_data;
       pd_timestamp := timestamp; pd_source := "coingecko" |} in
  (* Store price *)
  store_price (pd_symbol btc_price) (pd_price btc_price)
    (pd_timestamp btc_price) ;;
  (* Update moving average *)
  on_moving_average (add_value (pd_price btc_price)) ;;
  (* Print price info *)
  ready <- on_moving_average is_ready ;;
  output <-
    (if ready : bool then
       sma <- on_moving_average get_average ;;
       match sma with
       | Some a =>
           ret (PriceLine (pd_symbol btc_price) (pd_price btc_price)
                  (pd_timestamp btc_price) (Some a))
       | None => raise (mkExn TypeError FormatNone)
       end
     else
       ret (PriceLine (pd_symbol btc_price) (pd_price btc_price)
              (pd_timestamp btc_price) None)) ;;
  print output ;;
  log DEBUG (BitcoinPrice (pd_price btc_price)) ;;
  (* Reset failure counter on success *)
  modify (set_consecutive_failures 0) ;;
  (* Wait configured interval before the next poll *)
  self <- get_self ;;
  sleep env (Config.poll_interval (config self)).

(** The [except Exception as e] suite of a poll cycle. *)
Definition poll_except (e : Exn) : M Service (option unit) :=
  modify (fun s => set_consecutive_failures (consecutive_failures s + 1) s) ;;
  self <- get_self ;;
  log WARNING (PriceFetchFailed (consecutive_failures self) e) ;;
  if Config.max_consecutive_failures (config self)
     <=? consecutive_failures self
  then
    let error_msg :=
      ConsecutiveFailures (Config.max_consecutive_failures (config self)) e in
    log ERROR error_msg ;;
    print error_msg ;;
    print StoppingPoller ;;
    modify (set_running false) ;;
    break
  else
    (* Wait before retry with exponential backoff *)
    let wait_time := Qmin (py_pow2 (consecutive_failures self - 1)) 30 in
    log INFO (WaitingBeforeRetry wait_time) ;;
    sleep env wait_time ;;
    continue.

(** One iteration of [while self.running]. *)
Definition poll_cycle : M Service (option unit) :=
  r <- try_except (poll_try ;; continue) poll_except ;;
  end_of_cycle ;;
  ret r.

(** [while self.running: ...].  The result tells whether the loop was
    left within [fuel] tests of its condition. *)
Fixpoint poll_loop (fuel : nat) : M Service bool :=
  match fuel with
  | O => ret false
  | S fuel' =>
      deliver_sigint ;;
      self <- get_self ;;
      if running self then
        r <- poll_cycle ;;
        match r with
        | Some _ => ret true
        | None => poll_loop fuel'
        end
      else ret true
  end.

Definition start_price_poller (fuel : nat) : M Service bool :=
  log INFO StartingPoller ;;
  print StartingPoller ;;
  print PressCtrlC ;;
  modify (set_running true) ;;
  left <- poll_loop fuel ;;
  if left : bool then
    on_http_client close ;;
    log INFO PollerStopped ;;
    print PollerStopped ;;
    ret true
  else ret false.

(** The body of [for page in range(1, pages + 1)] of the HTML crawl;
    [all_listings] is the local list, changed only when the page was
    fetched. *)
Definition html_page (page : Z) (all_listings : list Listing)
  : M Service (list Listing) :=
  log DEBUG (ScrapingHtmlPage page) ;;
  print (ScrapingPage page) ;;
  self <- get_self ;;
  try_except
    (listings <- get_listings_html page ;;
     let all_listings := all_listings ++ listings in
     (* Be nice to the server *)
     sleep env (Config.html_scraping_delay (config self)) ;;
     ret all_listings)
    (fun e =>
       let error_msg := ErrorScrapingPage page e in
       log ERROR error_msg ;;
       print error_msg ;;
       ret all_listings).

Definition crawl_coinmarketcap_html (pages : Z) : M Service (list Listing) :=
  log INFO (StartingHtml pages) ;;
  print (ScrapingHtmlRange pages) ;;
  all_listings <- for_fold (py_range 1 (pages + 1)) [] html_page ;;
  (* Store results *)
  store_listings all_listings ;;
  let result_msg := ScrapedHtml (len all_listings) in
  log INFO result_msg ;;
  print result_msg ;;
  ret all_listings.

(** The body of [for page in range(1, pages + 1)] of the JSON crawl. *)
Definition json_page (per_page page : Z) (all_listings : list Listing)
  : M Service (list Listing) :=
  log DEBUG (FetchingJsonPage page) ;;
  print (FetchingPage page) ;;
  self <- get_self ;;
  try_except
    (listings <- get_listings page per_page ;;
     let all_listings := all_listings ++ listings in
     (* Faster with JSON API *)
     sleep env (Config.json_api_delay (config self)) ;;
     ret all_listings)
    (fun e =>
       let error_msg := ErrorFetchingPage page e in
       log ERROR error_msg ;;
       print error_msg ;;
       ret all_listings).

Definition crawl_coinmarketcap_json (pages per_page : Z)
  : M Service (list Listing) :=
  log INFO (StartingJson pages) ;;
  print (ScrapingJsonRange pages) ;;
  all_listings <- for_fold (py_range 1 (pages + 1)) [] (json_page per_page) ;;
  (* Store results *)
  store_listings all_listings ;;
  let result_msg := ScrapedJson (len all_listings) in
  log INFO result_msg ;;
  print result_msg ;;
  ret all_listings.
End Service.

(* ================================================================= *)
(** ** Views of a trace *)

Definition sleep_of (e : Event) : option Q :=
  match e with EvSleep d => Some d | _ => None end.

Definition http_get_of (e : Event) : option string :=
  match e with EvHttpGet url => Some url | _ => None end.

Fixpoint pick {A B : Type} (f : A -> option B) (l : list A) : list B :=
  match l with
  | [] => []
  | x :: l' =>
      match f x with
      | Some y => y :: pick f l'
      | None => pick f l'
      end
  end.

(** The delays of the suspensions, and the URLs of the HTTP attempts, of a
    trace, in order. *)
Definition sleeps (tr : list Event) : list Q := pick sleep_of tr.
Definition http_gets (tr : list Event) : list string := pick http_get_of tr.

(** The attempts and suspensions of a trace, in the order they happen. *)
Inductive Step : Type :=
| Attempt (url : string)
| Nap (d : Q).

Definition step_of (e : Event) : option Step :=
  match e with
  | EvHttpGet url => Some (Attempt url)
  | EvSleep d => Some (Nap d)
  | _ => None
  end.

Definition timeline (tr : list Event) : list Step := pick step_of tr.

(** Attempts number [first], [first + 1], ..., [stop - 1], each followed
    by a suspension of [2 ^ attempt]. *)
Definition retried_attempts (url : string) (first stop : Z) : list Step :=
  flat_map (fun attempt => [Attempt url; Nap (inject_Z (2 ^ attempt))])
    (py_range first stop).

Definition attempt_of (s : Step) : option string :=
  match s with Attempt url => Some url | Nap _ => None end.

Definition nap_of (s : Step) : option Q :=
  match s with Nap d => Some d | Attempt _ => None end.

(** What the attempt loop does when every reply is a server error and
    the budget is [k]: [k] attempts with a suspension of [2 ^ attempt]
    after each but the last. *)
Definition exhausted_schedule (url : string) (k : Z) : list Step :=
  if 0 <? k then retried_attempts url 0 (k - 1) ++ [Attempt url] else [].

(** ** Kinds of replies *)

(** The server answered with a status of 500 or more. *)
Definition server_error (r : Reply) : Prop :=
  match r with
  | Response status _ => 500 <= status
  | Failure _ => False
  end.

(** The server answered with a status in [400, 500). *)
Definition client_error (r : Reply) : Prop :=
  match r with
  | Response status _ => 400 <= status < 500
  | Failure _ => False
  end.

(** A reply the attempt loop answers with a retry while the budget lasts:
    a 5xx status, or a transport error that is a [ClientError] or a
    timeout without being a [ClientResponseError]. *)
Definition transient (r : Reply) : Prop :=
  match r with
  | Response status _ => 500 <= status
  | Failure e =>
      is_client_response_error e = false
      /\ is_client_or_timeout_error e = true
  end.

Definition status_of (r : Reply) : Z :=
  match r with
  | Response status _ => status
  | Failure _ => 0
  end.

(** ** Views of a crawl *)

Definition stored_of (e : Event) : option (list Listing) :=
  match e with EvStoreListings batch => Some batch | _ => None end.

Definition page_of (e : Event) : option Z :=
  match e with
  | EvGetListingsHtml page => Some page
  | EvGetListings page _ => Some page
  | _ => None
  end.

Definition page_error_of (e : Event) : option Z :=
  match e with
  | EvLog ERROR (ErrorScrapingPage page _) => Some page
  | EvLog ERROR (ErrorFetchingPage page _) => Some page
  | _ => None
  end.

(** The batches handed to [store_listings], the pages asked for and the
    pages whose failure was logged, in order. *)
Definition stored (tr : list Event) : list (list Listing) := pick stored_of tr.
Definition pages_fetched (tr : list Event) : list Z := pick page_of tr.
Definition pages_logged_failed (tr : list Event) : list Z :=
  pick page_error_of tr.

(** Page fetches and suspensions of a crawl, in the order they happen. *)
Inductive CrawlStep : Type :=
| Fetch (page : Z)
| Delay (d : Q).

Definition crawl_step_of (e : Event) : option CrawlStep :=
  match e with
  | EvGetListingsHtml page => Some (Fetch page)
  | EvGetListings page _ => Some (Fetch page)
  | EvSleep d => Some (Delay d)
  | _ => None
  end.

Definition crawl_steps (tr : list Event) : list CrawlStep :=
  pick crawl_step_of tr.

(** The records of a page: those the provider returned, none if it
    raised. *)
Definition page_records (r : Exn + list Listing) : list Listing :=
  match r with
  | inr listings => listings
  | inl _ => []
  end.

Definition page_failed (r : Exn + list Listing) : bool :=
  match r with
  | inr _ => false
  | inl _ => true
  end.

(** The records of the pages of a list, in page order. *)
Definition combined (fetch : Z -> Exn + list Listing) (pages : list Z)
  : list Listing :=
  flat_map (fun page => page_records (fetch page)) pages.

(** What the code does around each page: the fetch, then the delay when
    the fetch succeeded. *)
Definition steps_of_pages (fetch : Z -> Exn + list Listing) (delay : Q)
  (pages : list Z) : list CrawlStep :=
  flat_map
    (fun page =>
       Fetch page :: if page_failed (fetch page) then [] else [Delay delay])
    pages.

(** The spec's reading, "suspend between pages (not after the last)":
    a delay after the fetch of every page but the last one. *)
Fixpoint delays_between_pages (delay : Q) (pages : list Z) : list CrawlStep :=
  match pages with
  | [] => []
  | [page] => [Fetch page]
  | page :: rest => Fetch page :: Delay delay :: delays_between_pages delay rest
  end.

(** ** Views of a poller run *)

Definition price_fetch_of (e : Event) : option string :=
  match e with EvGetPrice sym => Some sym | _ => None end.

(** The calls of [get_price] of a trace, in order. *)
Definition price_fetches (tr : list Event) : list string :=
  pick price_fetch_of tr.

(** Whether the [try] suite of poll cycle [n] raises, for a tracker of
    window size [window] that holds nothing when [window <= 0]: the fetch
    raises, or the storage call raises, or the average to print is [None]
    (a tracker of size 0 or less is always ready and always empty). *)
Definition cycle_fails (env : Env) (window : Z) (n : nat) : bool :=
  match poll_price env n, poll_store env n with
  | inr _, None => window <=? 0
  | _, _ => true
  end.

(** The consecutive-failure count after [i] cycles, the first of them
    being cycle [n0] entered with count [c0]: a failed cycle adds one, any
    other cycle resets it. *)
Fixpoint streak (fails : nat -> bool) (c0 : Z) (n0 i : nat) : Z :=
  match i with
  | O => c0
  | S j => if fails (n0 + j)%nat then streak fails c0 n0 j + 1 else 0
  end.

(** Cycles [i - k .. i - 1] (counted from cycle [n0]) all failed: a run of
    [k] consecutive failures ends with the [i]-th cycle. *)
Definition run_ends_at (fails : nat -> bool) (n0 k i : nat) : Prop :=
  (k <= i)%nat
  /\ forall j, (i - k <= j < i)%nat -> fails (n0 + j)%nat = true.

(** What the poller keeps true of its service object. *)
Definition poller_ok (cfg : Config.t) (s : Service) : Prop :=
  config s = cfg
  /\ window_size (moving_average s) = Config.moving_average_window cfg
  /\ (Config.moving_average_window cfg <= 0 ->
      values (moving_average s) = []).

(** Recorded request instants, each at least [d] after the one before
    ([prev] is the instant recorded before the first of the list). *)
Fixpoint spaced (d : Q) (prev : option Q) (stamps : list (option Q)) : Prop :=
  match stamps with
  | [] => True
  | Some t :: rest =>
      match prev with
      | Some p => (p + d <= t)%Q
      | None => True
      end /\ spaced d (Some t) rest
  | None :: _ => False
  end.

(** ** Sample worlds and environments *)

Definition world0 : World :=
  {| clock := 0; http_calls := 0; naps := 0; cycles := 0; batch_calls := 0;
     trace := [] |}.

(** An environment with the given HTTP replies, prices and pages, where a
    request takes a tenth of a second, suspensions resume on time, storage
    never fails and no SIGINT arrives. *)
Definition sample_env (http : nat -> Reply) (prices : nat -> Exn + Q)
  (pages : Z -> Exn + list Listing) : Env :=
  {| http_reply := http;
     http_latency := fun _ => 1 # 10;
     sleep_lag := fun _ => 0%Q;
     poll_price := prices;
     poll_store := fun _ => None;
     poll_sigint := fun _ => false;
     page_html := pages;
     page_json := fun page _ => pages page;
     store_batch := fun _ => None |}.

(** The default settings with another failure threshold. *)
Definition config_with_threshold (t : Z) : Config.t :=
  {| Config.http_timeout := 30;
     Config.http_max_retries := 5;
     Config.poll_interval := 1;
     Config.max_consecutive_failures := t;
     Config.html_scraping_delay := 1 # 2;
     Config.json_api_delay := 1 # 5;
     Config.moving_average_window := 10;
     Config.requests_per_second := 2 |}.

(** The same environment, with a SIGINT that has arrived by the time the
    loop condition is tested for cycle [n]. *)
Definition with_sigint (n : nat) (env : Env) : Env :=
  {| http_reply := http_reply env;
     http_latency := http_latency env;
     sleep_lag := sleep_lag env;
     poll_price := poll_price env;
     poll_store := poll_store env;
     poll_sigint := fun i => Nat.eqb i n;
     page_html := page_html env;
     page_json := page_json env;
     store_batch := store_batch env |}.

Definition unavailable : Reply := Response 503 (inl (mkExn OtherError (Text "no body"))).
Definition not_found : Reply := Response 404 (inl (mkExn OtherError (Text "no body"))).
Definition timed_out : Exn := mkExn TimeoutError (Text "timeout").

(** ** Further kinds of replies *)

(** An exception the attempt loop lets through at once: a
    [ClientResponseError], or one that is neither a [ClientError] nor a
    timeout. *)
Definition not_retried (e : Exn) : bool :=
  is_client_response_error e || negb (is_client_or_timeout_error e).

(** The server answered with a status under 400 and a body that parses to
    [data]. *)
Definition answers (r : Reply) (data : json) : Prop :=
  match r with
  | Response status (inr d) => status < 400 /\ d = data
  | _ => False
  end.

(** The transport raised [e], a [ClientError] or a timeout that is not a
    [ClientResponseError]. *)
Definition transport_error (r : Reply) (e : Exn) : Prop :=
  match r with
  | Failure e' =>
      e' = e /\ is_client_response_error e = false
      /\ is_client_or_timeout_error e = true
  | Response _ _ => False
  end.

(** The transport, or the parsing of the body of a reply with a status
    under 400, raised [e], an exception that is not retried. *)
Definition fails_for_good (r : Reply) (e : Exn) : Prop :=
  match r with
  | Failure e' => e' = e /\ not_retried e = true
  | Response status (inl e') =>
      status < 400 /\ e' = e /\ not_retried e = true
  | Response _ (inr _) => False
  end.

Definition new_session_of (e : Event) : option unit :=
  match e with EvNewSession => Some tt | _ => None end.

Definition close_session_of (e : Event) : option unit :=
  match e with EvCloseSession => Some tt | _ => None end.

(** The sessions created and closed in a trace. *)
Definition sessions_opened (tr : list Event) : list unit :=
  pick new_session_of tr.
Definition sessions_closed (tr : list Event) : list unit :=
  pick close_session_of tr.

(** More sample replies. *)
Definition answered : Reply := Response 200 (inr (Json "{}")).
Definition dropped : Reply := Failure timed_out.
Definition not_json : Reply :=
  Response 200 (inl (mkExn OtherError (Text "not JSON"))).

(** ** Further views of a poller run *)

Definition price_store_of (e : Event) : option (string * Q * Q) :=
  match e with
  | EvStorePrice sym p timestamp => Some (sym, p, timestamp)
  | _ => None
  end.

Definition sma_of (e : Event) : option (option Q) :=
  match e with
  | EvPrint (PriceLine _ _ _ sma) => Some sma
  | _ => None
  end.

Definition shutdown_of (e : Event) : option unit :=
  match e with
  | EvLog INFO ShutdownSignal => Some tt
  | _ => None
  end.

(** The calls of [store_price], the moving averages of the price lines
    printed ([None] for a line without one) and the shutdown notices of a
    trace, in order. *)
Definition price_stores (tr : list Event) : list (string * Q * Q) :=
  pick price_store_of tr.
Definition printed_smas (tr : list Event) : list (option Q) := pick sma_of tr.
Definition shutdowns (tr : list Event) : list unit := pick shutdown_of tr.

(** The last [n] elements of a list. *)
Definition last_n {A : Type} (n : nat) (l : list A) : list A :=
  skipn (List.length l - n) l.

(** The record counts of the summary lines a crawl prints. *)
Definition reported_of (e : Event) : option Z :=
  match e with
  | EvPrint (ScrapedHtml n) => Some n
  | EvPrint (ScrapedJson n) => Some n
  | _ => None
  end.

Definition reported (tr : list Event) : list Z := pick reported_of tr.

(* ================================================================= *)
(** ** [src/service.py]: compare_methods *)

(** The value of [compare_methods]: one entry per method. *)
Record MethodStats : Type :=
  { records : Z; duration : Q; records_per_second : Q }.

Record Comparison : Type :=
  { html_method : MethodStats; json_method : MethodStats }.

(** [a / b] on numbers: a [ZeroDivisionError] when [b] is zero. *)
Definition truediv {S : Type} (a b : Q) : M S Q :=
  if Qeq_bool b 0
  then raise (mkExn OtherError (Text "division by zero"))
  else ret (a / b)%Q.

(** An f-string, as the concatenation of its parts. *)
Definition fstring (parts : list string) : string :=
  String.concat EmptyString parts.

Definition newline : string := String (Ascii.ascii_of_nat 10) EmptyString.

(** [print(text)] for a line made up on the spot. *)
Definition print_text {S : Type} (text : string) : M S unit :=
  print (Message (Text text)).

Section CompareMethods.
Variable env : Env.
(** [str(n)] of an int and [format(x, ".<digits>f")] of a number. *)
Variable str : Z -> string.
Variable format_f : Z -> Q -> string.

Definition compare_methods : M Service Comparison :=
  print_text "Comparing HTML vs JSON methods..." ;;
  (* Measure HTML method *)
  start_time <- now ;;
  html_results <- crawl_coinmarketcap_html env 2 ;;
  finish <- now ;;
  let html_duration := (finish - start_time)%Q in
  (* Wait a bit between methods *)
  sleep env 2 ;;
  (* Measure JSON method *)
  start_time <- now ;;
  json_results <- crawl_coinmarketcap_json env 2 50 ;;
  finish <- now ;;
  let json_duration := (finish - start_time)%Q in
  (* Calculate throughput *)
  html_rps <-
    (if Qlt_bool 0 html_duration
     then truediv (inject_Z (len html_results)) html_duration
     else ret 0%Q) ;;
  json_rps <-
    (if Qlt_bool 0 json_duration
     then truediv (inject_Z (len json_results)) json_duration
     else ret 0%Q) ;;
  let comparison :=
    {| html_method :=
         {| records := len html_results;
            duration := html_duration;
            records_per_second := html_rps |};
       json_method :=
         {| records := len json_results;
            duration := json_duration;
            records_per_second := json_rps |} |} in
  print_text (fstring [newline; "Performance Comparison:"%string]) ;;
  print_text
    (fstring ["HTML Method: "%string; str (len html_results);
              " records in "%string; format_f 2 html_duration;
              "s ("%string; format_f 2 html_rps;
              " records/sec)"%string]) ;;
  print_text
    (fstring ["JSON Method: "%string; str (len json_results);
              " records in "%string; format_f 2 json_duration;
              "s ("%string; format_f 2 json_rps;
              " records/sec)"%string]) ;;
  verdict <-
    (if Qlt_bool 0 html_rps
     then
       ratio <- truediv json_rps html_rps ;;
       ret (fstring ["JSON is "%string; format_f 1 ratio;
                     "x faster"%string])
     else ret "JSON method succeeded"%string) ;;
  print_text verdict ;;
  ret comparison.
End CompareMethods.

(** The rate of an entry is its record count over its duration, or 0
    when the duration is not positive. *)
Definition guarded_rate (m : MethodStats) : Prop :=
  records_per_second m =
    if Qlt_bool 0 (duration m)
    then (inject_Z (records m) / duration m)%Q else 0%Q.

(** The last line [compare_methods] prints for a comparison. *)
Definition verdict_line (format_f : Z -> Q -> string) (c : Comparison)
  : string :=
  if Qlt_bool 0 (records_per_second (html_method c))
  then fstring ["JSON is "%string;
                format_f 1 (records_per_second (json_method c)
                            / records_per_second (html_method c))%Q;
                "x faster"%string]
  else "JSON method succeeded"%string.

(* ================================================================= *)
(** ** [src/core/config.py]: CrawlerConfig.validate *)

(** [x in l] for a list of strings. *)
Definition py_in (x : string) (l : list string) : bool :=
  existsb (String.eqb x) l.

Module CrawlerConfig.
(** The dataclass, with all its fields. *)
Record t : Type :=
  { http_timeout : Z;
    http_max_retries : Z;
    poll_interval : Q;
    max_consecutive_failures : Z;
    html_scraping_delay : Q;
    json_api_delay : Q;
    moving_average_window : Z;
    storage_type : string;
    data_directory : string;
    requests_per_second : Q;
    coingecko_base_url : string;
    coinmarketcap_base_url : string;
    coinmarketcap_api_url : string;
    log_level : string;
    log_format : string;
    cmc_pages_per_scrape : Z;
    cmc_coins_per_page : Z }.

Definition valid_levels : list string :=
  ["DEBUG"; "INFO"; "WARNING"; "ERROR"; "CRITICAL"]%string.

Section Validate.
(** [str.upper]. *)
Variable upper : string -> string.

Definition validate (self : t) : list string :=
  let errors := [] in
  let errors :=
    if http_timeout self <=? 0
    then errors ++ ["http_timeout must be positive"%string] else errors in
  let errors :=
    if http_max_retries self <=? 0
    then errors ++ ["http_max_retries must be positive"%string]
    else errors in
  let errors :=
    if Qle_bool (poll_interval self) 0
    then errors ++ ["poll_interval must be positive"%string] else errors in
  let errors :=
    if moving_average_window self <=? 0
    then errors ++ ["moving_average_window must be positive"%string]
    else errors in
  let errors :=
    if negb (py_in (storage_type self) ["csv"; "sqlite"]%string)
    then errors ++ ["storage_type must be 'csv' or 'sqlite'"%string]
    else errors in
  let errors :=
    if negb (py_in (upper (log_level self)) valid_levels)
    then errors ++ ["log_level must be a valid logging level"%string]
    else errors in
  errors.
End Validate.

(** The defaults of the dataclass. *)
Definition default : t :=
  {| http_timeout := 30;
     http_max_retries := 5;
     poll_interval := 1;
     max_consecutive_failures := 5;
     html_scraping_delay := 1 # 2;
     json_api_delay := 1 # 5;
     moving_average_window := 10;
     storage_type := "csv";
     data_directory := "data";
     requests_per_second := 2;
     coingecko_base_url := "https://api.coingecko.com/api/v3";
     coinmarketcap_base_url := "https://coinmarketcap.com";
     coinmarketcap_api_url :=
       "https://api.coinmarketcap.com/data-api/v3/cryptocurrency/listing";
     log_level := "INFO";
     log_format := "%(asctime)s - %(name)s - %(levelname)s - %(message)s";
     cmc_pages_per_scrape := 5;
     cmc_coins_per_page := 20 |}.

(** The six settings [validate] reads. *)
Definition same_validated_settings (upper : string -> string) (a b : t)
  : Prop :=
  http_timeout a = http_timeout b
  /\ http_max_retries a = http_max_retries b
  /\ poll_interval a = poll_interval b
  /\ moving_average_window a = moving_average_window b
  /\ storage_type a = storage_type b
  /\ upper (log_level a) = upper (log_level b).
End CrawlerConfig.

(** What cycle [n] hands to [store_price]: the price fetched, if any. *)
Definition price_of_cycle (env : Env) (n : nat) : list (string * Q) :=
  match poll_price env n with
  | inr p => [("BTC"%string, p)]
  | inl _ => []
  end.

(* ================================================================= *)
(** ** [src/storage.py]: Storage, the prices *)

(** [l[start:]]. *)
Definition py_slice_from {A : Type} (start : Z) (l : list A) : list A :=
  let first :=
    if start <? 0 then Z.max (len l + start) 0 else Z.min start (len l) in
  skipn (Z.to_nat first) l.

Module Storage.
(** A CSV file is kept as its rows: what [csv.writer] wrote, row by row,
    is what [csv.reader] yields.  The file system gives the file at a path,
    [None] where there is none; opening and writing do not fail. *)
Definition Row : Type := list string.
Definition Files : Type := string -> option (list Row).

(** [os.path.exists(path)]. *)
Definition path_exists (path : string) : M Files bool :=
  fun files w =>
    (inr (match files path with Some _ => true | None => false end), files, w).

(** [open(path, "w")] and the rows written before the file is closed. *)
Definition open_w (path : string) (rows : list Row) : M Files unit :=
  fun files w =>
    (inr tt, fun p => if String.eqb p path then Some rows else files p, w).

(** [open(path, "a")] and the rows written before the file is closed. *)
Definition open_a (path : string) (rows : list Row) : M Files unit :=
  fun files w =>
    (inr tt,
     fun p =>
       if String.eqb p path
       then Some (match files path with
                  | Some old => old ++ rows
                  | None => rows
                  end)
       else files p,
     w).

(** [open(path, "r")] and the rows of the file. *)
Definition open_r (path : string) : M Files (list Row) :=
  fun files w =>
    match files path with
    | Some rows => (inr rows, files, w)
    | None => (inl (mkExn OtherError (Text "FileNotFoundError")), files, w)
    end.

(** A row of [csv.DictReader]: the field names with the fields of the
    row. *)
Record DictRow : Type := { fieldnames : list string; fields : Row }.

Definition is_empty_row (r : Row) : bool :=
  match r with [] => true | _ :: _ => false end.

(** [csv.DictReader(f)]: the first row gives the field names, empty rows
    are skipped. *)
Definition DictReader (rows : list Row) : list DictRow :=
  match rows with
  | [] => []
  | names :: data =>
      map (fun r => {| fieldnames := names; fields := r |})
        (filter (fun r => negb (is_empty_row r)) data)
  end.

(** The value the dict of a row holds for [key]: that of the last field
    named [key], [Some None] (the [restval]) when the row is too short for
    it, nothing when no field has that name. *)
Fixpoint dict_lookup (names : list string) (row : Row) (key : string)
  (found : option (option string)) : option (option string) :=
  match names with
  | [] => found
  | name :: names' =>
      let value := match row with [] => None | v :: _ => Some v end in
      dict_lookup names' (tl row) key
        (if String.eqb name key then Some value else found)
  end.

(** [row[key]]. *)
Definition getitem {S : Type} (row : DictRow) (key : string)
  : M S (option string) :=
  match dict_lookup (fieldnames row) (fields row) key None with
  | Some value => ret value
  | None => raise (mkExn OtherError (Text key))   (* KeyError(key) *)
  end.

(** [value == symbol] for a field, which is a [str] or [None]. *)
Definition field_eqb (value : option string) (symbol : string) : bool :=
  match value with
  | Some v => String.eqb v symbol
  | None => false
  end.

(** The part of the object the price methods read. *)
Record t : Type := { storage_type : string; csv_prices : string }.

(** An entry of the list [get_recent_prices] returns. *)
Record RecentPrice (F : Type) : Type :=
  { rp_price : F; rp_timestamp : option string }.
Arguments Build_RecentPrice {F} _ _.
Arguments rp_price {F} _.
Arguments rp_timestamp {F} _.

Section Methods.
(** The type of prices, how [csv.writer] writes one, [float(text)], and
    [timestamp.isoformat()]. *)
Variable F : Type.
Variable str_float : F -> string.
Variable py_float : string -> Exn + F.
Variable isoformat : Q -> string.
(** The SQLite branches. *)
Variable sqlite_store_price : t -> string -> F -> Q -> M Files unit.
Variable sqlite_get_recent_prices :
  t -> string -> Z -> M Files (list (RecentPrice F)).

Definition store_price (self : t) (symbol : string) (price : F)
  (timestamp : Q) : M Files unit :=
  if String.eqb (storage_type self) "sqlite"
  then sqlite_store_price self symbol price timestamp
  else
    (* Create prices CSV with header if it doesn't exist *)
    present <- path_exists (csv_prices self) ;;
    (if negb present
     then open_w (csv_prices self)
            [["symbol"; "price"; "timestamp"; "source"]%string]
     else ret tt) ;;
    open_a (csv_prices self)
      [[symbol; str_float price; isoformat timestamp; "coingecko"%string]].

(** [float(value)] for a field. *)
Definition float_of {S : Type} (value : option string) : M S F :=
  match value with
  | None => raise (mkExn TypeError (Text "float() argument"))
  | Some text =>
      match py_float text with
      | inr x => ret x
      | inl e => raise e
      end
  end.

Definition get_recent_prices (self : t) (symbol : string) (count : Z)
  : M Files (list (RecentPrice F)) :=
  if String.eqb (storage_type self) "sqlite"
  then sqlite_get_recent_prices self symbol count
  else
    let prices := [] in
    present <- path_exists (csv_prices self) ;;
    prices <-
      (if present
       then
         rows <- open_r (csv_prices self) ;;
         for_fold (DictReader rows) prices
           (fun row prices =>
              value <- getitem row "symbol" ;;
              if field_eqb value symbol
              then
                price_text <- getitem row "price" ;;
                price <- float_of price_text ;;
                timestamp <- getitem row "timestamp" ;;
                ret (prices
                     ++ [{| rp_price := price; rp_timestamp := timestamp |}])
              else ret prices)
       else ret prices) ;;
    ret (match prices with
         | [] => []
         | _ :: _ => py_slice_from (- count) prices
         end).

(** A sequence of [store_price] calls, one per entry. *)
Definition store_prices (self : t) (entries : list (string * F * Q))
  : M Files unit :=
  for_fold entries tt
    (fun entry _ =>
       let '(symbol, price, timestamp) := entry in
       store_price self symbol price timestamp).

(** The row [store_price] writes for an entry, and the entry
    [get_recent_prices] makes of it. *)
Definition price_row (entry : string * F * Q) : Row :=
  let '(symbol, price, timestamp) := entry in
  [symbol; str_float price; isoformat timestamp; "coingecko"%string].

Definition recent_price_of (entry : string * F * Q) : RecentPrice F :=
  let '(_, price, timestamp) := entry in
  {| rp_price := price; rp_timestamp := Some (isoformat timestamp) |}.

(** The entries stored for a symbol, in the order they were stored. *)
Definition stored_for (symbol : string) (entries : list (string * F * Q))
  : list (RecentPrice F) :=
  map recent_price_of
    (filter (fun entry => String.eqb (fst (fst entry)) symbol) entries).
End Methods.

End Storage.

(** The window never holds more samples than its size. *)
Definition window_ok {F : Type} (m : MovingAverage F) : Prop :=
  len (values m) <= window_size m.

(* ================================================================= *)
(** * Properties *)

(* ================================================================= *)
(** ** MovingAverage *)

Section MovingAverageFacts.
Context {F : Type} `{Numeric F}.
Implicit Types (m : MovingAverage F) (vs : list F).

Lemma len_app {A : Type} (l1 l2 : list A) : len (l1 ++ l2) = len l1 + len l2.
Proof. unfold len. rewrite length_app. lia. Qed.

Lemma len_nonneg {A : Type} (l : list A) : 0 <= len l.
Proof. unfold len. lia. Qed.

Lemma len_cons {A : Type} (x : A) (l : list A) : len (x :: l) = 1 + len l.
Proof. unfold len. cbn [List.length]. lia. Qed.

Lemma len_nil {A : Type} : len (@nil A) = 0.
Proof. reflexivity. Qed.

Lemma len_tl {A : Type} (l : list A) : l <> [] -> len (tl l) = len l - 1.
Proof.
  destruct l as [|x l]; [congruence|]. intros _. cbn [tl].
  rewrite len_cons. lia.
Qed.

Lemma window_size_add_value v m :
  window_size (snd (add_value v m)) = window_size m.
Proof. unfold add_value. destruct (_ <? _); reflexivity. Qed.

Lemma window_size_add_values vs m :
  window_size (add_values vs m) = window_size m.
Proof.
  revert m. induction vs as [|v vs IH]; intros m; simpl; [reflexivity|].
  unfold add_values in *. simpl. rewrite IH. apply window_size_add_value.
Qed.

Lemma values_add_value_room v m :
  len (values m) < window_size m ->
  values (snd (add_value v m)) = values m ++ [v].
Proof.
  intros Hlt. unfold add_value.
  destruct (Z.ltb_spec (window_size m) (len (values m ++ [v]))) as [Hgt|Hle];
    [|reflexivity].
  rewrite len_app, len_cons, len_nil in Hgt. lia.
Qed.

Lemma values_add_value_full v m :
  window_size m <= len (values m) ->
  values (snd (add_value v m)) = tl (values m ++ [v]).
Proof.
  intros Hfull. unfold add_value.
  destruct (Z.ltb_spec (window_size m) (len (values m ++ [v]))) as [Hgt|Hle];
    [reflexivity|].
  rewrite len_app, len_cons, len_nil in Hle. lia.
Qed.

Lemma len_values_add_value v m :
  len (values (snd (add_value v m))) =
  if window_size m <=? len (values m) then len (values m)
  else len (values m) + 1.
Proof.
  destruct (Z.leb_spec (window_size m) (len (values m))) as [Hfull|Hroom].
  - rewrite values_add_value_full by assumption.
    rewrite len_tl by (destruct (values m); discriminate).
    rewrite len_app, len_cons, len_nil. lia.
  - rewrite values_add_value_room by assumption.
    rewrite len_app. reflexivity.
Qed.

Lemma window_ok_add_value v m : window_ok m -> window_ok (snd (add_value v m)).
Proof.
  unfold window_ok. intros Hok.
  rewrite window_size_add_value, len_values_add_value.
  destruct (Z.leb_spec (window_size m) (len (values m))); lia.
Qed.

Lemma window_ok_add_values vs m : window_ok m -> window_ok (add_values vs m).
Proof.
  revert m. induction vs as [|v vs IH]; intros m Hok; [exact Hok|].
  apply (IH (snd (add_value v m))). now apply window_ok_add_value.
Qed.

Lemma values_add_values_room vs m :
  len (values m) + len vs <= window_size m ->
  values (add_values vs m) = values m ++ vs.
Proof.
  revert m. induction vs as [|v vs IH]; intros m Hroom.
  - simpl. now rewrite app_nil_r.
  - change (add_values (v :: vs) m) with (add_values vs (snd (add_value v m))).
    pose proof (len_cons v vs) as Hlen.
    pose proof (len_nonneg vs) as Hvs.
    rewrite IH.
    + rewrite values_add_value_room by lia. now rewrite <- app_assoc.
    + rewrite window_size_add_value, values_add_value_room by lia.
      rewrite len_app, len_cons, len_nil. lia.
Qed.

Lemma len_values_add_values vs m :
  window_ok m ->
  len (values (add_values vs m)) =
  Z.min (window_size m) (len (values m) + len vs).
Proof.
  revert m. induction vs as [|v vs IH]; intros m Hok.
  - unfold window_ok in Hok. simpl; rewrite ?len_nil; lia.
  - change (add_values (v :: vs) m) with (add_values vs (snd (add_value v m))).
    rewrite IH by now apply window_ok_add_value.
    rewrite window_size_add_value, len_values_add_value.
    pose proof (len_cons v vs) as Hlen.
    pose proof (len_nonneg vs) as Hvs. unfold window_ok in Hok.
    destruct (Z.leb_spec (window_size m) (len (values m))); lia.
Qed.

Lemma window_ok_init (n : Z) vs : 0 <= n -> window_ok (MovingAverage_init n vs).
Proof. intros Hn. unfold window_ok. simpl. rewrite len_nil. exact Hn. Qed.

Lemma get_average_values m : fst (get_average m) = mean (values m).
Proof. unfold get_average, mean. destruct (values m); reflexivity. Qed.

Lemma is_ready_add_values_neg vs m :
  window_size m < 0 -> fst (is_ready (add_values vs m)) = true.
Proof.
  intros Hneg. unfold is_ready. simpl. rewrite window_size_add_values.
  pose proof (len_nonneg (values (add_values vs m))). apply Z.leb_le. lia.
Qed.

(** C10: whatever list is passed as [values], the constructor leaves the
    tracker empty: no sample is held, [get_average()] is [None], and
    [is_ready()] is false precisely for a positive window size. *)
Theorem constructor_discards_values (w : Z) vs :
  values (MovingAverage_init w vs) = []
  /\ fst (get_average (MovingAverage_init w vs)) = None
  /\ fst (is_ready (MovingAverage_init w vs)) = (w <=? 0).
Proof. repeat split. Qed.

(** C8: for a window size [n >= 0] the bound [len(values) <= n] holds
    after construction, every [add_value] preserves it (and the window
    size), so it holds after any sequence of additions; [get_average] and
    [is_ready] leave the object as it was. *)
Theorem window_invariant (n : Z) (l0 : list F) :
  0 <= n ->
  window_ok (MovingAverage_init n l0)
  /\ (forall v m, window_ok m ->
        window_ok (snd (add_value v m))
        /\ window_size (snd (add_value v m)) = window_size m)
  /\ (forall vs, len (values (add_values vs (MovingAverage_init n l0))) <= n)
  /\ (forall m, snd (get_average m) = m /\ snd (is_ready m) = m).
Proof.
  intros Hn. split; [now apply window_ok_init|]. split; [|split].
  - intros v m Hok. split; [now apply window_ok_add_value|].
    apply window_size_add_value.
  - intros vs.
    pose proof (window_ok_add_values vs _ (window_ok_init n l0 Hn)) as Hok.
    unfold window_ok in Hok. now rewrite window_size_add_values in Hok.
  - intros m. split; [|reflexivity].
    unfold get_average. destruct (values m); reflexivity.
Qed.

(** C4: with window size [n], after adding [v1..vm], [m <= n], the
    samples held are [v1..vm] and [get_average()] is their mean (not [None]
    as soon as one sample was added); after adding [v1..v(n+1)] the oldest
    is gone, [get_average()] is the mean of [v2..v(n+1)] and [is_ready()] is
    true; [get_average()] is [None] exactly when nothing is held, and after
    adding any samples [is_ready()] is true exactly when at least [n] were
    added, that is when the held count is [n]. *)
Theorem moving_average_window (n : Z) (l0 vs : list F) :
  let m := add_values vs (MovingAverage_init n l0) in
  (len vs <= n ->
     values m = vs
     /\ fst (get_average m) = mean vs
     /\ (vs <> [] -> fst (get_average m) <> None))
  /\ (len vs = n + 1 ->
     values m = tl vs
     /\ fst (get_average m) = mean (tl vs)
     /\ fst (is_ready m) = true)
  /\ (forall m' : MovingAverage F,
        fst (get_average m') = None <-> values m' = [])
  /\ (fst (is_ready m) = true <-> n <= len vs)
  /\ (0 <= n -> (fst (is_ready m) = true <-> len (values m) = n)).
Proof.
  intros m.
  assert (Hroom : len vs <= n -> values m = vs).
  { intros Hle. unfold m. rewrite values_add_values_room; [reflexivity|].
    simpl; rewrite ?len_nil; lia. }
  split; [|split; [|split; [|split]]].
  - intros Hle. split; [auto|]. split.
    + rewrite get_average_values, Hroom by assumption. reflexivity.
    + intros Hne. rewrite get_average_values, Hroom by assumption.
      destruct vs; [congruence|discriminate].
  - intros Hlen.
    assert (Hval : values m = tl vs).
    { unfold m. clear Hroom m.
      destruct vs as [|x vs0]; [reflexivity|].
      destruct (exists_last (l := x :: vs0)) as (vs' & v & Heq);
        [discriminate|].
      rewrite Heq in *. clear Heq x vs0.
      rewrite len_app, len_cons, len_nil in Hlen.
      unfold add_values. rewrite fold_left_app. simpl.
      fold (add_values vs' (MovingAverage_init n l0)).
      rewrite values_add_value_full.
      - rewrite values_add_values_room; [reflexivity|].
        simpl; rewrite ?len_nil; lia.
      - rewrite window_size_add_values, values_add_values_room.
        + simpl. lia.
        + simpl; rewrite ?len_nil; lia. }
    split; [exact Hval|]. split.
    + now rewrite get_average_values, Hval.
    + unfold is_ready. simpl. apply Z.leb_le.
      rewrite Hval. unfold m. rewrite window_size_add_values. simpl.
      destruct vs as [|x vs]; cbn [tl]; rewrite ?len_cons, ?len_nil in *; lia.
  - intros m'. unfold get_average.
    destruct (values m'); simpl; split; congruence.
  - destruct (Z.lt_ge_cases n 0) as [Hneg|Hpos].
    + split; [intros _; pose proof (len_nonneg vs); lia|].
      intros _. unfold m. apply is_ready_add_values_neg. exact Hneg.
    + unfold is_ready. simpl. rewrite Z.leb_le. unfold m.
      rewrite window_size_add_values.
      rewrite len_values_add_values by now apply window_ok_init.
      simpl; rewrite ?len_nil; lia.
  - intros Hpos. unfold is_ready. simpl. rewrite Z.leb_le. unfold m.
    rewrite window_size_add_values.
    rewrite len_values_add_values by now apply window_ok_init.
    simpl; rewrite ?len_nil; lia.
Qed.

End MovingAverageFacts.

(* ================================================================= *)
(** ** Ranges and traces *)

Lemma py_range_nil (a b : Z) : b <= a -> py_range a b = [].
Proof.
  intros Hle. unfold py_range.
  replace (Z.to_nat (b - a)) with 0%nat by lia. reflexivity.
Qed.

Lemma py_range_cons (a b : Z) :
  a < b -> py_range a b = a :: py_range (a + 1) b.
Proof.
  intros Hlt. unfold py_range.
  replace (Z.to_nat (b - a)) with (S (Z.to_nat (b - (a + 1)))) by lia.
  cbn [seq map]. f_equal; [lia|].
  rewrite <- seq_shift, map_map. apply map_ext. intros i. lia.
Qed.

Lemma py_range_snoc (a b : Z) :
  a <= b -> py_range a (b + 1) = py_range a b ++ [b].
Proof.
  intros Hle. unfold py_range.
  replace (Z.to_nat (b + 1 - a)) with (Z.to_nat (b - a) + 1)%nat by lia.
  rewrite seq_app, map_app. cbn [seq map]. do 2 f_equal. lia.
Qed.

Lemma length_py_range (a b : Z) : List.length (py_range a b) = Z.to_nat (b - a).
Proof. unfold py_range. now rewrite length_map, length_seq. Qed.

Lemma pick_app {A B : Type} (f : A -> option B) (l1 l2 : list A) :
  pick f (l1 ++ l2) = pick f l1 ++ pick f l2.
Proof.
  induction l1 as [|x l1 IH]; [reflexivity|].
  simpl. destruct (f x); simpl; now rewrite IH.
Qed.

Lemma py_pow2_nonneg (n : Z) : 0 <= n -> py_pow2 n = inject_Z (2 ^ n).
Proof.
  intros Hn. unfold py_pow2.
  destruct (Z.ltb_spec n 0); [lia|reflexivity].
Qed.

(* ================================================================= *)
(** ** HttpClient: the attempt loop *)

Section AttemptLoop.
Variable env : Env.
Variable url : string.

Ltac run_attempt :=
  unfold attempt_body, response_json, try_except, bind, get_self, log, emit,
    session_get, sleep, raise, continue, return_, ret;
  cbn [http_calls naps emit_w advance_w count_http_w count_nap_w].

(** A transient reply before the last attempt: one request, one
    suspension of [2 ^ attempt], and the loop goes on. *)
Lemma attempt_body_retry (attempt : Z) (c : HttpClient) (w : World) :
  transient (http_reply env (http_calls w)) ->
  0 <= attempt < max_retries c - 1 ->
  exists w' evs,
    attempt_body env url attempt c w = (inr None, c, w')
    /\ http_calls w' = S (http_calls w)
    /\ trace w' = trace w ++ evs
    /\ timeline evs = [Attempt url; Nap (inject_Z (2 ^ attempt))].
Proof.
  intros Hreply [Hlo Hhi]. run_attempt.
  destruct (http_reply env (http_calls w)) as [status body|e] eqn:Hr;
    simpl in Hreply.
  - rewrite (proj2 (Z.leb_le 500 status) Hreply).
    rewrite (proj2 (Z.ltb_lt attempt (max_retries c - 1)) Hhi).
    rewrite py_pow2_nonneg by assumption.
    eexists _, _. split; [reflexivity|]. split; [reflexivity|].
    split; [simpl; rewrite <- !app_assoc; reflexivity|]. reflexivity.
  - destruct Hreply as [Hnot Hyes]. rewrite Hnot, Hyes.
    rewrite (proj2 (Z.ltb_lt attempt (max_retries c - 1)) Hhi).
    rewrite py_pow2_nonneg by assumption.
    eexists _, _. split; [reflexivity|]. split; [reflexivity|].
    split; [simpl; rewrite <- !app_assoc; reflexivity|]. reflexivity.
Qed.

(** A 5xx reply to the last attempt: one request, no suspension, and the
    exhausted-retries error with the status. *)
Lemma attempt_body_last_5xx (attempt : Z) (c : HttpClient) (w : World) :
  server_error (http_reply env (http_calls w)) ->
  max_retries c - 1 <= attempt ->
  exists w' evs,
    attempt_body env url attempt c w =
      (inl (mkExn ClientError
              (ServerErrorAfter (max_retries c)
                 (status_of (http_reply env (http_calls w))))), c, w')
    /\ http_calls w' = S (http_calls w)
    /\ trace w' = trace w ++ evs
    /\ timeline evs = [Attempt url].
Proof.
  intros Hreply Hlast. run_attempt.
  destruct (http_reply env (http_calls w)) as [status body|e] eqn:Hr;
    simpl in Hreply; [|contradiction].
  rewrite (proj2 (Z.leb_le 500 status) Hreply).
  rewrite (proj2 (Z.ltb_ge attempt (max_retries c - 1)) Hlast).
  simpl.
  eexists _, _. split; [reflexivity|]. split; [reflexivity|].
  split; [simpl; rewrite <- !app_assoc; reflexivity|]. reflexivity.
Qed.

(** A 4xx reply: one request, no suspension, and the client error is
    raised whatever the attempt number. *)
Lemma attempt_body_4xx (attempt : Z) (c : HttpClient) (w : World) :
  client_error (http_reply env (http_calls w)) ->
  exists w' evs,
    attempt_body env url attempt c w =
      (inl (mkExn ClientResponseError
              (ClientErrorFor (status_of (http_reply env (http_calls w))) url)),
       c, w')
    /\ http_calls w' = S (http_calls w)
    /\ trace w' = trace w ++ evs
    /\ timeline evs = [Attempt url].
Proof.
  intros Hreply. run_attempt.
  destruct (http_reply env (http_calls w)) as [status body|e] eqn:Hr;
    simpl in Hreply; [|contradiction].
  destruct Hreply as [Hlo Hhi].
  rewrite (proj2 (Z.leb_gt 500 status) Hhi).
  rewrite (proj2 (Z.leb_le 400 status) Hlo).
  simpl.
  eexists _, _. split; [reflexivity|]. split; [reflexivity|].
  split; [simpl; rewrite <- !app_assoc; reflexivity|]. reflexivity.
Qed.

End AttemptLoop.

Lemma http_gets_timeline (tr : list Event) :
  http_gets tr = pick attempt_of (timeline tr).
Proof.
  unfold http_gets, timeline.
  induction tr as [|e tr IH]; [reflexivity|].
  destruct e; simpl; try exact IH. now f_equal.
Qed.

Lemma sleeps_timeline (tr : list Event) :
  sleeps tr = pick nap_of (timeline tr).
Proof.
  unfold sleeps, timeline.
  induction tr as [|e tr IH]; [reflexivity|].
  destruct e; simpl; try exact IH. now f_equal.
Qed.

Lemma retried_attempts_nil (url : string) (a b : Z) :
  b <= a -> retried_attempts url a b = [].
Proof. intros Hle. unfold retried_attempts. now rewrite py_range_nil. Qed.

Lemma retried_attempts_cons (url : string) (a b : Z) :
  a < b ->
  retried_attempts url a b =
  Attempt url :: Nap (inject_Z (2 ^ a)) :: retried_attempts url (a + 1) b.
Proof. intros Hlt. unfold retried_attempts. now rewrite py_range_cons. Qed.

Lemma attempts_of_retried (url : string) (n : nat) (a : Z) :
  pick attempt_of (retried_attempts url a (a + Z.of_nat n)) = repeat url n.
Proof.
  revert a. induction n as [|n IH]; intros a.
  - rewrite retried_attempts_nil by lia. reflexivity.
  - rewrite retried_attempts_cons by lia. simpl. f_equal.
    replace (a + Z.pos (Pos.of_succ_nat n)) with (a + 1 + Z.of_nat n) by lia.
    apply IH.
Qed.

Lemma naps_of_retried (url : string) (n : nat) (a : Z) :
  pick nap_of (retried_attempts url a (a + Z.of_nat n)) =
  map (fun i => inject_Z (2 ^ i)) (py_range a (a + Z.of_nat n)).
Proof.
  revert a. induction n as [|n IH]; intros a.
  - rewrite retried_attempts_nil, py_range_nil by lia. reflexivity.
  - rewrite retried_attempts_cons, py_range_cons by lia. simpl. f_equal.
    replace (a + Z.pos (Pos.of_succ_nat n)) with (a + 1 + Z.of_nat n) by lia.
    apply IH.
Qed.

Section Retries.
Variable env : Env.
Variable url : string.

(** While the replies are transient and the budget is not used up, the
    loop goes from one attempt to the next. *)
Lemma for_each_retried (j : nat) :
  forall (a : Z) (c : HttpClient) (w : World),
    0 <= a ->
    a + Z.of_nat j <= max_retries c - 1 ->
    (forall i, (i < j)%nat ->
       transient (http_reply env (http_calls w + i))) ->
    exists w' evs,
      for_each (py_range a (max_retries c)) (attempt_body env url) c w =
      for_each (py_range (a + Z.of_nat j) (max_retries c))
        (attempt_body env url) c w'
      /\ http_calls w' = (http_calls w + j)%nat
      /\ trace w' = trace w ++ evs
      /\ timeline evs = retried_attempts url a (a + Z.of_nat j).
Proof.
  induction j as [|j IH]; intros a c w Ha Hbudget Hreplies.
  - exists w, []. rewrite Z.add_0_r, Nat.add_0_r, app_nil_r.
    rewrite retried_attempts_nil by lia. auto.
  - destruct (attempt_body_retry env url a c w) as (w1 & evs1 & Hrun & Hn & Htr & Htl).
    { specialize (Hreplies 0%nat). rewrite Nat.add_0_r in Hreplies.
      apply Hreplies. lia. }
    { lia. }
    destruct (IH (a + 1) c w1) as (w' & evs & Hrest & Hn' & Htr' & Htl').
    { lia. }
    { lia. }
    { intros i Hi. rewrite Hn.
      replace (S (http_calls w) + i)%nat with (http_calls w + S i)%nat by lia.
      apply Hreplies. lia. }
    exists w', (evs1 ++ evs).
    replace (a + Z.of_nat (S j)) with (a + 1 + Z.of_nat j) by lia.
    split; [|split; [|split]].
    + rewrite <- Hrest. rewrite (py_range_cons a) by lia.
      cbn [for_each]. unfold bind at 1. now rewrite Hrun.
    + lia.
    + rewrite Htr', Htr. now rewrite app_assoc.
    + unfold timeline in *. rewrite pick_app, Htl, Htl'.
      rewrite (retried_attempts_cons url a) by lia. reflexivity.
Qed.

(** Every reply a server error: the budget is spent and the last status
    is reported. *)
Lemma attempts_server_errors (c : HttpClient) (w : World) :
  (forall i, (i < Z.to_nat (max_retries c))%nat ->
     server_error (http_reply env (http_calls w + i))) ->
  exists w' evs,
    attempts env url c w =
      (inl (mkExn ClientError
              (if 0 <? max_retries c
               then ServerErrorAfter (max_retries c)
                      (status_of
                         (http_reply env
                            (http_calls w + Z.to_nat (max_retries c) - 1)))
               else MaxRetriesExceeded)), c, w')
    /\ http_calls w' = (http_calls w + Z.to_nat (max_retries c))%nat
    /\ trace w' = trace w ++ evs
    /\ timeline evs = exhausted_schedule url (max_retries c).
Proof.
  intros Hreplies. unfold attempts, exhausted_schedule.
  unfold bind at 1, get_self at 1.
  destruct (Z.ltb_spec 0 (max_retries c)) as [Hpos|Hnone].
  - destruct (for_each_retried (Z.to_nat (max_retries c - 1)) 0 c w)
      as (w1 & evs1 & Hrun & Hn & Htr & Htl).
    { lia. }
    { lia. }
    { intros i Hi. specialize (Hreplies i).
      destruct (http_reply env (http_calls w + i)); simpl in *;
        [apply Hreplies; lia | exfalso; apply Hreplies; lia]. }
    replace (0 + Z.of_nat (Z.to_nat (max_retries c - 1)))
      with (max_retries c - 1) in * by lia.
    destruct (attempt_body_last_5xx env url (max_retries c - 1) c w1)
      as (w' & evs & Hlast & Hn' & Htr' & Htl').
    { rewrite Hn. apply Hreplies. lia. }
    { lia. }
    exists w', (evs1 ++ evs). split; [|split; [|split]].
    + unfold bind. rewrite Hrun.
      rewrite (py_range_cons (max_retries c - 1)) by lia.
      cbn [for_each]. unfold bind. rewrite Hlast, Hn.
      replace (http_calls w + Z.to_nat (max_retries c) - 1)%nat
        with (http_calls w + Z.to_nat (max_retries c - 1))%nat by lia.
      reflexivity.
    + lia.
    + rewrite Htr', Htr. now rewrite app_assoc.
    + unfold timeline in *. now rewrite pick_app, Htl, Htl'.
  - exists w, []. rewrite py_range_nil by lia.
    replace (Z.to_nat (max_retries c)) with 0%nat by lia.
    rewrite Nat.add_0_r, app_nil_r. auto.
Qed.

End Retries.

(* ================================================================= *)
(** ** HttpClient: the rate limiter *)

Lemma Qlt_bool_iff (x y : Q) : Qlt_bool x y = true <-> (x < y)%Q.
Proof.
  unfold Qlt_bool. rewrite negb_true_iff.
  destruct (Qle_bool y x) eqn:Hle.
  - apply Qle_bool_iff in Hle. split; [discriminate|]. intros Hlt. lra.
  - split; [intros _|reflexivity].
    apply Qnot_le_lt. intros Hyx. apply Qle_bool_iff in Hyx. congruence.
Qed.

Lemma Qlt_bool_false (x y : Q) : Qlt_bool x y = false <-> (y <= x)%Q.
Proof.
  destruct (Qlt_bool x y) eqn:Hlt.
  - apply Qlt_bool_iff in Hlt. split; [discriminate|]. intros Hle. lra.
  - split; [intros _|reflexivity].
    apply Qnot_lt_le. intros Hxy. apply Qlt_bool_iff in Hxy. congruence.
Qed.

Section RateLimit.
Variable env : Env.

(** The limiter waits: a request was recorded, the interval is positive
    and less than the interval has elapsed. *)
Lemma rate_limit_waits (c : HttpClient) (w : World) (last : Q) :
  last_request_time c = Some last ->
  (0 < min_interval c)%Q ->
  (clock w - last < min_interval c)%Q ->
  let sleep_time := (min_interval c - (clock w - last))%Q in
  let w1 :=
    count_nap_w
      (advance_w (Qmax 0 sleep_time + sleep_lag env (naps w))%Q
         (emit_w (EvSleep sleep_time)
            (emit_w (EvLog DEBUG (RateLimiting sleep_time)) w))) in
  _rate_limit env c w =
    (inr tt, set_last_request_time (Some (clock w1)) c, w1).
Proof.
  intros Hlast Hpos Hsoon. unfold _rate_limit, bind, get_self, now.
  rewrite Hlast.
  rewrite (proj2 (Qlt_bool_iff _ _) Hpos), (proj2 (Qlt_bool_iff _ _) Hsoon).
  reflexivity.
Qed.

(** The limiter does not wait: nothing was recorded yet, or the limiter
    is disabled, or the interval has already elapsed. *)
Lemma rate_limit_passes (c : HttpClient) (w : World) :
  (last_request_time c = None
   \/ (min_interval c <= 0)%Q
   \/ exists last, last_request_time c = Some last
                   /\ (min_interval c <= clock w - last)%Q) ->
  _rate_limit env c w =
    (inr tt, set_last_request_time (Some (clock w)) c, w).
Proof.
  intros Hcase. unfold _rate_limit, bind, get_self, now.
  destruct (last_request_time c) as [last|] eqn:Hlast; [|reflexivity].
  destruct (Qlt_bool 0 (min_interval c)) eqn:Hpos; [|reflexivity].
  destruct (Qlt_bool (clock w - last) (min_interval c)) eqn:Hsoon;
    [|reflexivity].
  apply Qlt_bool_iff in Hpos, Hsoon.
  destruct Hcase as [Hnone|[Hoff|(last' & Heq & Hlate)]].
  - discriminate.
  - lra.
  - injection Heq as <-. lra.
Qed.

(** What every run of the limiter guarantees. *)
Lemma rate_limit_run (c : HttpClient) (w : World) :
  exists w1 pre,
    _rate_limit env c w =
      (inr tt, set_last_request_time (Some (clock w1)) c, w1)
    /\ http_calls w1 = http_calls w
    /\ trace w1 = trace w ++ pre
    /\ timeline pre =
         match last_request_time c with
         | Some last =>
             if Qlt_bool 0 (min_interval c)
                && Qlt_bool (clock w - last) (min_interval c)
             then [Nap (min_interval c - (clock w - last))%Q]
             else []
         | None => []
         end
    /\ (0 <= sleep_lag env (naps w) -> clock w <= clock w1)%Q
    /\ (0 <= sleep_lag env (naps w) ->
        forall last, last_request_time c = Some last ->
          last <= clock w -> last + min_interval c <= clock w1)%Q.
Proof.
  destruct (last_request_time c) as [last|] eqn:Hlast.
  - destruct (Qlt_bool 0 (min_interval c)) eqn:Hpos.
    + destruct (Qlt_bool (clock w - last) (min_interval c)) eqn:Hsoon.
      * pose proof (rate_limit_waits c w last Hlast) as Hrun.
        apply Qlt_bool_iff in Hpos, Hsoon.
        specialize (Hrun Hpos Hsoon). cbv zeta in Hrun.
        eexists _, _. split; [exact Hrun|].
        split; [reflexivity|]. split; [simpl; rewrite <- app_assoc; reflexivity|].
        split; [reflexivity|].
        pose proof (Q.le_max_r 0 (min_interval c - (clock w - last))) as Hmax.
        pose proof (Q.le_max_l 0 (min_interval c - (clock w - last))) as Hmax0.
        cbn [clock count_nap_w advance_w emit_w].
        split.
        -- intros Hlag. lra.
        -- intros Hlag last' Heq _. injection Heq as <-. lra.
      * apply Qlt_bool_false in Hsoon.
        exists w, []. rewrite rate_limit_passes by eauto.
        rewrite app_nil_r. repeat split; try reflexivity.
        -- intros _. lra.
        -- intros _ last' Heq _. injection Heq as <-. lra.
    + apply Qlt_bool_false in Hpos.
      exists w, []. rewrite rate_limit_passes by auto.
      rewrite app_nil_r. repeat split; try reflexivity.
      -- intros _. lra.
      -- intros _ last' Heq Hle. injection Heq as <-. lra.
  - exists w, []. rewrite rate_limit_passes by auto.
    rewrite app_nil_r. repeat split; try reflexivity.
    + intros _. lra.
    + intros _ last' Heq. discriminate.
Qed.

Lemma get_session_run (c : HttpClient) (w : World) :
  exists w1 pre,
    _get_session c w = (inr tt, set_session (Some false) c, w1)
    /\ http_calls w1 = http_calls w
    /\ naps w1 = naps w
    /\ clock w1 = clock w
    /\ trace w1 = trace w ++ pre
    /\ timeline pre = [].
Proof.
  unfold _get_session, bind, get_self, emit, modify, ret.
  destruct (session c) as [[|]|] eqn:Hs.
  - exists (emit_w EvNewSession w), [EvNewSession]. repeat split.
  - exists w, []. rewrite app_nil_r. repeat split.
    destruct c; simpl in *; now subst.
  - exists (emit_w EvNewSession w), [EvNewSession]. repeat split.
Qed.

(** [get] is the limiter, the session, then the attempt loop; nothing is
    requested before the loop. *)
Lemma get_before_attempts (url : string) (c : HttpClient) (w : World) :
  exists w0 pre,
    let c0 := set_session (Some false)
                (set_last_request_time (Some (clock w0)) c) in
    (_rate_limit env ;; _get_session) c w = (inr tt, c0, w0)
    /\ get env url c w = attempts env url c0 w0
    /\ http_calls w0 = http_calls w
    /\ trace w0 = trace w ++ pre
    /\ timeline pre =
         match last_request_time c with
         | Some last =>
             if Qlt_bool 0 (min_interval c)
                && Qlt_bool (clock w - last) (min_interval c)
             then [Nap (min_interval c - (clock w - last))%Q]
             else []
         | None => []
         end
    /\ (0 <= sleep_lag env (naps w) -> clock w <= clock w0)%Q
    /\ (0 <= sleep_lag env (naps w) ->
        forall last, last_request_time c = Some last ->
          last <= clock w -> last + min_interval c <= clock w0)%Q.
Proof.
  destruct (rate_limit_run c w) as (w1 & pre1 & Hrl & Hn1 & Htr1 & Htl1 & Hck & Hgap).
  destruct (get_session_run (set_last_request_time (Some (clock w1)) c) w1)
    as (w0 & pre0 & Hgs & Hn0 & _ & Hc0 & Htr0 & Htl0).
  exists w0, (pre1 ++ pre0). cbv zeta. rewrite Hc0.
  split; [|split; [|split; [|split; [|split; [|split]]]]].
  - unfold bind. now rewrite Hrl, Hgs.
  - unfold get, bind. now rewrite Hrl, Hgs.
  - congruence.
  - rewrite Htr0, Htr1. now rewrite app_assoc.
  - unfold timeline in *. now rewrite pick_app, Htl1, Htl0, app_nil_r.
  - exact Hck.
  - exact Hgap.
Qed.

End RateLimit.

(* ================================================================= *)
(** ** HttpClient.get: retries, exhaustion and client errors *)

Section Get.
Variable env : Env.
Variable url : string.

(** C1: when every attempt is answered with a status of 500 or more,
    [get] with [max_retries = k] makes exactly [k] HTTP attempts (none
    before the loop), suspends for 1, 2, 4, ..., 2^(k-2) between
    consecutive attempts and for nothing after the last, and raises the
    [ClientError] that carries the last status; with [k = 0] (or less) the
    loop body never runs, no attempt is made and the [ClientError] raised
    is the one after the loop. *)
Theorem get_exhausts_retries (c : HttpClient) (w : World) :
  (forall i, (i < Z.to_nat (max_retries c))%nat ->
     server_error (http_reply env (http_calls w + i))) ->
  exists w0 w' evs,
    let k := max_retries c in
    let c0 := set_session (Some false)
                (set_last_request_time (Some (clock w0)) c) in
    (_rate_limit env ;; _get_session) c w = (inr tt, c0, w0)
    /\ http_gets (trace w0) = http_gets (trace w)
    /\ get env url c w =
         (inl (mkExn ClientError
                 (if 0 <? k
                  then ServerErrorAfter k
                         (status_of
                            (http_reply env (http_calls w + Z.to_nat k - 1)))
                  else MaxRetriesExceeded)), c0, w')
    /\ trace w' = trace w0 ++ evs
    /\ timeline evs = exhausted_schedule url k
    /\ http_gets evs = repeat url (Z.to_nat k)
    /\ sleeps evs = map (fun i => inject_Z (2 ^ i)) (py_range 0 (k - 1))
    /\ (k <= 0 -> evs = []).
Proof.
  intros Hreplies.
  destruct (get_before_attempts env url c w)
    as (w0 & pre & Hpre & Hget & Hn0 & Htr0 & Htl0 & _ & _).
  cbv zeta in Hpre, Hget.
  set (c0 := set_session (Some false)
               (set_last_request_time (Some (clock w0)) c)) in *.
  destruct (attempts_server_errors env url c0 w0)
    as (w' & evs & Hrun & Hn' & Htr' & Htl').
  { rewrite Hn0. exact Hreplies. }
  change (max_retries c0) with (max_retries c) in *.
  exists w0, w', evs. cbv zeta. fold c0.
  split; [exact Hpre|]. split.
  { rewrite Htr0. unfold http_gets. rewrite pick_app.
    fold (http_gets pre). rewrite (http_gets_timeline pre), Htl0.
    destruct (last_request_time c); [destruct (_ && _)|];
      simpl; now rewrite app_nil_r. }
  split; [rewrite Hget, Hrun, Hn0; reflexivity|].
  split; [exact Htr'|]. split; [exact Htl'|].
  unfold exhausted_schedule in Htl'.
  rewrite http_gets_timeline, sleeps_timeline, Htl'.
  destruct (Z.ltb_spec 0 (max_retries c)) as [Hpos|Hnone].
  - replace (max_retries c - 1)
      with (0 + Z.of_nat (Z.to_nat (max_retries c - 1))) by lia.
    rewrite !pick_app, attempts_of_retried, naps_of_retried.
    simpl. rewrite app_nil_r. split; [|split; [reflexivity|lia]].
    replace (Z.to_nat (max_retries c))
      with (Z.to_nat (max_retries c - 1) + 1)%nat by lia.
    now rewrite repeat_app.
  - replace (Z.to_nat (max_retries c)) with 0%nat by lia.
    rewrite py_range_nil by lia. split; [reflexivity|].
    split; [reflexivity|]. intros _.
    destruct evs as [|e evs]; [reflexivity|].
    exfalso. clear - Hrun Hnone Htr'.
    unfold attempts, bind, get_self in Hrun.
    rewrite py_range_nil in Hrun by (change (max_retries c0) with (max_retries c); lia).
    simpl in Hrun. injection Hrun as <-.
    apply (f_equal (@List.length Event)) in Htr'.
    rewrite length_app in Htr'. simpl in Htr'. lia.
Qed.

(** C5: a status in [400, 500) ends [get] at once.  Whatever number [j]
    of retried attempts came before it, the attempt answered with the 4xx
    status is the last event of the call: [ClientResponseError] is raised
    with that status, no further attempt and no suspension follow, however
    much of the budget is left; when it is the first attempt the call makes
    exactly one attempt and no backoff suspension at all. *)
Theorem get_client_error_not_retried (c : HttpClient) (w : World) (j : nat) :
  Z.of_nat j < max_retries c ->
  (forall i, (i < j)%nat -> transient (http_reply env (http_calls w + i))) ->
  client_error (http_reply env (http_calls w + j)) ->
  exists w0 w' evs,
    let c0 := set_session (Some false)
                (set_last_request_time (Some (clock w0)) c) in
    (_rate_limit env ;; _get_session) c w = (inr tt, c0, w0)
    /\ get env url c w =
         (inl (mkExn ClientResponseError
                 (ClientErrorFor
                    (status_of (http_reply env (http_calls w + j))) url)),
          c0, w')
    /\ trace w' = trace w0 ++ evs
    /\ timeline evs = retried_attempts url 0 (Z.of_nat j) ++ [Attempt url]
    /\ http_gets evs = repeat url (j + 1)
    /\ http_calls w' = (http_calls w + j + 1)%nat
    /\ (j = 0%nat -> timeline evs = [Attempt url] /\ sleeps evs = []).
Proof.
  intros Hbudget Hbefore Hreply.
  destruct (get_before_attempts env url c w)
    as (w0 & pre & Hpre & Hget & Hn0 & Htr0 & Htl0 & _ & _).
  cbv zeta in Hpre, Hget.
  set (c0 := set_session (Some false)
               (set_last_request_time (Some (clock w0)) c)) in *.
  destruct (for_each_retried env url j 0 c0 w0)
    as (w1 & evs1 & Hrun1 & Hn1 & Htr1 & Htl1).
  { lia. }
  { change (max_retries c0) with (max_retries c). lia. }
  { intros i Hi. rewrite Hn0. now apply Hbefore. }
  destruct (attempt_body_4xx env url (0 + Z.of_nat j) c0 w1)
    as (w' & evs & Hlast & Hn' & Htr' & Htl').
  { now rewrite Hn1, Hn0. }
  exists w0, w', (evs1 ++ evs). cbv zeta. fold c0.
  assert (Htimeline :
    timeline (evs1 ++ evs) = retried_attempts url 0 (Z.of_nat j) ++ [Attempt url]).
  { unfold timeline in *. now rewrite pick_app, Htl1, Htl'. }
  split; [exact Hpre|]. split.
  { rewrite Hget. unfold attempts, bind, get_self.
    unfold bind in Hrun1. rewrite Hrun1.
    rewrite (py_range_cons (0 + Z.of_nat j)) by
      (change (max_retries c0) with (max_retries c); lia).
    cbn [for_each]. unfold bind. rewrite Hlast, Hn1, Hn0. reflexivity. }
  split; [rewrite Htr', Htr1; now rewrite app_assoc|].
  split; [exact Htimeline|]. split.
  { rewrite http_gets_timeline, Htimeline, pick_app.
    replace (Z.of_nat j) with (0 + Z.of_nat j) by lia.
    rewrite attempts_of_retried. now rewrite repeat_app. }
  split; [lia|].
  intros ->. rewrite sleeps_timeline, Htimeline.
  rewrite retried_attempts_nil by reflexivity. split; reflexivity.
Qed.

End Get.

Lemma get_exhausts_retries_witness :
  let env := sample_env (fun _ => unavailable) (fun _ => inr 0%Q)
               (fun _ => inr []) in
  let c := HttpClient_init 30 3 2 in
  (forall i, (i < Z.to_nat (max_retries c))%nat ->
     server_error (http_reply env (http_calls world0 + i)))
  /\ exists w',
       fst (get env "u" c world0) =
         (inl (mkExn ClientError (ServerErrorAfter 3 503)),
          set_session (Some false) (set_last_request_time (Some 0%Q) c))
       /\ get env "u" c world0 = (fst (get env "u" c world0), w')
       /\ timeline (trace w') =
            [Attempt "u"; Nap 1; Attempt "u"; Nap 2; Attempt "u"].
Proof.
  cbv zeta.
  assert (Hall : forall i : nat,
    (i < Z.to_nat (max_retries (HttpClient_init 30 3 2)))%nat ->
    server_error
      (http_reply
         (sample_env (fun _ => unavailable) (fun _ => inr 0%Q)
            (fun _ => inr []))
         (http_calls world0 + i))).
  { intros i _. simpl. lia. }
  split; [exact Hall|].
  destruct (get_exhausts_retries _ "u" _ world0 Hall)
    as (w0 & w' & evs & Hpre & _ & Hget & Htr & Htl & _).
  cbv zeta in Hpre, Hget, Htl.
  vm_compute in Hpre. injection Hpre as Hw0. subst w0.
  exists w'. rewrite Hget. split; [reflexivity|]. split; [reflexivity|].
  rewrite Htr. unfold timeline in *. rewrite pick_app, Htl. reflexivity.
Defined.

Lemma get_client_error_not_retried_witness :
  let env := sample_env (fun n => if Nat.eqb n 0 then unavailable else not_found)
               (fun _ => inr 0%Q) (fun _ => inr []) in
  let c := HttpClient_init 30 5 2 in
  (Z.of_nat 1 < max_retries c
   /\ (forall i, (i < 1)%nat ->
         transient (http_reply env (http_calls world0 + i)))
   /\ client_error (http_reply env (http_calls world0 + 1)))
  /\ exists w',
       get env "u" c world0 =
         (inl (mkExn ClientResponseError (ClientErrorFor 404 "u")),
          set_session (Some false) (set_last_request_time (Some 0%Q) c), w')
       /\ timeline (trace w') = [Attempt "u"; Nap 1; Attempt "u"].
Proof.
  cbv zeta.
  set (env := sample_env
                (fun n => if Nat.eqb n 0 then unavailable else not_found)
                (fun _ => inr 0%Q) (fun _ => inr [])).
  assert (Hbudget : Z.of_nat 1 < max_retries (HttpClient_init 30 5 2))
    by (simpl; lia).
  assert (Hbefore : forall i, (i < 1)%nat ->
            transient (http_reply env (http_calls world0 + i))).
  { intros i Hi. assert (i = 0%nat) as -> by lia. simpl. lia. }
  assert (Hreply : client_error (http_reply env (http_calls world0 + 1)))
    by (simpl; lia).
  split; [auto|].
  destruct (get_client_error_not_retried env "u" _ world0 1 Hbudget Hbefore Hreply)
    as (w0 & w' & evs & Hpre & Hget & Htr & Htl & _).
  cbv zeta in Hpre, Hget.
  vm_compute in Hpre. injection Hpre as Hw0. subst w0.
  exists w'. rewrite Hget. split; [reflexivity|].
  rewrite Htr. unfold timeline in *. rewrite pick_app, Htl. reflexivity.
Defined.

Lemma window_invariant_witness :
  0 <= 3
  /\ window_ok (MovingAverage_init 3 [1%Q])
  /\ len (values (add_values [1; 2; 3; 4; 5]%Q (MovingAverage_init 3 [1%Q]))) <= 3.
Proof.
  assert (Hn : 0 <= 3) by lia.
  destruct (window_invariant 3 [1%Q] Hn) as (Hinit & _ & Hadd & _).
  split; [exact Hn|]. split; [exact Hinit|]. apply Hadd.
Defined.

(* ================================================================= *)
(** ** HttpClient: spacing of the recorded request instants *)

Section Spacing.
Variable env : Env.
Hypothesis latency_nonneg : forall n, (0 <= http_latency env n)%Q.
Hypothesis lag_nonneg : forall n, (0 <= sleep_lag env n)%Q.

(** Whatever the reply, an attempt leaves the client as it was and the
    clock does not go back. *)
Lemma attempt_body_frame (url : string) (attempt : Z) (c : HttpClient)
  (w : World) :
  exists r w',
    attempt_body env url attempt c w = (r, c, w') /\ (clock w <= clock w')%Q.
Proof.
  pose proof (latency_nonneg (http_calls w)) as Hlat.
  pose proof (lag_nonneg (naps w)) as Hlag.
  pose proof (Q.le_max_l 0 (py_pow2 attempt)) as Hmax.
  unfold attempt_body, response_json, try_except, bind, get_self, log, emit,
    session_get, sleep, raise, continue, return_, ret;
  cbn [http_calls naps emit_w advance_w count_http_w count_nap_w].
  destruct (http_reply env (http_calls w)) as [status [e|data]|e];
    try destruct (500 <=? status); try destruct (400 <=? status);
    try destruct (attempt <? max_retries c - 1);
    cbn [is_client_response_error is_client_or_timeout_error exn_class];
    try destruct (is_client_response_error e);
    try destruct (is_client_or_timeout_error e);
    try destruct (attempt <? max_retries c - 1);
    eexists _, _; (split; [reflexivity|]);
    cbn [clock naps emit_w advance_w count_http_w count_nap_w]; lra.
Qed.

Lemma for_each_frame (url : string) (l : list Z) :
  forall (c : HttpClient) (w : World),
  exists r w',
    for_each l (attempt_body env url) c w = (r, c, w')
    /\ (clock w <= clock w')%Q.
Proof.
  induction l as [|a l IH]; intros c w.
  - exists (inr None), w. split; [reflexivity|lra].
  - destruct (attempt_body_frame url a c w) as (r1 & w1 & Hrun & Hck).
    cbn [for_each]. unfold bind. rewrite Hrun.
    destruct r1 as [e|[data|]].
    + exists (inl e), w1. auto.
    + exists (inr (Some data)), w1. auto.
    + destruct (IH c w1) as (r & w' & Hrest & Hck').
      exists r, w'. split; [exact Hrest|lra].
Qed.

(** [get], whatever the replies: the instant recorded is the clock after
    the limiter, not before the call and not after its end, and at least
    the interval after the instant recorded before. *)
Lemma get_frame (url : string) (c : HttpClient) (w : World) :
  exists r w0 w',
    get env url c w =
      (r, set_session (Some false)
            (set_last_request_time (Some (clock w0)) c), w')
    /\ (clock w <= clock w0)%Q
    /\ (clock w0 <= clock w')%Q
    /\ (forall last, last_request_time c = Some last ->
          last <= clock w -> last + min_interval c <= clock w0)%Q.
Proof.
  destruct (get_before_attempts env url c w)
    as (w0 & pre & _ & Hget & _ & _ & _ & Hck & Hgap).
  cbv zeta in Hget.
  set (c0 := set_session (Some false)
               (set_last_request_time (Some (clock w0)) c)) in *.
  destruct (for_each_frame url (py_range 0 (max_retries c0)) c0 w0)
    as (r & w' & Hrun & Hck').
  exists (match r with
          | inl e => inl e
          | inr (Some data) => inr data
          | inr None => inl (mkExn ClientError MaxRetriesExceeded)
          end), w0, w'.
  split; [|split; [auto|split; [exact Hck'|auto]]].
  rewrite Hget. unfold attempts, bind, get_self. rewrite Hrun.
  destruct r as [e|[data|]]; reflexivity.
Qed.

Lemma get_each_spaced (calls : list (Q * string)) :
  forall (c : HttpClient) (w : World),
    Forall (fun call => 0 <= fst call)%Q calls ->
    (forall last, last_request_time c = Some last -> last <= clock w)%Q ->
    spaced (min_interval c) (last_request_time c)
      (fst (fst (get_each env calls c w)))
    /\ List.length (fst (fst (get_each env calls c w))) = List.length calls.
Proof.
  induction calls as [|[idle url] calls IH]; intros c w Hidle Hinv.
  - simpl. auto.
  - inversion Hidle as [|? ? Hi Hrest]; subst. simpl in Hi.
    cbn [get_each].
    destruct (get_frame url c (advance_w idle w))
      as (r & w0 & w1 & Hget & Hck0 & Hck1 & Hgap).
    rewrite Hget. cbn [clock advance_w] in Hck0, Hgap.
    set (c1 := set_session (Some false)
                 (set_last_request_time (Some (clock w0)) c)) in *.
    destruct (IH c1 w1 Hrest) as [Hsp Hlen].
    { intros last Hlast. injection Hlast as <-. exact Hck1. }
    destruct (get_each env calls c1 w1) as [[stamps c2] w2].
    cbn [fst snd] in *. cbn [spaced last_request_time c1 List.length].
    change (last_request_time c1) with (Some (clock w0)) in *.
    change (min_interval c1) with (min_interval c) in Hsp.
    split; [|now rewrite Hlen]. split; [|exact Hsp].
    destruct (last_request_time c) as [last|] eqn:Hlast; [|exact I].
    apply Hgap; [reflexivity|]. specialize (Hinv last eq_refl). lra.
Qed.

End Spacing.

Lemma spaced_nth (d : Q) (stamps : list (option Q)) :
  forall (prev : option Q) (i : nat) (t1 t2 : Q),
    spaced d prev stamps ->
    nth_error stamps i = Some (Some t1) ->
    nth_error stamps (S i) = Some (Some t2) ->
    (t1 + d <= t2)%Q.
Proof.
  induction stamps as [|s stamps IH]; intros prev i t1 t2 Hsp H1 H2.
  - destruct i; discriminate.
  - destruct s as [t|]; [|contradiction]. destruct Hsp as [_ Hsp].
    destruct i as [|i].
    + injection H1 as ->. destruct stamps as [|[t'|] stamps];
        [discriminate| |contradiction].
      injection H2 as ->. exact (proj1 Hsp).
    + exact (IH (Some t) i t1 t2 Hsp H1 H2).
Qed.

Lemma spaced_all_some (d : Q) (stamps : list (option Q)) :
  forall (prev : option Q) (i : nat),
    spaced d prev stamps ->
    (i < List.length stamps)%nat ->
    exists t, nth_error stamps i = Some (Some t).
Proof.
  induction stamps as [|s stamps IH]; intros prev i Hsp Hi.
  - simpl in Hi. lia.
  - destruct s as [t|]; [|contradiction]. destruct Hsp as [_ Hsp].
    destruct i as [|i]; [now exists t|].
    apply (IH (Some t)); [exact Hsp|simpl in Hi; lia].
Qed.

(** C6: one client built with [requests_per_second], used for any
    sequence of [get] calls, on a clock that does not go back and with
    suspensions that last at least as long as asked.  The interval [d] is
    [1 / requests_per_second], or 0 when that is not positive; every call
    records an instant; two instants recorded one after the other are at
    least [d] apart; the first call of the client does not wait; and in
    general the limiter, given the instant [last] recorded before, suspends
    for [d - elapsed] when [elapsed = now - last < d] and not at all
    otherwise, and in both cases records the clock it then reads. *)
Theorem rate_limiter_spacing (env : Env) (timeout k : Z) (rps : Q)
  (calls : list (Q * string)) (w : World) :
  (forall n, 0 <= http_latency env n)%Q ->
  (forall n, 0 <= sleep_lag env n)%Q ->
  Forall (fun call => 0 <= fst call)%Q calls ->
  let c := HttpClient_init timeout k rps in
  let d := min_interval c in
  let stamps := fst (fst (get_each env calls c w)) in
  (((0 < rps)%Q -> d = (1 / rps)%Q) /\ ((rps <= 0)%Q -> d = 0%Q))
  /\ (List.length stamps = List.length calls
      /\ forall i, (i < List.length calls)%nat ->
           exists t, nth_error stamps i = Some (Some t))
  /\ (forall i t1 t2,
        nth_error stamps i = Some (Some t1) ->
        nth_error stamps (S i) = Some (Some t2) ->
        (t1 + d <= t2)%Q)
  /\ _rate_limit env c w =
       (inr tt, set_last_request_time (Some (clock w)) c, w)
  /\ (forall (c' : HttpClient) (w' : World) (last : Q),
        last_request_time c' = Some last ->
        (last <= clock w')%Q ->
        let elapsed := (clock w' - last)%Q in
        ((elapsed < min_interval c')%Q ->
           let sleep_time := (min_interval c' - elapsed)%Q in
           exists w1,
             _rate_limit env c' w' =
               (inr tt, set_last_request_time (Some (clock w1)) c', w1)
             /\ trace w1 =
                  trace w' ++ [EvLog DEBUG (RateLimiting sleep_time);
                               EvSleep sleep_time]
             /\ (clock w' + sleep_time <= clock w1)%Q)
        /\ ((min_interval c' <= elapsed)%Q ->
              _rate_limit env c' w' =
                (inr tt, set_last_request_time (Some (clock w')) c', w'))).
Proof.
  intros Hlat Hlag Hidle c d stamps.
  split; [|split; [|split; [|split]]].
  - unfold d, c. cbn [min_interval HttpClient_init]. split.
    + intros Hpos. now rewrite (proj2 (Qlt_bool_iff 0 rps) Hpos).
    + intros Hoff. now rewrite (proj2 (Qlt_bool_false 0 rps) Hoff).
  - destruct (get_each_spaced env Hlat Hlag calls c w Hidle) as [Hsp Hlen].
    { intros last Hlast. discriminate. }
    split; [exact Hlen|]. intros i Hi.
    apply (spaced_all_some d stamps (last_request_time c) i Hsp).
    unfold stamps. now rewrite Hlen.
  - destruct (get_each_spaced env Hlat Hlag calls c w Hidle) as [Hsp _].
    { intros last Hlast. discriminate. }
    intros i t1 t2. apply (spaced_nth d stamps (last_request_time c) i t1 t2 Hsp).
  - apply rate_limit_passes. now left.
  - intros c' w' last Hlast Hmono elapsed. split.
    + intros Hsoon sleep_time.
      assert (Hpos : (0 < min_interval c')%Q) by (unfold elapsed in Hsoon; lra).
      pose proof (rate_limit_waits env c' w' last Hlast Hpos Hsoon) as Hrun.
      cbv zeta in Hrun. eexists. split; [exact Hrun|].
      split; [simpl; now rewrite <- app_assoc|].
      cbn [clock count_nap_w advance_w emit_w].
      pose proof (Q.le_max_r 0 (min_interval c' - (clock w' - last))) as Hmax.
      pose proof (Hlag (naps w')) as Hl. unfold sleep_time, elapsed. lra.
    + intros Hlate. apply rate_limit_passes. right. right.
      exists last. auto.
Qed.

Lemma rate_limiter_spacing_witness :
  let env := sample_env (fun _ => not_found) (fun _ => inr 0%Q)
               (fun _ => inr []) in
  let calls := [(0%Q, "a"%string); (0%Q, "b"%string); (1%Q, "c"%string)] in
  ((forall n, 0 <= http_latency env n)%Q
   /\ (forall n, 0 <= sleep_lag env n)%Q
   /\ Forall (fun call => 0 <= fst call)%Q calls)
  /\ forall i t1 t2,
       nth_error
         (fst (fst (get_each env calls (HttpClient_init 30 5 2) world0))) i =
         Some (Some t1) ->
       nth_error
         (fst (fst (get_each env calls (HttpClient_init 30 5 2) world0))) (S i) =
         Some (Some t2) ->
       (t1 + min_interval (HttpClient_init 30 5 2) <= t2)%Q.
Proof.
  cbv zeta.
  assert (Hlat : forall n,
    (0 <= http_latency (sample_env (fun _ => not_found) (fun _ => inr 0%Q)
                          (fun _ => inr [])) n)%Q)
    by (intros n; simpl; lra).
  assert (Hlag : forall n,
    (0 <= sleep_lag (sample_env (fun _ => not_found) (fun _ => inr 0%Q)
                       (fun _ => inr [])) n)%Q)
    by (intros n; simpl; lra).
  assert (Hidle : Forall (fun call : Q * string => (0 <= fst call)%Q)
                    [(0%Q, "a"%string); (0%Q, "b"%string); (1%Q, "c"%string)])
    by (repeat constructor; simpl; lra).
  split; [auto|].
  exact (proj1 (proj2 (proj2
    (rate_limiter_spacing _ 30 5 2 _ world0 Hlat Hlag Hidle)))).
Defined.

(* ================================================================= *)
(** ** The paged crawls *)

Section Crawl.
Variable env : Env.

Ltac run_page :=
  unfold html_page, json_page, try_except, bind, get_self, log, print, emit,
    get_listings_html, get_listings, sleep, ret;
  cbn [naps emit_w advance_w count_nap_w batch_calls].

(** One page of the HTML crawl. *)
Lemma html_page_run (page : Z) (acc : list Listing) (s : Service) (w : World) :
  exists w' evs,
    html_page env page acc s w =
      (inr (acc ++ page_records (page_html env page)), s, w')
    /\ batch_calls w' = batch_calls w
    /\ trace w' = trace w ++ evs
    /\ crawl_steps evs =
         Fetch page ::
         (if page_failed (page_html env page) then []
          else [Delay (Config.html_scraping_delay (config s))])
    /\ pages_logged_failed evs =
         (if page_failed (page_html env page) then [page] else [])
    /\ stored evs = [].
Proof.
  run_page. destruct (page_html env page) as [e|listings]; cbn [page_records page_failed].
  - rewrite app_nil_r. eexists _, _. split; [reflexivity|].
    split; [reflexivity|].
    split; [simpl; rewrite <- !app_assoc; reflexivity|]. repeat split.
  - eexists _, _. split; [reflexivity|]. split; [reflexivity|].
    split; [simpl; rewrite <- !app_assoc; reflexivity|]. repeat split.
Qed.

(** One page of the JSON crawl. *)
Lemma json_page_run (per_page page : Z) (acc : list Listing) (s : Service)
  (w : World) :
  exists w' evs,
    json_page env per_page page acc s w =
      (inr (acc ++ page_records (page_json env page per_page)), s, w')
    /\ batch_calls w' = batch_calls w
    /\ trace w' = trace w ++ evs
    /\ crawl_steps evs =
         Fetch page ::
         (if page_failed (page_json env page per_page) then []
          else [Delay (Config.json_api_delay (config s))])
    /\ pages_logged_failed evs =
         (if page_failed (page_json env page per_page) then [page] else [])
    /\ stored evs = [].
Proof.
  run_page. destruct (page_json env page per_page) as [e|listings];
    cbn [page_records page_failed].
  - rewrite app_nil_r. eexists _, _. split; [reflexivity|].
    split; [reflexivity|].
    split; [simpl; rewrite <- !app_assoc; reflexivity|]. repeat split.
  - eexists _, _. split; [reflexivity|]. split; [reflexivity|].
    split; [simpl; rewrite <- !app_assoc; reflexivity|]. repeat split.
Qed.

(** A page loop whose body behaves as the two above: every page is
    fetched in turn, whatever happened to the pages before it. *)
Lemma page_loop_run (fetch : Z -> Exn + list Listing) (delay : Q)
  (body : Z -> list Listing -> M Service (list Listing)) (s : Service) :
  (forall page acc w,
     exists w' evs,
       body page acc s w = (inr (acc ++ page_records (fetch page)), s, w')
       /\ batch_calls w' = batch_calls w
       /\ trace w' = trace w ++ evs
       /\ crawl_steps evs =
            Fetch page :: (if page_failed (fetch page) then [] else [Delay delay])
       /\ pages_logged_failed evs =
            (if page_failed (fetch page) then [page] else [])
       /\ stored evs = []) ->
  forall (pages : list Z) (acc : list Listing) (w : World),
    exists w' evs,
      for_fold pages acc body s w = (inr (acc ++ combined fetch pages), s, w')
      /\ batch_calls w' = batch_calls w
      /\ trace w' = trace w ++ evs
      /\ crawl_steps evs = steps_of_pages fetch delay pages
      /\ pages_fetched evs = pages
      /\ pages_logged_failed evs =
           filter (fun page => page_failed (fetch page)) pages
      /\ stored evs = [].
Proof.
  intros Hbody pages. induction pages as [|page pages IH]; intros acc w.
  - exists w, []. simpl. rewrite !app_nil_r. repeat split.
  - destruct (Hbody page acc w) as (w1 & evs1 & Hrun & Hb & Htr & Hst & Hlg & Hso).
    destruct (IH (acc ++ page_records (fetch page)) w1)
      as (w' & evs & Hrest & Hb' & Htr' & Hst' & Hpg' & Hlg' & Hso').
    exists w', (evs1 ++ evs). cbn [for_fold]. unfold bind. rewrite Hrun, Hrest.
    unfold combined, steps_of_pages in *. cbn [flat_map filter].
    split; [now rewrite <- app_assoc|]. split; [congruence|].
    split; [rewrite Htr', Htr; now rewrite app_assoc|].
    unfold crawl_steps, pages_fetched, pages_logged_failed, stored in *.
    rewrite !pick_app, Hst, Hst', Hlg, Hlg', Hso, Hso', Hpg'.
    split; [reflexivity|]. split.
    { f_equal.
      assert (Hpage : pick page_of evs1 =
                      pick (fun st => match st with Fetch p => Some p | Delay _ => None end)
                        (pick crawl_step_of evs1)).
      { clear. induction evs1 as [|e evs1 IH]; [reflexivity|].
        destruct e; simpl; rewrite ?IH; reflexivity. }
      rewrite Hpage, Hst. destruct (page_failed (fetch page)); reflexivity. }
    split; [|reflexivity].
    destruct (page_failed (fetch page)); reflexivity.
Qed.

End Crawl.

Lemma combined_all_failed (fetch : Z -> Exn + list Listing) (pages : list Z) :
  (forall page, In page pages -> page_failed (fetch page) = true) ->
  combined fetch pages = [].
Proof.
  induction pages as [|page pages IH]; intros Hall; [reflexivity|].
  unfold combined in *. cbn [flat_map]. rewrite IH.
  - specialize (Hall page (or_introl eq_refl)).
    destruct (fetch page); [reflexivity|discriminate].
  - intros p Hp. apply Hall. now right.
Qed.

Lemma steps_of_pages_app (fetch : Z -> Exn + list Listing) (delay : Q)
  (l1 l2 : list Z) :
  steps_of_pages fetch delay (l1 ++ l2) =
  steps_of_pages fetch delay l1 ++ steps_of_pages fetch delay l2.
Proof. unfold steps_of_pages. apply flat_map_app. Qed.

Section CrawlRuns.
Variable env : Env.

(** The whole HTML crawl. *)
Lemma crawl_html_run (pages : Z) (s : Service) (w : World) :
  exists w' evs,
    let range := py_range 1 (pages + 1) in
    let batch := combined (page_html env) range in
    crawl_coinmarketcap_html env pages s w =
      (match store_batch env (batch_calls w) with
       | None => inr batch
       | Some e => inl e
       end, s, w')
    /\ trace w' = trace w ++ evs
    /\ crawl_steps evs =
         steps_of_pages (page_html env)
           (Config.html_scraping_delay (config s)) range
    /\ pages_fetched evs = range
    /\ pages_logged_failed evs =
         filter (fun page => page_failed (page_html env page)) range
    /\ stored evs = [batch].
Proof.
  destruct (page_loop_run (page_html env)
              (Config.html_scraping_delay (config s)) (html_page env) s
              (fun page acc w => html_page_run env page acc s w)
              (py_range 1 (pages + 1)) []
              (emit_w (EvPrint (ScrapingHtmlRange pages))
                 (emit_w (EvLog INFO (StartingHtml pages)) w)))
    as (w1 & evs1 & Hloop & Hb & Htr & Hst & Hpg & Hlg & Hso).
  cbn [app] in Hloop. cbn [batch_calls emit_w] in Hb. cbn [trace emit_w] in Htr.
  unfold crawl_coinmarketcap_html, bind, log, print, emit, store_listings, ret.
  rewrite Hloop, Hb. cbv zeta.
  unfold crawl_steps, pages_fetched, pages_logged_failed, stored in *.
  destruct (store_batch env (batch_calls w)) as [e|].
  - eexists _, _. split; [reflexivity|].
    split; [cbn [trace emit_w count_batch_w]; rewrite Htr, <- !app_assoc;
            reflexivity|].
    cbn [app]. cbn [pick crawl_step_of page_of page_error_of stored_of].
    rewrite !pick_app, Hst, Hpg, Hlg, Hso. cbn.
    rewrite !app_nil_r. repeat split.
  - eexists _, _. split; [reflexivity|].
    split; [cbn [trace emit_w count_batch_w]; rewrite Htr, <- !app_assoc;
            reflexivity|].
    cbn [app]. cbn [pick crawl_step_of page_of page_error_of stored_of].
    rewrite !pick_app, Hst, Hpg, Hlg, Hso. cbn.
    rewrite !app_nil_r. repeat split.
Qed.

(** The whole JSON crawl. *)
Lemma crawl_json_run (pages per_page : Z) (s : Service) (w : World) :
  exists w' evs,
    let range := py_range 1 (pages + 1) in
    let fetch := fun page => page_json env page per_page in
    let batch := combined fetch range in
    crawl_coinmarketcap_json env pages per_page s w =
      (match store_batch env (batch_calls w) with
       | None => inr batch
       | Some e => inl e
       end, s, w')
    /\ trace w' = trace w ++ evs
    /\ crawl_steps evs =
         steps_of_pages fetch (Config.json_api_delay (config s)) range
    /\ pages_fetched evs = range
    /\ pages_logged_failed evs =
         filter (fun page => page_failed (fetch page)) range
    /\ stored evs = [batch].
Proof.
  destruct (page_loop_run (fun page => page_json env page per_page)
              (Config.json_api_delay (config s)) (json_page env per_page) s
              (fun page acc w => json_page_run env per_page page acc s w)
              (py_range 1 (pages + 1)) []
              (emit_w (EvPrint (ScrapingJsonRange pages))
                 (emit_w (EvLog INFO (StartingJson pages)) w)))
    as (w1 & evs1 & Hloop & Hb & Htr & Hst & Hpg & Hlg & Hso).
  cbn [app] in Hloop. cbn [batch_calls emit_w] in Hb. cbn [trace emit_w] in Htr.
  unfold crawl_coinmarketcap_json, bind, log, print, emit, store_listings, ret.
  rewrite Hloop, Hb. cbv zeta.
  unfold crawl_steps, pages_fetched, pages_logged_failed, stored in *.
  destruct (store_batch env (batch_calls w)) as [e|].
  - eexists _, _. split; [reflexivity|].
    split; [cbn [trace emit_w count_batch_w]; rewrite Htr, <- !app_assoc;
            reflexivity|].
    cbn [app]. cbn [pick crawl_step_of page_of page_error_of stored_of].
    rewrite !pick_app, Hst, Hpg, Hlg, Hso. cbn.
    rewrite !app_nil_r. repeat split.
  - eexists _, _. split; [reflexivity|].
    split; [cbn [trace emit_w count_batch_w]; rewrite Htr, <- !app_assoc;
            reflexivity|].
    cbn [app]. cbn [pick crawl_step_of page_of page_error_of stored_of].
    rewrite !pick_app, Hst, Hpg, Hlg, Hso. cbn.
    rewrite !app_nil_r. repeat split.
Qed.

End CrawlRuns.

(** C3: in both crawls every page of [1..pages] is fetched, in order,
    whatever happened to the pages before; the pages whose fetch raised
    are exactly those logged as failed; [store_listings] is called exactly
    once, with the records of the pages that were fetched, concatenated in
    page order (no record when every page failed); and that list is what
    the crawl returns (when the storage call raises, its exception is what
    the crawl raises after that one call). *)
Theorem crawl_best_effort (env : Env) (pages per_page : Z) (s : Service)
  (w : World) :
  let range := py_range 1 (pages + 1) in
  (exists w' evs,
     let batch := combined (page_html env) range in
     crawl_coinmarketcap_html env pages s w =
       (match store_batch env (batch_calls w) with
        | None => inr batch
        | Some e => inl e
        end, s, w')
     /\ trace w' = trace w ++ evs
     /\ pages_fetched evs = range
     /\ pages_logged_failed evs =
          filter (fun page => page_failed (page_html env page)) range
     /\ stored evs = [batch]
     /\ ((forall page, In page range ->
            page_failed (page_html env page) = true) -> batch = []))
  /\ (exists w' evs,
        let fetch := fun page => page_json env page per_page in
        let batch := combined fetch range in
        crawl_coinmarketcap_json env pages per_page s w =
          (match store_batch env (batch_calls w) with
           | None => inr batch
           | Some e => inl e
           end, s, w')
        /\ trace w' = trace w ++ evs
        /\ pages_fetched evs = range
        /\ pages_logged_failed evs =
             filter (fun page => page_failed (fetch page)) range
        /\ stored evs = [batch]
        /\ ((forall page, In page range -> page_failed (fetch page) = true) ->
            batch = [])).
Proof.
  intros range. split.
  - destruct (crawl_html_run env pages s w)
      as (w' & evs & Hrun & Htr & _ & Hpg & Hlg & Hso).
    exists w', evs. cbv zeta in *. repeat split; try assumption.
    apply combined_all_failed.
  - destruct (crawl_json_run env pages per_page s w)
      as (w' & evs & Hrun & Htr & _ & Hpg & Hlg & Hso).
    exists w', evs. cbv zeta in *. repeat split; try assumption.
    apply (combined_all_failed (fun page => page_json env page per_page)).
Qed.

(** C9, the claim as stated fails.  With two pages that are both
    fetched, the HTML crawl suspends after page 2, the last one; and when
    page 1 fails there is no suspension between pages 1 and 2.  Neither run
    has the steps "a delay between consecutive pages, none after the
    last". *)
Lemma delay_between_pages_counterexample :
  crawl_steps
    (trace (snd (crawl_coinmarketcap_html
                   (sample_env (fun _ => unavailable) (fun _ => inr 0%Q)
                      (fun _ => inr []))
                   2 (Service_init Config.default) world0)))
  = [Fetch 1; Delay (1 # 2); Fetch 2; Delay (1 # 2)]
  /\ crawl_steps
       (trace (snd (crawl_coinmarketcap_json
                      (sample_env (fun _ => unavailable) (fun _ => inr 0%Q)
                         (fun page => if page =? 1 then inl timed_out
                                      else inr []))
                      2 20 (Service_init Config.default) world0)))
     = [Fetch 1; Fetch 2; Delay (1 # 5)]
  /\ delays_between_pages (1 # 2) (py_range 1 (2 + 1))
     = [Fetch 1; Delay (1 # 2); Fetch 2]
  /\ [Fetch 1; Delay (1 # 2); Fetch 2; Delay (1 # 2)]
     <> delays_between_pages (1 # 2) (py_range 1 (2 + 1))
  /\ [Fetch 1; Fetch 2; Delay (1 # 5)]
     <> delays_between_pages (1 # 5) (py_range 1 (2 + 1)).
Proof.
  split; [reflexivity|]. split; [reflexivity|]. split; [reflexivity|].
  split; discriminate.
Qed.

(** C9, amended: in both crawls the delay ([html_scraping_delay], resp.
    [json_api_delay]) is a suspension right after each page whose fetch
    succeeded, the last page of the run included, and there is none after a
    page whose fetch failed; no other suspension occurs. *)
Theorem crawl_delay_after_each_fetched_page (env : Env) (pages per_page : Z)
  (s : Service) (w : World) :
  let range := py_range 1 (pages + 1) in
  let steps_html :=
    steps_of_pages (page_html env)
      (Config.html_scraping_delay (config s)) range in
  let steps_json :=
    steps_of_pages (fun page => page_json env page per_page)
      (Config.json_api_delay (config s)) range in
  (exists evs,
     trace (snd (crawl_coinmarketcap_html env pages s w)) = trace w ++ evs
     /\ crawl_steps evs = steps_html)
  /\ (exists evs,
        trace (snd (crawl_coinmarketcap_json env pages per_page s w)) =
          trace w ++ evs
        /\ crawl_steps evs = steps_json)
  /\ (1 <= pages ->
        (page_failed (page_html env pages) = false ->
           exists before,
             steps_html =
               before ++ [Fetch pages;
                          Delay (Config.html_scraping_delay (config s))])
        /\ (page_failed (page_json env pages per_page) = false ->
              exists before,
                steps_json =
                  before ++ [Fetch pages;
                             Delay (Config.json_api_delay (config s))])).
Proof.
  intros range steps_html steps_json. split; [|split].
  - destruct (crawl_html_run env pages s w)
      as (w' & evs & Hrun & Htr & Hst & _).
    cbv zeta in *. exists evs. now rewrite Hrun.
  - destruct (crawl_json_run env pages per_page s w)
      as (w' & evs & Hrun & Htr & Hst & _).
    cbv zeta in *. exists evs. now rewrite Hrun.
  - intros Hpages. unfold steps_html, steps_json, range.
    rewrite py_range_snoc by lia. rewrite !steps_of_pages_app.
    split; intros Hok; eexists; unfold steps_of_pages at 2;
      cbn [flat_map]; rewrite Hok, app_nil_r; reflexivity.
Qed.

(* ================================================================= *)
(** ** The price poller *)

Lemma add_value_nonempty (v : Q) (m : MovingAverage Q) :
  0 < window_size m -> values (snd (add_value v m)) <> [].
Proof.
  intros Hpos. unfold add_value.
  destruct (Z.ltb_spec (window_size m) (len (values m ++ [v]))) as [Hgt|Hle];
    cbn [snd values].
  - destruct (values m) as [|x [|y l]]; cbn [app tl pop0] in *;
      try discriminate.
    rewrite len_cons, len_nil in Hgt. lia.
  - destruct (values m); discriminate.
Qed.

Lemma add_value_stays_empty (v : Q) (m : MovingAverage Q) :
  window_size m <= 0 -> values m = [] -> values (snd (add_value v m)) = [].
Proof.
  intros Hneg Hval. unfold add_value. rewrite Hval. cbn [app].
  rewrite len_cons, len_nil.
  destruct (Z.ltb_spec (window_size m) (1 + 0)); [reflexivity|lia].
Qed.

Lemma Qmin_inject_Z (a b : Z) :
  Qmin (inject_Z a) (inject_Z b) = inject_Z (Z.min a b).
Proof.
  unfold Qmin, GenericMinMax.gmin, Qcompare, inject_Z. cbn [Qnum Qden].
  rewrite !Z.mul_1_r. unfold Z.min. destruct (a ?= b); reflexivity.
Qed.

Lemma sleeps_app (l1 l2 : list Event) : sleeps (l1 ++ l2) = sleeps l1 ++ sleeps l2.
Proof. apply pick_app. Qed.

Lemma price_fetches_app (l1 l2 : list Event) :
  price_fetches (l1 ++ l2) = price_fetches l1 ++ price_fetches l2.
Proof. apply pick_app. Qed.

Lemma set_moving_average_same (s : Service) :
  set_moving_average (moving_average s) s = s.
Proof. now destruct s. Qed.

Section PollCycle.
Variable env : Env.

(** The part of the [try] suite after the price was fetched and stored,
    for a tracker of positive size: the sample is added, the line
    printed, the counter reset, and the poller sleeps for the poll
    interval. *)
Lemma poll_try_after_store (s : Service) (w : World) (p : Q) :
  poll_price env (cycles w) = inr p ->
  poll_store env (cycles w) = None ->
  0 < window_size (moving_average s) ->
  exists w' evs,
    poll_try env s w =
      (inr tt,
       set_consecutive_failures 0
         (set_moving_average (snd (add_value p (moving_average s))) s), w')
    /\ cycles w' = cycles w
    /\ trace w' = trace w ++ evs
    /\ price_fetches evs = ["bitcoin"%string]
    /\ sleeps evs = [Config.poll_interval (config s)].
Proof.
  intros Hprice Hstore Hpos.
  pose proof (add_value_nonempty p (moving_average s) Hpos) as Hsome.
  unfold poll_try, bind, get_price, store_price, now.
  cbn [cycles emit_w]. rewrite Hprice. cbn [cycles emit_w]. rewrite Hstore.
  unfold on_moving_average, call, is_ready, get_average.
  cbn [pd_price pd_symbol pd_timestamp].
  destruct (add_value p (moving_average s)) as [[] ma'] eqn:Hadd.
  cbn [snd] in *. cbn [moving_average set_moving_average].
  destruct (values ma') as [|x l] eqn:Hv; [congruence|].
  destruct (window_size ma' <=? len (x :: l));
    unfold ret, print, log, emit, modify, get_self, sleep;
    cbn [moving_average set_moving_average set_consecutive_failures config
         naps emit_w];
    rewrite ?Hv;
    (eexists _, _; split; [reflexivity|]; split; [reflexivity|];
     split; [cbn [trace emit_w count_nap_w advance_w]; rewrite <- !app_assoc;
             reflexivity|]; split; reflexivity).
Qed.

(** The [try] suite raises without touching the counter when the fetch
    raises, when the storage call raises, or when the tracker's size is 0 or
    less. *)
Lemma poll_try_raises (cfg : Config.t) (s : Service) (w : World) :
  poller_ok cfg s ->
  cycle_fails env (Config.moving_average_window cfg) (cycles w) = true ->
  exists e s' w' evs,
    poll_try env s w = (inl e, s', w')
    /\ poller_ok cfg s'
    /\ consecutive_failures s' = consecutive_failures s
    /\ running s' = running s
    /\ cycles w' = cycles w
    /\ trace w' = trace w ++ evs
    /\ price_fetches evs = ["bitcoin"%string]
    /\ sleeps evs = [].
Proof.
  intros (Hcfg & Hwin & Hempty) Hfails. unfold cycle_fails in Hfails.
  unfold poll_try, bind, get_price, store_price, now. cbn [cycles emit_w].
  destruct (poll_price env (cycles w)) as [e|p].
  - eexists _, _, _, _. split; [reflexivity|]. repeat split; auto.
  - cbn [cycles emit_w].
    destruct (poll_store env (cycles w)) as [e|].
    + eexists _, _, _, _. split; [reflexivity|].
      split; [repeat split; auto|]. split; [reflexivity|].
      split; [reflexivity|]. split; [reflexivity|].
      split; [cbn [trace emit_w]; rewrite <- !app_assoc; reflexivity|].
      split; reflexivity.
    + apply Z.leb_le in Hfails.
      pose proof (add_value_stays_empty p (moving_average s)) as Hnil.
      rewrite Hwin in Hnil. specialize (Hnil Hfails (Hempty Hfails)).
      pose proof (window_size_add_value p (moving_average s)) as Hwin'.
      unfold on_moving_average, call, is_ready, get_average.
      cbn [pd_price pd_symbol pd_timestamp].
      destruct (add_value p (moving_average s)) as [[] ma'] eqn:Hadd.
      cbn [snd] in *. cbn [moving_average set_moving_average].
      rewrite Hnil, len_nil, Hwin', Hwin.
      rewrite (proj2 (Z.leb_le _ 0) Hfails).
      unfold raise. cbn [moving_average set_moving_average]. rewrite ?Hnil.
      eexists _, _, _, _. split; [reflexivity|].
      split; [repeat split; cbn; auto; congruence|]. split; [reflexivity|].
      split; [reflexivity|]. split; [reflexivity|].
      split; [cbn [trace emit_w]; rewrite <- !app_assoc; reflexivity|].
      split; reflexivity.
Qed.

(** The [except] suite. *)
Lemma poll_except_run (e : Exn) (s : Service) (w : World) :
  let n := consecutive_failures s + 1 in
  let t := Config.max_consecutive_failures (config s) in
  let s1 := set_consecutive_failures n s in
  poll_except env e s w =
    if t <=? n then
      (inr (Some tt), set_running false s1,
       emit_w (EvPrint StoppingPoller)
         (emit_w (EvPrint (ConsecutiveFailures t e))
            (emit_w (EvLog ERROR (ConsecutiveFailures t e))
               (emit_w (EvLog WARNING (PriceFetchFailed n e)) w))))
    else
      let wait_time := Qmin (py_pow2 (n - 1)) 30 in
      (inr None, s1,
       count_nap_w
         (advance_w (Qmax 0 wait_time + sleep_lag env (naps w))%Q
            (emit_w (EvSleep wait_time)
               (emit_w (EvLog INFO (WaitingBeforeRetry wait_time))
                  (emit_w (EvLog WARNING (PriceFetchFailed n e)) w))))).
Proof.
  cbv zeta. unfold poll_except, bind, modify, get_self, log, print, emit,
    sleep, break, continue, ret.
  cbn [consecutive_failures set_consecutive_failures config].
  destruct (Config.max_consecutive_failures (config s)
            <=? consecutive_failures s + 1); reflexivity.
Qed.

(** One cycle of the poller. *)
Lemma poll_cycle_run (cfg : Config.t) (s : Service) (w : World) :
  poller_ok cfg s ->
  exists r s' w' evs,
    poll_cycle env s w = (inr r, s', w')
    /\ poller_ok cfg s'
    /\ cycles w' = S (cycles w)
    /\ trace w' = trace w ++ evs
    /\ price_fetches evs = ["bitcoin"%string]
    /\ if cycle_fails env (Config.moving_average_window cfg) (cycles w) then
         consecutive_failures s' = consecutive_failures s + 1
         /\ if Config.max_consecutive_failures cfg
               <=? consecutive_failures s + 1
            then r = Some tt /\ running s' = false /\ sleeps evs = []
            else r = None /\ running s' = running s
                 /\ sleeps evs =
                      [Qmin (py_pow2 (consecutive_failures s + 1 - 1)) 30]
       else
         consecutive_failures s' = 0
         /\ r = None /\ running s' = running s
         /\ sleeps evs = [Config.poll_interval cfg].
Proof.
  intros Hok.
  destruct (cycle_fails env (Config.moving_average_window cfg) (cycles w))
    eqn:Hfails.
  - destruct (poll_try_raises cfg s w Hok Hfails)
      as (e & s1 & w1 & evs1 & Htry & Hok1 & Hcf & Hrun & Hcy & Htr & Hpf & Hsl).
    unfold poll_cycle, bind, try_except. rewrite Htry.
    rewrite poll_except_run. cbv zeta.
    destruct Hok1 as (Hcfg1 & Hwin1 & Hempty1). rewrite Hcfg1, Hcf.
    destruct (Config.max_consecutive_failures cfg <=? consecutive_failures s + 1).
    + eexists _, _, _, (evs1 ++ _). split; [reflexivity|].
      split; [repeat split; cbn; auto|].
      split; [cbn [cycles count_cycle_w emit_w]; congruence|].
      split; [cbn [trace count_cycle_w emit_w]; rewrite Htr, <- !app_assoc;
              reflexivity|].
      rewrite price_fetches_app, sleeps_app, Hpf, Hsl. repeat split.
    + eexists _, _, _, (evs1 ++ _). split; [reflexivity|].
      split; [repeat split; cbn; auto|].
      split; [cbn [cycles count_cycle_w count_nap_w advance_w emit_w];
              congruence|].
      split; [cbn [trace count_cycle_w count_nap_w advance_w emit_w];
              rewrite Htr, <- !app_assoc; reflexivity|].
      rewrite price_fetches_app, sleeps_app, Hpf, Hsl. repeat split.
      exact Hrun.
  - destruct Hok as (Hcfg & Hwin & Hempty). unfold cycle_fails in Hfails.
    destruct (poll_price env (cycles w)) as [e|p] eqn:Hprice; [discriminate|].
    destruct (poll_store env (cycles w)) as [e|] eqn:Hstore; [discriminate|].
    apply Z.leb_gt in Hfails.
    destruct (poll_try_after_store s w p Hprice Hstore)
      as (w1 & evs1 & Htry & Hcy & Htr & Hpf & Hsl); [lia|].
    unfold poll_cycle, bind, try_except. rewrite Htry.
    unfold continue, ret, end_of_cycle.
    eexists _, _, _, evs1. split; [reflexivity|].
    split.
    { repeat split; cbn; auto.
      - rewrite window_size_add_value. exact Hwin.
      - intros Hneg. lia. }
    split; [cbn [cycles count_cycle_w]; congruence|].
    split; [cbn [trace count_cycle_w]; exact Htr|].
    split; [exact Hpf|]. rewrite Hsl, Hcfg. repeat split.
Qed.

End PollCycle.

Lemma close_run (env : Env) (c : HttpClient) (w : World) :
  exists c' w' evs,
    close c w = (inr tt, c', w')
    /\ cycles w' = cycles w
    /\ trace w' = trace w ++ evs
    /\ price_fetches evs = []
    /\ sleeps evs = [].
Proof.
  unfold close, bind, get_self, emit, modify, log, ret.
  destruct (session c) as [[|]|].
  - exists c, w, []. rewrite app_nil_r. repeat split.
  - eexists _, _, _. split; [reflexivity|]. split; [reflexivity|].
    split; [cbn [trace emit_w]; rewrite <- !app_assoc; reflexivity|].
    split; reflexivity.
  - exists c, w, []. rewrite app_nil_r. repeat split.
Qed.

Lemma streak_nonneg (fails : nat -> bool) (n0 i : nat) :
  0 <= streak fails 0 n0 i.
Proof.
  induction i as [|i IH]; cbn [streak]; [lia|].
  destruct (fails (n0 + i)%nat); lia.
Qed.

(** The count is at least [k] exactly when the last [k] cycles all
    failed. *)
Lemma streak_ge_iff (fails : nat -> bool) (n0 : nat) (i : nat) :
  forall k : nat,
    Z.of_nat k <= streak fails 0 n0 i <-> run_ends_at fails n0 k i.
Proof.
  unfold run_ends_at. induction i as [|i IH]; intros k; cbn [streak].
  - split.
    + intros Hk. split; [lia|]. intros j Hj. lia.
    + intros [Hk _]. lia.
  - destruct (fails (n0 + i)%nat) eqn:Hlast.
    + destruct k as [|k'].
      * pose proof (streak_nonneg fails n0 i). split.
        -- intros _. split; [lia|]. intros j Hj. lia.
        -- intros _. lia.
      * specialize (IH k'). split.
        -- intros Hk. destruct (proj1 IH) as [Hle Hall]; [lia|].
           split; [lia|]. intros j Hj.
           destruct (Nat.eq_dec j i) as [->|Hne]; [exact Hlast|].
           apply Hall. lia.
        -- intros [Hle Hall].
           assert (Z.of_nat k' <= streak fails 0 n0 i); [|lia].
           apply IH. split; [lia|]. intros j Hj. apply Hall. lia.
    + split.
      * intros Hk. assert (k = 0%nat) as -> by lia.
        split; [lia|]. intros j Hj. lia.
      * intros [Hle Hall]. destruct k as [|k']; [lia|].
        specialize (Hall i). rewrite Hlast in Hall.
        discriminate Hall. lia.
Qed.

Section PollLoop.
Variable env : Env.
Variable cfg : Config.t.
Hypothesis no_sigint : forall n, poll_sigint env n = false.

Let t := Config.max_consecutive_failures cfg.
Let fails := cycle_fails env (Config.moving_average_window cfg).

(** While the count stays under the threshold the loop goes on, one
    fetch per cycle. *)
Lemma poll_loop_keeps_going (m : nat) :
  forall (s : Service) (w : World) (fuel : nat),
    poller_ok cfg s ->
    running s = true ->
    (forall i, (i < m)%nat ->
       streak fails (consecutive_failures s) (cycles w) (S i) < t) ->
    exists s' w' evs,
      poll_loop env (m + fuel) s w = poll_loop env fuel s' w'
      /\ poller_ok cfg s'
      /\ running s' = true
      /\ consecutive_failures s' =
           streak fails (consecutive_failures s) (cycles w) m
      /\ cycles w' = (cycles w + m)%nat
      /\ trace w' = trace w ++ evs
      /\ price_fetches evs = repeat "bitcoin"%string m.
Proof.
  induction m as [|m IH]; intros s w fuel Hok Hrun Hunder.
  - exists s, w, []. rewrite app_nil_r, Nat.add_0_r.
    split; [reflexivity|]. split; [exact Hok|]. repeat split; auto.
  - destruct (IH s w (S fuel) Hok Hrun) as
      (s1 & w1 & evs1 & Hloop & Hok1 & Hrun1 & Hcf1 & Hcy1 & Htr1 & Hpf1).
    { intros i Hi. apply Hunder. lia. }
    replace (S m + fuel)%nat with (m + S fuel)%nat by lia.
    rewrite Hloop. cbn [poll_loop].
    unfold bind at 1, deliver_sigint. rewrite no_sigint.
    unfold bind at 1, get_self. rewrite Hrun1.
    destruct (poll_cycle_run env cfg s1 w1 Hok1)
      as (r & s2 & w2 & evs2 & Hcycle & Hok2 & Hcy2 & Htr2 & Hpf2 & Hcase).
    unfold bind. rewrite Hcycle.
    specialize (Hunder m (Nat.lt_succ_diag_r m)). cbn [streak] in Hunder.
    rewrite Hcy1 in Hcase. fold fails in Hcase. fold t in Hcase.
    destruct (fails (cycles w + m)%nat) eqn:Hf.
    + destruct Hcase as [Hcf2 Hstop]. rewrite <- Hcf1 in Hunder.
      destruct (Z.leb_spec t (consecutive_failures s1 + 1)) as [Hge|Hlt];
        [lia|].
      destruct Hstop as (-> & Hrun2 & _).
      exists s2, w2, (evs1 ++ evs2). split; [reflexivity|].
      split; [exact Hok2|]. split; [congruence|].
      split; [cbn [streak]; rewrite Hf; congruence|].
      split; [lia|]. split; [rewrite Htr2, Htr1; now rewrite app_assoc|].
      rewrite price_fetches_app, Hpf1, Hpf2.
      replace (S m) with (m + 1)%nat by lia. now rewrite repeat_app.
    + destruct Hcase as (Hcf2 & -> & Hrun2 & _).
      exists s2, w2, (evs1 ++ evs2). split; [reflexivity|].
      split; [exact Hok2|]. split; [congruence|].
      split; [cbn [streak]; rewrite Hf; congruence|].
      split; [lia|]. split; [rewrite Htr2, Htr1; now rewrite app_assoc|].
      rewrite price_fetches_app, Hpf1, Hpf2.
      replace (S m) with (m + 1)%nat by lia. now rewrite repeat_app.
Qed.

(** The cycle that takes the count to the threshold is the last one. *)
Lemma poll_loop_stops (m : nat) (s : Service) (w : World) (fuel : nat) :
  poller_ok cfg s ->
  running s = true ->
  1 <= t ->
  (forall i, (i < m)%nat ->
     streak fails (consecutive_failures s) (cycles w) (S i) < t) ->
  t <= streak fails (consecutive_failures s) (cycles w) (S m) ->
  exists s' w' evs,
    poll_loop env (m + S fuel) s w = (inr true, s', w')
    /\ poller_ok cfg s'
    /\ running s' = false
    /\ consecutive_failures s' =
         streak fails (consecutive_failures s) (cycles w) (S m)
    /\ cycles w' = (cycles w + S m)%nat
    /\ trace w' = trace w ++ evs
    /\ price_fetches evs = repeat "bitcoin"%string (S m).
Proof.
  intros Hok Hrun Ht Hunder Hreach.
  destruct (poll_loop_keeps_going m s w (S fuel) Hok Hrun Hunder) as
    (s1 & w1 & evs1 & Hloop & Hok1 & Hrun1 & Hcf1 & Hcy1 & Htr1 & Hpf1).
  rewrite Hloop. cbn [poll_loop].
  unfold bind at 1, deliver_sigint. rewrite no_sigint.
  unfold bind at 1, get_self. rewrite Hrun1.
  destruct (poll_cycle_run env cfg s1 w1 Hok1)
    as (r & s2 & w2 & evs2 & Hcycle & Hok2 & Hcy2 & Htr2 & Hpf2 & Hcase).
  unfold bind. rewrite Hcycle.
  cbn [streak] in Hreach.
  rewrite Hcy1 in Hcase. fold fails in Hcase. fold t in Hcase.
  destruct (fails (cycles w + m)%nat) eqn:Hf; [|lia].
  destruct Hcase as [Hcf2 Hstop]. rewrite <- Hcf1 in Hreach.
  destruct (Z.leb_spec t (consecutive_failures s1 + 1)) as [Hge|Hlt]; [|lia].
  destruct Hstop as (-> & Hrun2 & _).
  exists s2, w2, (evs1 ++ evs2). split; [reflexivity|].
  split; [exact Hok2|]. split; [exact Hrun2|].
  split; [cbn [streak]; rewrite Hf; congruence|].
  split; [lia|]. split; [rewrite Htr2, Htr1; now rewrite app_assoc|].
  rewrite price_fetches_app, Hpf1, Hpf2.
  replace (S m) with (m + 1)%nat by lia. now rewrite repeat_app.
Qed.

End PollLoop.

Lemma poller_ok_init (cfg : Config.t) :
  poller_ok cfg (set_running true (Service_init cfg)).
Proof. repeat split. Qed.

Lemma start_price_poller_run (env : Env) (fuel : nat) (s : Service) (w : World) :
  let w0 :=
    emit_w (EvPrint PressCtrlC)
      (emit_w (EvPrint StartingPoller)
         (emit_w (EvLog INFO StartingPoller) w)) in
  start_price_poller env fuel s w =
    match poll_loop env fuel (set_running true s) w0 with
    | (inr true, s', w') =>
        (on_http_client close ;;
         log INFO PollerStopped ;;
         print PollerStopped ;;
         ret true) s' w'
    | (inr false, s', w') => (inr false, s', w')
    | (inl e, s', w') => (inl e, s', w')
    end.
Proof.
  cbv zeta. unfold start_price_poller.
  unfold bind at 1 2 3 4 5, log at 1, print at 1 2, emit, modify.
  destruct (poll_loop env fuel _ _) as [[[e|[|]] s'] w']; reflexivity.
Qed.

(** C2, the claim as stated fails.  For a threshold of 0 the counter is
    at the threshold from the start and after every cycle that succeeds,
    yet the loop is still running after three cycles and has fetched three
    times.  And for a threshold of 5, a SIGINT that arrives during the first
    cycle ends the loop after one fetch with the counter at 0. *)
Lemma poller_stop_condition_counterexample :
  (Config.max_consecutive_failures (config_with_threshold 0) = 0
   /\ consecutive_failures (Service_init (config_with_threshold 0)) = 0
   /\ exists s' w',
        start_price_poller
          (sample_env (fun _ => unavailable) (fun _ => inr 100%Q)
             (fun _ => inr []))
          3 (Service_init (config_with_threshold 0)) world0
        = (inr false, s', w')
        /\ running s' = true
        /\ consecutive_failures s' = 0
        /\ price_fetches (trace w') =
             ["bitcoin"%string; "bitcoin"%string; "bitcoin"%string])
  /\ (Config.max_consecutive_failures (config_with_threshold 5) = 5
      /\ exists s' w',
           start_price_poller
             (with_sigint 1
                (sample_env (fun _ => unavailable) (fun _ => inr 100%Q)
                   (fun _ => inr [])))
             3 (Service_init (config_with_threshold 5)) world0
           = (inr true, s', w')
           /\ running s' = false
           /\ consecutive_failures s' = 0
           /\ price_fetches (trace w') = ["bitcoin"%string]).
Proof.
  split.
  - split; [reflexivity|]. split; [reflexivity|].
    eexists _, _. split; [vm_compute; reflexivity|].
    split; [reflexivity|]. split; reflexivity.
  - split; [reflexivity|].
    eexists _, _. split; [vm_compute; reflexivity|].
    split; [reflexivity|]. split; reflexivity.
Qed.

(** C2, amended: for a threshold [t >= 1] and while no SIGINT arrives.
    A cycle fails when its [try] suite raises (the fetch, the storage call
    or the formatting of the line).
    A cycle that fails adds 1 to the counter and any other cycle resets it
    to 0; the cycle that takes the counter to [t] sets [running] to false
    and leaves the loop.  Started on a new service, the poller is still
    looping after [m] cycles, having fetched [m] times, as long as no [t]
    cycles in a row have failed; and it stops with the cycle that completes
    the first run of [t] failures in a row, cycle [m + 1]: the counter is
    [t], [running] is false, the call returns, and exactly [m + 1] fetches
    were made however long it is left to run. *)
Theorem poller_stops_after_consecutive_failures (env : Env) (cfg : Config.t)
  (w : World) (k m : nat) :
  let t := Config.max_consecutive_failures cfg in
  let fails := cycle_fails env (Config.moving_average_window cfg) in
  t = Z.of_nat k ->
  (1 <= k)%nat ->
  (forall n, poll_sigint env n = false) ->
  (forall s w1, poller_ok cfg s ->
     exists r s' w',
       poll_cycle env s w1 = (inr r, s', w')
       /\ (fails (cycles w1) = true <->
           exists e s1 w2, poll_try env s w1 = (inl e, s1, w2))
       /\ consecutive_failures s' =
            (if fails (cycles w1) then consecutive_failures s + 1 else 0)
       /\ (r = Some tt <->
           fails (cycles w1) = true /\ t <= consecutive_failures s + 1)
       /\ running s' =
            (if fails (cycles w1) && (t <=? consecutive_failures s + 1)
             then false else running s))
  /\ ((forall i, (i <= m)%nat -> ~ run_ends_at fails (cycles w) k i) ->
      exists s' w' evs,
        start_price_poller env m (Service_init cfg) w = (inr false, s', w')
        /\ running s' = true
        /\ consecutive_failures s' < t
        /\ trace w' = trace w ++ evs
        /\ price_fetches evs = repeat "bitcoin"%string m)
  /\ ((forall i, (i <= m)%nat -> ~ run_ends_at fails (cycles w) k i) ->
      run_ends_at fails (cycles w) k (S m) ->
      forall fuel, (m < fuel)%nat ->
        exists s' w' evs,
          start_price_poller env fuel (Service_init cfg) w = (inr true, s', w')
          /\ running s' = false
          /\ consecutive_failures s' = t
          /\ trace w' = trace w ++ evs
          /\ price_fetches evs = repeat "bitcoin"%string (S m)).
Proof.
  intros t fails Ht Hk Hquiet.
  set (w0 := emit_w (EvPrint PressCtrlC)
               (emit_w (EvPrint StartingPoller)
                  (emit_w (EvLog INFO StartingPoller) w))).
  set (s0 := set_running true (Service_init cfg)).
  assert (Hunder : forall m',
    (forall i, (i <= m')%nat -> ~ run_ends_at fails (cycles w) k i) ->
    forall i, (i <= m')%nat ->
      streak fails (consecutive_failures s0) (cycles w0) i < t).
  { intros m' Hnone i Hi. specialize (Hnone i Hi).
    rewrite <- streak_ge_iff in Hnone.
    change (consecutive_failures s0) with 0.
    change (cycles w0) with (cycles w). lia. }
  split; [|split].
  - intros s w1 Hok.
    destruct (poll_cycle_run env cfg s w1 Hok)
      as (r & s' & w' & evs & Hcycle & _ & _ & _ & _ & Hcase).
    exists r, s', w'. split; [exact Hcycle|].
    fold fails in Hcase. fold t in Hcase.
    split.
    { destruct (fails (cycles w1)) eqn:Hf.
      - split; [intros _|reflexivity].
        destruct (poll_try_raises env cfg s w1 Hok Hf)
          as (e & s1 & w2 & _ & Hraise & _).
        now exists e, s1, w2.
      - split; [discriminate|]. intros (e & s1 & w2 & Hraise). exfalso.
        unfold fails, cycle_fails in Hf. destruct Hok as (_ & Hwin & _).
        destruct (poll_price env (cycles w1)) as [e'|p] eqn:Hprice;
          [discriminate|].
        destruct (poll_store env (cycles w1)) as [e'|] eqn:Hstore;
          [discriminate|].
        apply Z.leb_gt in Hf.
        destruct (poll_try_after_store env s w1 p Hprice Hstore)
          as (w3 & _ & Htry & _); [lia|].
        rewrite Htry in Hraise. discriminate. }
    destruct (fails (cycles w1)).
    + destruct Hcase as [Hcf Hstop]. split; [exact Hcf|]. cbn [andb].
      destruct (Z.leb_spec t (consecutive_failures s + 1)).
      * destruct Hstop as (-> & Hrun & _). split; [|exact Hrun].
        split; auto.
      * destruct Hstop as (-> & Hrun & _). split; [|exact Hrun].
        split; [discriminate|]. intros [_ Hge]. lia.
    + destruct Hcase as (Hcf & -> & Hrun & _). split; [exact Hcf|].
      split; [|exact Hrun]. split; [discriminate|]. intros [Hf _].
      discriminate.
  - intros Hnone.
    destruct (poll_loop_keeps_going env cfg Hquiet m s0 w0 0
                (poller_ok_init cfg) eq_refl)
      as (s' & w' & evs & Hloop & _ & Hrun & Hcf & _ & Htr & Hpf).
    { intros i Hi. apply (Hunder m Hnone (S i)). lia. }
    rewrite Nat.add_0_r in Hloop. cbn [poll_loop] in Hloop.
    unfold ret in Hloop.
    exists s', w', ([EvLog INFO StartingPoller; EvPrint StartingPoller;
                     EvPrint PressCtrlC] ++ evs).
    rewrite start_price_poller_run. cbv zeta. fold w0 s0. rewrite Hloop.
    split; [reflexivity|]. split; [exact Hrun|].
    split; [rewrite Hcf; apply (Hunder m Hnone m); lia|].
    split; [rewrite Htr; unfold w0; cbn [trace emit_w];
            rewrite <- !app_assoc; reflexivity|].
    rewrite price_fetches_app. exact Hpf.
  - intros Hnone Hends fuel Hfuel.
    assert (Hreach : t <= streak fails (consecutive_failures s0) (cycles w0) (S m)).
    { rewrite <- streak_ge_iff in Hends.
      change (consecutive_failures s0) with 0.
      change (cycles w0) with (cycles w). lia. }
    destruct (poll_loop_stops env cfg Hquiet m s0 w0 (fuel - S m)
                (poller_ok_init cfg) eq_refl)
      as (s' & w' & evs & Hloop & _ & Hrun & Hcf & _ & Htr & Hpf).
    { fold t. lia. }
    { intros i Hi. apply (Hunder m Hnone (S i)). lia. }
    { exact Hreach. }
    replace (m + S (fuel - S m))%nat with fuel in Hloop by lia.
    destruct (close_run env (http_client s') w')
      as (c' & w1 & evs1 & Hclose & _ & Htr1 & Hpf1 & _).
    eexists _, _,
      ([EvLog INFO StartingPoller; EvPrint StartingPoller; EvPrint PressCtrlC]
       ++ evs ++ evs1 ++ [EvLog INFO PollerStopped; EvPrint PollerStopped]).
    rewrite start_price_poller_run. cbv zeta. fold w0 s0. rewrite Hloop.
    unfold bind, on_http_client, zoom. rewrite Hclose.
    unfold log, print, emit, ret.
    split; [reflexivity|]. split; [exact Hrun|]. split.
    { cbn [consecutive_failures set_http_client]. rewrite Hcf. fold fails.
      pose proof (Hunder m Hnone m (Nat.le_refl m)) as Hm.
      cbn [streak] in Hreach |- *. fold fails.
      destruct (fails (cycles w0 + m)%nat); lia. }
    split.
    { cbn [trace emit_w]. rewrite Htr1, Htr. unfold w0. cbn [trace emit_w].
      rewrite <- !app_assoc. reflexivity. }
    rewrite !price_fetches_app, Hpf, Hpf1. cbn. now rewrite app_nil_r.
Qed.

Lemma poller_stops_after_consecutive_failures_witness :
  let env :=
    sample_env (fun _ => unavailable)
      (fun n => if Nat.eqb n 1 then inr 100%Q else inl timed_out)
      (fun _ => inr []) in
  let cfg := config_with_threshold 2 in
  (Config.max_consecutive_failures cfg = Z.of_nat 2
   /\ (1 <= 2)%nat
   /\ (forall n, poll_sigint env n = false))
  /\ exists s' w' evs,
       start_price_poller env 10 (Service_init cfg) world0 = (inr true, s', w')
       /\ running s' = false
       /\ consecutive_failures s' = 2
       /\ trace w' = trace world0 ++ evs
       /\ price_fetches evs = repeat "bitcoin"%string 4.
Proof.
  cbv zeta.
  set (env := sample_env (fun _ => unavailable)
                (fun n => if Nat.eqb n 1 then inr 100%Q else inl timed_out)
                (fun _ => inr [])).
  set (cfg := config_with_threshold 2).
  assert (Ht : Config.max_consecutive_failures cfg = Z.of_nat 2) by reflexivity.
  assert (Hk : (1 <= 2)%nat) by lia.
  assert (Hquiet : forall n, poll_sigint env n = false) by reflexivity.
  split; [auto|].
  destruct (poller_stops_after_consecutive_failures env cfg world0 2 3
              Ht Hk Hquiet) as (_ & _ & Hstop).
  apply Hstop.
  - intros i Hi [Hle Hall]. specialize (Hall 1%nat).
    assert (Hin : (i - 2 <= 1 < i)%nat) by lia.
    specialize (Hall Hin). discriminate Hall.
  - split; [lia|]. intros j Hj.
    destruct j as [|[|[|[|j]]]]; try lia; reflexivity.
  - lia.
Defined.

(** C7: the two backoff policies.  In the fetcher, a retried attempt
    number [attempt] is followed by a suspension of exactly [2 ^ attempt],
    which is more than 30 from attempt 5 on: nothing caps it.  In the
    poller, the failed cycle that takes the counter to [c], below the
    threshold, is followed by a suspension of exactly
    [min (2 ^ (c - 1)) 30], never more than 30. *)
Theorem backoff_policies (env : Env) (url : string) :
  (forall attempt c w,
     transient (http_reply env (http_calls w)) ->
     0 <= attempt < max_retries c - 1 ->
     exists w' evs,
       attempt_body env url attempt c w = (inr None, c, w')
       /\ trace w' = trace w ++ evs
       /\ sleeps evs = [inject_Z (2 ^ attempt)]
       /\ (5 <= attempt -> (30 < inject_Z (2 ^ attempt))%Q))
  /\ (forall cfg s w,
        poller_ok cfg s ->
        cycle_fails env (Config.moving_average_window cfg) (cycles w) = true ->
        0 <= consecutive_failures s ->
        consecutive_failures s + 1 < Config.max_consecutive_failures cfg ->
        exists s' w' evs,
          let c := consecutive_failures s' in
          poll_cycle env s w = (inr None, s', w')
          /\ c = consecutive_failures s + 1
          /\ trace w' = trace w ++ evs
          /\ sleeps evs = [inject_Z (Z.min (2 ^ (c - 1)) 30)]
          /\ (inject_Z (Z.min (2 ^ (c - 1)) 30) <= 30)%Q).
Proof.
  split.
  - intros attempt c w Hreply Hrange.
    destruct (attempt_body_retry env url attempt c w Hreply Hrange)
      as (w' & evs & Hrun & _ & Htr & Htl).
    exists w', evs. split; [exact Hrun|]. split; [exact Htr|]. split.
    + now rewrite sleeps_timeline, Htl.
    + intros Hbig. change 30%Q with (inject_Z 30). rewrite <- Zlt_Qlt.
      assert (2 ^ 5 <= 2 ^ attempt) by (apply Z.pow_le_mono_r; lia).
      change (2 ^ 5) with 32 in *. lia.
  - intros cfg s w Hok Hfails Hcount Hbelow.
    destruct (poll_cycle_run env cfg s w Hok)
      as (r & s' & w' & evs & Hcycle & _ & _ & Htr & _ & Hcase).
    rewrite Hfails in Hcase. destruct Hcase as [Hcf Hstop].
    destruct (Z.leb_spec (Config.max_consecutive_failures cfg)
                (consecutive_failures s + 1)) as [Hge|Hlt]; [lia|].
    destruct Hstop as (-> & _ & Hsl).
    exists s', w', evs. cbv zeta. split; [exact Hcycle|].
    split; [exact Hcf|]. split; [exact Htr|]. split.
    + rewrite Hsl, Hcf. rewrite py_pow2_nonneg by lia.
      change 30%Q with (inject_Z 30). now rewrite Qmin_inject_Z.
    + change 30%Q with (inject_Z 30). rewrite <- Zle_Qle. lia.
Qed.

Lemma backoff_policies_witness :
  let env :=
    sample_env (fun _ => unavailable) (fun _ => inl timed_out)
      (fun _ => inr []) in
  (exists w' evs,
     attempt_body env "u" 6 (HttpClient_init 30 10 2) world0 =
       (inr None, HttpClient_init 30 10 2, w')
     /\ trace w' = trace world0 ++ evs
     /\ sleeps evs = [inject_Z (2 ^ 6)])
  /\ (exists s' w' evs,
        poll_cycle env
          (set_consecutive_failures 6
             (set_running true (Service_init (config_with_threshold 9))))
          world0 = (inr None, s', w')
        /\ consecutive_failures s' = 7
        /\ sleeps evs = [inject_Z (Z.min (2 ^ (7 - 1)) 30)]).
Proof.
  cbv zeta.
  set (env := sample_env (fun _ => unavailable) (fun _ => inl timed_out)
                (fun _ => inr [])).
  destruct (backoff_policies env "u") as [Hfetch Hpoll]. split.
  - destruct (Hfetch 6 (HttpClient_init 30 10 2) world0)
      as (w' & evs & Hrun & Htr & Hsl & _).
    + simpl. lia.
    + simpl. lia.
    + exists w', evs. auto.
  - destruct (Hpoll (config_with_threshold 9)
                (set_consecutive_failures 6
                   (set_running true (Service_init (config_with_threshold 9))))
                world0)
      as (s' & w' & evs & Hrun & Hcf & _ & Hsl & _).
    + repeat split.
    + reflexivity.
    + simpl. lia.
    + simpl. lia.
    + cbv zeta in *. exists s', w', evs. split; [exact Hrun|].
      split; [exact Hcf|]. rewrite Hsl, Hcf. reflexivity.
Defined.

Lemma moving_average_window_witness :
  (len [1; 2]%Q <= 3
   /\ values (add_values [1; 2]%Q (MovingAverage_init 3 [7%Q])) = [1; 2]%Q)
  /\ (len [1; 2; 3; 4]%Q = 3 + 1
      /\ values (add_values [1; 2; 3; 4]%Q (MovingAverage_init 3 [7%Q]))
         = [2; 3; 4]%Q
      /\ fst (is_ready (add_values [1; 2; 3; 4]%Q (MovingAverage_init 3 [7%Q])))
         = true).
Proof.
  split.
  - assert (Hle : len [1; 2]%Q <= 3) by (unfold len; simpl; lia).
    split; [exact Hle|].
    exact (proj1 (proj1 (moving_average_window 3 [7%Q] [1; 2]%Q) Hle)).
  - assert (Hlen : len [1; 2; 3; 4]%Q = 3 + 1) by reflexivity.
    split; [exact Hlen|].
    destruct (proj1 (proj2 (moving_average_window 3 [7%Q] [1; 2; 3; 4]%Q)) Hlen)
      as (Hval & _ & Hready).
    split; [exact Hval|exact Hready].
Defined.

Lemma crawl_delay_after_each_fetched_page_witness :
  let env :=
    sample_env (fun _ => unavailable) (fun _ => inr 0%Q)
      (fun page => if page =? 2 then inl timed_out else inr []) in
  (1 <= 3 /\ page_failed (page_html env 3) = false)
  /\ exists before,
       steps_of_pages (page_html env)
         (Config.html_scraping_delay (config (Service_init Config.default)))
         (py_range 1 (3 + 1))
       = before ++ [Fetch 3; Delay (1 # 2)].
Proof.
  cbv zeta.
  assert (Hpages : 1 <= 3) by lia.
  split; [split; [exact Hpages|reflexivity]|].
  destruct (crawl_delay_after_each_fetched_page
              (sample_env (fun _ => unavailable) (fun _ => inr 0%Q)
                 (fun page => if page =? 2 then inl timed_out else inr []))
              3 20 (Service_init Config.default) world0)
    as (_ & _ & Hlast).
  destruct (Hlast Hpages) as [Hhtml _]. cbv zeta in Hhtml.
  exact (Hhtml eq_refl).
Defined.

(* ================================================================= *)
(** ** HttpClient.get: the other ways an attempt ends *)

Section MoreAttempts.
Variable env : Env.
Variable url : string.

Ltac run_attempt' :=
  unfold attempt_body, response_json, try_except, bind, get_self, log, emit,
    session_get, sleep, raise, continue, return_, ret;
  cbn [http_calls naps emit_w advance_w count_http_w count_nap_w].

(** A reply with a status under 400 and a body that parses: the payload
    is returned. *)
Lemma attempt_body_answers (attempt : Z) (c : HttpClient) (w : World)
  (data : json) :
  answers (http_reply env (http_calls w)) data ->
  exists w' evs,
    attempt_body env url attempt c w = (inr (Some data), c, w')
    /\ http_calls w' = S (http_calls w)
    /\ trace w' = trace w ++ evs
    /\ timeline evs = [Attempt url].
Proof.
  intros Hreply. run_attempt'.
  destruct (http_reply env (http_calls w)) as [status [e|d]|e];
    simpl in Hreply; try contradiction.
  destruct Hreply as [Hlt ->].
  rewrite (proj2 (Z.leb_gt 500 status)) by lia.
  rewrite (proj2 (Z.leb_gt 400 status)) by lia.
  eexists _, _. split; [reflexivity|]. split; [reflexivity|].
  split; [simpl; rewrite <- !app_assoc; reflexivity|]. reflexivity.
Qed.

(** A transport error on the last attempt: the transport's exception is
    raised as it is. *)
Lemma attempt_body_last_transport_error (attempt : Z) (c : HttpClient)
  (w : World) (e : Exn) :
  transport_error (http_reply env (http_calls w)) e ->
  max_retries c - 1 <= attempt ->
  exists w' evs,
    attempt_body env url attempt c w = (inl e, c, w')
    /\ http_calls w' = S (http_calls w)
    /\ trace w' = trace w ++ evs
    /\ timeline evs = [Attempt url].
Proof.
  intros Hreply Hlast. run_attempt'.
  destruct (http_reply env (http_calls w)) as [status body|e'];
    simpl in Hreply; [contradiction|].
  destruct Hreply as (-> & Hnot & Hyes). rewrite Hnot, Hyes.
  rewrite (proj2 (Z.ltb_ge attempt (max_retries c - 1)) Hlast).
  eexists _, _. split; [reflexivity|]. split; [reflexivity|].
  split; [simpl; rewrite <- !app_assoc; reflexivity|]. reflexivity.
Qed.

(** An exception that is not retried is raised at once, whatever the
    attempt number. *)
Lemma attempt_body_fails_for_good (attempt : Z) (c : HttpClient) (w : World)
  (e : Exn) :
  fails_for_good (http_reply env (http_calls w)) e ->
  exists w' evs,
    attempt_body env url attempt c w = (inl e, c, w')
    /\ http_calls w' = S (http_calls w)
    /\ trace w' = trace w ++ evs
    /\ timeline evs = [Attempt url].
Proof.
  intros Hreply. run_attempt'. unfold not_retried in Hreply.
  destruct (http_reply env (http_calls w)) as [status [e'|d]|e'];
    simpl in Hreply; try contradiction.
  - destruct Hreply as (Hlt & -> & Hnot). unfold not_retried in Hnot.
    rewrite (proj2 (Z.leb_gt 500 status)) by lia.
    rewrite (proj2 (Z.leb_gt 400 status)) by lia.
    destruct (is_client_response_error e);
      [|destruct (is_client_or_timeout_error e); [simpl in Hnot; discriminate Hnot|]];
      (eexists _, _; split; [reflexivity|]; split; [reflexivity|];
       split; [simpl; rewrite <- !app_assoc; reflexivity|]; reflexivity).
  - destruct Hreply as (-> & Hnot). unfold not_retried in Hnot.
    destruct (is_client_response_error e);
      [|destruct (is_client_or_timeout_error e); [simpl in Hnot; discriminate Hnot|]];
      (eexists _, _; split; [reflexivity|]; split; [reflexivity|];
       split; [simpl; rewrite <- !app_assoc; reflexivity|]; reflexivity).
Qed.

(** Whatever the reply, an attempt makes one request and touches no
    session; it is followed by a suspension of [2 ^ attempt] exactly when
    the loop goes on, which happens only before the last attempt. *)
Lemma attempt_body_cases (attempt : Z) (c : HttpClient) (w : World) :
  0 <= attempt ->
  exists r w' evs,
    attempt_body env url attempt c w = (r, c, w')
    /\ http_calls w' = S (http_calls w)
    /\ trace w' = trace w ++ evs
    /\ sessions_opened evs = []
    /\ sessions_closed evs = []
    /\ ((r = inr None /\ attempt < max_retries c - 1
         /\ timeline evs = [Attempt url; Nap (inject_Z (2 ^ attempt))])
        \/ (r <> inr None /\ timeline evs = [Attempt url])).
Proof.
  intros Hattempt. run_attempt'. rewrite (py_pow2_nonneg attempt Hattempt).
  destruct (http_reply env (http_calls w)) as [status [e|data]|e];
    try destruct (500 <=? status); try destruct (400 <=? status);
    try destruct (Z.ltb_spec attempt (max_retries c - 1));
    cbn [is_client_response_error is_client_or_timeout_error exn_class];
    try destruct (is_client_response_error e);
    try destruct (is_client_or_timeout_error e);
    try destruct (Z.ltb_spec attempt (max_retries c - 1));
    eexists _, _, _; (split; [reflexivity|]); (split; [reflexivity|]);
    (split; [simpl; rewrite <- !app_assoc; reflexivity|]);
    (split; [reflexivity|]); (split; [reflexivity|]);
    first [ left; split; [reflexivity|]; split; [assumption|reflexivity]
          | right; split; [discriminate|reflexivity] ].
Qed.

End MoreAttempts.

Lemma sessions_opened_app (l1 l2 : list Event) :
  sessions_opened (l1 ++ l2) = sessions_opened l1 ++ sessions_opened l2.
Proof. apply pick_app. Qed.

Lemma sessions_closed_app (l1 l2 : list Event) :
  sessions_closed (l1 ++ l2) = sessions_closed l1 ++ sessions_closed l2.
Proof. apply pick_app. Qed.

Lemma timeline_app (l1 l2 : list Event) :
  timeline (l1 ++ l2) = timeline l1 ++ timeline l2.
Proof. apply pick_app. Qed.

Section GetOutcomes.
Variable env : Env.
Variable url : string.

(** The attempt loop never goes past its budget: what it does is always
    a beginning of the schedule of a call that uses the budget up. *)
Lemma for_each_within_budget (n : nat) :
  forall (a : Z) (c : HttpClient) (w : World),
    0 <= a ->
    Z.to_nat (max_retries c - a) = n ->
    exists r w' evs,
      for_each (py_range a (max_retries c)) (attempt_body env url) c w =
        (r, c, w')
      /\ trace w' = trace w ++ evs
      /\ sessions_opened evs = []
      /\ sessions_closed evs = []
      /\ (a < max_retries c ->
          r <> inr None
          /\ (exists more, timeline evs = Attempt url :: more)
          /\ exists rest,
               retried_attempts url a (max_retries c - 1) ++ [Attempt url] =
               timeline evs ++ rest)
      /\ (max_retries c <= a -> r = inr None /\ evs = []).
Proof.
  induction n as [|n IH]; intros a c w Ha Hleft.
  - exists (inr None), w, []. rewrite py_range_nil by lia.
    rewrite app_nil_r. repeat split; try reflexivity; lia.
  - rewrite (py_range_cons a) by lia. cbn [for_each]. unfold bind.
    destruct (attempt_body_cases env url a c w Ha)
      as (r1 & w1 & evs1 & Hrun & _ & Htr & Hop & Hcl & Hcase).
    rewrite Hrun.
    destruct Hcase as [(-> & Hmore & Htl)|(Hsettled & Htl)].
    + destruct (IH (a + 1) c w1) as
        (r & w' & evs & Hrest & Htr' & Hop' & Hcl' & Hin & _); [lia|lia|].
      destruct Hin as (Hr & _ & rest & Hprefix); [lia|].
      exists r, w', (evs1 ++ evs). split; [exact Hrest|].
      split; [rewrite Htr', Htr; now rewrite app_assoc|].
      split; [now rewrite sessions_opened_app, Hop, Hop'|].
      split; [now rewrite sessions_closed_app, Hcl, Hcl'|].
      split; [|lia]. intros _. split; [exact Hr|].
      split; [rewrite timeline_app, Htl; eexists; reflexivity|].
      exists rest. rewrite timeline_app, Htl.
      rewrite (retried_attempts_cons url a) by lia.
      cbn [app]. rewrite <- Hprefix. reflexivity.
    + assert (Hsame :
        (match r1 with
         | inl e => (inl e, c, w1)
         | inr a0 =>
             match a0 with
             | Some v => ret (Some v)
             | None =>
                 for_each (py_range (a + 1) (max_retries c))
                   (attempt_body env url)
             end c w1
         end) = (r1, c, w1)).
      { destruct r1 as [e|[d|]]; [reflexivity|reflexivity|congruence]. }
      rewrite Hsame. exists r1, w1, evs1. split; [reflexivity|].
      split; [exact Htr|]. split; [exact Hop|]. split; [exact Hcl|].
      split; [|lia]. intros _. split; [exact Hsettled|].
      rewrite Htl. split; [eexists; reflexivity|].
      destruct (Z.lt_ge_cases a (max_retries c - 1)) as [Hlt|Hge].
      * rewrite (retried_attempts_cons url a) by lia. eexists. reflexivity.
      * rewrite retried_attempts_nil by lia. exists []. reflexivity.
Qed.

(** What happens before the attempt loop, with the sessions it creates. *)
Lemma before_attempts_sessions (c : HttpClient) (w : World) :
  exists w0 pre,
    let c0 := set_session (Some false)
                (set_last_request_time (Some (clock w0)) c) in
    (_rate_limit env ;; _get_session) c w = (inr tt, c0, w0)
    /\ get env url c w = attempts env url c0 w0
    /\ trace w0 = trace w ++ pre
    /\ http_calls w0 = http_calls w
    /\ http_gets pre = []
    /\ sessions_opened pre =
         match session c with Some false => [] | _ => [tt] end
    /\ sessions_closed pre = [].
Proof.
  assert (Hrl : exists w1 pre1,
    _rate_limit env c w =
      (inr tt, set_last_request_time (Some (clock w1)) c, w1)
    /\ trace w1 = trace w ++ pre1
    /\ http_calls w1 = http_calls w
    /\ http_gets pre1 = []
    /\ sessions_opened pre1 = [] /\ sessions_closed pre1 = []).
  { destruct (last_request_time c) as [last|] eqn:Hlast.
    - destruct (Qlt_bool 0 (min_interval c)) eqn:Hpos.
      + destruct (Qlt_bool (clock w - last) (min_interval c)) eqn:Hsoon.
        * apply Qlt_bool_iff in Hpos, Hsoon.
          pose proof (rate_limit_waits env c w last Hlast Hpos Hsoon) as Hrun.
          cbv zeta in Hrun. eexists _, _. split; [exact Hrun|].
          split; [simpl; rewrite <- app_assoc; reflexivity|].
          repeat split.
        * apply Qlt_bool_false in Hsoon.
          exists w, []. rewrite rate_limit_passes by eauto.
          rewrite app_nil_r. repeat split.
      + apply Qlt_bool_false in Hpos.
        exists w, []. rewrite rate_limit_passes by auto.
        rewrite app_nil_r. repeat split.
    - exists w, []. rewrite rate_limit_passes by auto.
      rewrite app_nil_r. repeat split. }
  destruct Hrl as (w1 & pre1 & Hrl & Htr1 & Hn1 & Hg1 & Ho1 & Hc1).
  set (c1 := set_last_request_time (Some (clock w1)) c) in *.
  assert (Hgs : exists w0 pre0,
    _get_session c1 w1 = (inr tt, set_session (Some false) c1, w0)
    /\ clock w0 = clock w1
    /\ trace w0 = trace w1 ++ pre0
    /\ http_calls w0 = http_calls w1
    /\ http_gets pre0 = []
    /\ sessions_opened pre0 =
         match session c with Some false => [] | _ => [tt] end
    /\ sessions_closed pre0 = []).
  { unfold _get_session, bind, get_self, emit, modify, ret.
    change (session c1) with (session c).
    destruct (session c) as [[|]|] eqn:Hs.
    - exists (emit_w EvNewSession w1), [EvNewSession]. repeat split.
    - exists w1, []. rewrite app_nil_r. repeat split.
      unfold c1. destruct c; simpl in *; now subst.
    - exists (emit_w EvNewSession w1), [EvNewSession]. repeat split. }
  destruct Hgs as (w0 & pre0 & Hgs & Hck & Htr0 & Hn0 & Hg0 & Ho0 & Hc0).
  exists w0, (pre1 ++ pre0). cbv zeta. rewrite Hck. fold c1.
  split; [unfold bind; now rewrite Hrl, Hgs|].
  split; [unfold get, bind; now rewrite Hrl, Hgs|].
  split; [rewrite Htr0, Htr1; now rewrite app_assoc|].
  split; [congruence|].
  split; [unfold http_gets in *; now rewrite pick_app, Hg1, Hg0|].
  split; [now rewrite sessions_opened_app, Ho1, Ho0|].
  now rewrite sessions_closed_app, Hc1, Hc0.
Qed.

(** After [j] retried attempts, the call ends the way attempt number [j]
    ends, when that attempt does not go on to the next. *)
Lemma get_settles (c : HttpClient) (w : World) (j : nat) (res : Exn + json) :
  Z.of_nat j < max_retries c ->
  (forall i, (i < j)%nat -> transient (http_reply env (http_calls w + i))) ->
  (forall (c0 : HttpClient) (w1 : World),
     max_retries c0 = max_retries c ->
     http_calls w1 = (http_calls w + j)%nat ->
     exists w' evs,
       attempt_body env url (Z.of_nat j) c0 w1 =
         (match res with inl e => inl e | inr d => inr (Some d) end, c0, w')
       /\ http_calls w' = S (http_calls w1)
       /\ trace w' = trace w1 ++ evs
       /\ timeline evs = [Attempt url]) ->
  exists w0 w' evs,
    let c0 := set_session (Some false)
                (set_last_request_time (Some (clock w0)) c) in
    (_rate_limit env ;; _get_session) c w = (inr tt, c0, w0)
    /\ get env url c w = (res, c0, w')
    /\ trace w' = trace w0 ++ evs
    /\ timeline evs = retried_attempts url 0 (Z.of_nat j) ++ [Attempt url]
    /\ http_calls w' = (http_calls w + j + 1)%nat.
Proof.
  intros Hbudget Hbefore Hlast.
  destruct (get_before_attempts env url c w)
    as (w0 & pre & Hpre & Hget & Hn0 & Htr0 & Htl0 & _ & _).
  cbv zeta in Hpre, Hget.
  set (c0 := set_session (Some false)
               (set_last_request_time (Some (clock w0)) c)) in *.
  destruct (for_each_retried env url j 0 c0 w0)
    as (w1 & evs1 & Hrun1 & Hn1 & Htr1 & Htl1).
  { lia. }
  { change (max_retries c0) with (max_retries c). lia. }
  { intros i Hi. rewrite Hn0. now apply Hbefore. }
  destruct (Hlast c0 w1 eq_refl) as (w' & evs & Hend & Hn' & Htr' & Htl').
  { now rewrite Hn1, Hn0. }
  exists w0, w', (evs1 ++ evs). cbv zeta. fold c0.
  split; [exact Hpre|]. split.
  { rewrite Hget. unfold attempts, bind, get_self.
    unfold bind in Hrun1. rewrite Hrun1.
    rewrite (py_range_cons (0 + Z.of_nat j)) by
      (change (max_retries c0) with (max_retries c); lia).
    cbn [for_each]. unfold bind. rewrite Z.add_0_l, Hend.
    destruct res; reflexivity. }
  split; [rewrite Htr', Htr1; now rewrite app_assoc|].
  split; [now rewrite timeline_app, Htl1, Htl'|]. lia.
Qed.

End GetOutcomes.

Lemma attempts_of_exhausted (url : string) (k : Z) :
  pick attempt_of (exhausted_schedule url k) = repeat url (Z.to_nat k).
Proof.
  unfold exhausted_schedule. destruct (Z.ltb_spec 0 k) as [Hpos|Hnone].
  - replace (k - 1) with (0 + Z.of_nat (Z.to_nat (k - 1))) by lia.
    rewrite pick_app, attempts_of_retried.
    replace (Z.to_nat k) with (Z.to_nat (k - 1) + 1)%nat by lia.
    now rewrite repeat_app.
  - now replace (Z.to_nat k) with 0%nat by lia.
Qed.

Lemma naps_of_exhausted (url : string) (k : Z) :
  pick nap_of (exhausted_schedule url k) =
  map (fun i => inject_Z (2 ^ i)) (py_range 0 (k - 1)).
Proof.
  unfold exhausted_schedule. destruct (Z.ltb_spec 0 k) as [Hpos|Hnone].
  - replace (k - 1) with (0 + Z.of_nat (Z.to_nat (k - 1))) at 1 by lia.
    rewrite pick_app, naps_of_retried. cbn [pick nap_of].
    rewrite app_nil_r. do 2 f_equal. lia.
  - now rewrite py_range_nil by lia.
Qed.

Section GetTheorems.
Variable env : Env.
Variable url : string.

(** [get] returns the payload of the first reply with a status under 400
    that parses: after [j] retried attempts, with the suspensions
    [1, 2, ..., 2^(j-1)] between them, attempt [j + 1] is answered and the
    call returns that payload without any further attempt or suspension. *)
Theorem get_returns_first_answer (c : HttpClient) (w : World) (j : nat)
  (data : json) :
  Z.of_nat j < max_retries c ->
  (forall i, (i < j)%nat -> transient (http_reply env (http_calls w + i))) ->
  answers (http_reply env (http_calls w + j)) data ->
  exists w0 w' evs,
    let c0 := set_session (Some false)
                (set_last_request_time (Some (clock w0)) c) in
    (_rate_limit env ;; _get_session) c w = (inr tt, c0, w0)
    /\ get env url c w = (inr data, c0, w')
    /\ trace w' = trace w0 ++ evs
    /\ timeline evs = retried_attempts url 0 (Z.of_nat j) ++ [Attempt url]
    /\ http_gets evs = repeat url (j + 1)
    /\ sleeps evs = map (fun i => inject_Z (2 ^ i)) (py_range 0 (Z.of_nat j)).
Proof.
  intros Hbudget Hbefore Hreply.
  destruct (get_settles env url c w j (inr data) Hbudget Hbefore)
    as (w0 & w' & evs & Hpre & Hget & Htr & Htl & _).
  { intros c0 w1 _ Hn. apply attempt_body_answers. now rewrite Hn. }
  exists w0, w', evs. cbv zeta in *. repeat split; try assumption.
  - rewrite http_gets_timeline, Htl, pick_app.
    replace (Z.of_nat j) with (0 + Z.of_nat j) by lia.
    rewrite attempts_of_retried. now rewrite repeat_app.
  - rewrite sleeps_timeline, Htl, pick_app.
    replace (Z.of_nat j) with (0 + Z.of_nat j) by lia.
    rewrite naps_of_retried. cbn. now rewrite app_nil_r.
Qed.

(** When the budget is used up on a transport error (a connection error
    or a timeout), [get] raises that very exception, the one of the last
    attempt, after [max_retries] attempts spaced by [1, 2, ..., 2^(k-2)]. *)
Theorem get_reraises_last_transport_error (c : HttpClient) (w : World)
  (j : nat) (e : Exn) :
  Z.of_nat j = max_retries c - 1 ->
  (forall i, (i < j)%nat -> transient (http_reply env (http_calls w + i))) ->
  transport_error (http_reply env (http_calls w + j)) e ->
  exists w0 w' evs,
    let c0 := set_session (Some false)
                (set_last_request_time (Some (clock w0)) c) in
    (_rate_limit env ;; _get_session) c w = (inr tt, c0, w0)
    /\ get env url c w = (inl e, c0, w')
    /\ trace w' = trace w0 ++ evs
    /\ timeline evs = exhausted_schedule url (max_retries c)
    /\ http_gets evs = repeat url (Z.to_nat (max_retries c)).
Proof.
  intros Hlast Hbefore Hreply.
  destruct (get_settles env url c w j (inl e)) as
    (w0 & w' & evs & Hpre & Hget & Htr & Htl & _).
  { lia. }
  { exact Hbefore. }
  { intros c0 w1 Hk Hn. apply attempt_body_last_transport_error.
    - now rewrite Hn.
    - rewrite Hk. lia. }
  assert (Hsched : timeline evs = exhausted_schedule url (max_retries c)).
  { rewrite Htl. unfold exhausted_schedule.
    destruct (Z.ltb_spec 0 (max_retries c)); [|lia]. now rewrite Hlast. }
  exists w0, w', evs. cbv zeta in *. repeat split; try assumption.
  rewrite http_gets_timeline, Hsched. apply attempts_of_exhausted.
Qed.

(** An exception that is neither a [ClientError] nor a timeout, or that
    is a [ClientResponseError], raised by the transport or by the parsing
    of a body (a response that is not JSON, say), is not retried: [get]
    raises it at once, with no suspension after the attempt, however much
    of the budget is left. *)
Theorem get_does_not_retry_other_errors (c : HttpClient) (w : World)
  (j : nat) (e : Exn) :
  Z.of_nat j < max_retries c ->
  (forall i, (i < j)%nat -> transient (http_reply env (http_calls w + i))) ->
  fails_for_good (http_reply env (http_calls w + j)) e ->
  exists w0 w' evs,
    let c0 := set_session (Some false)
                (set_last_request_time (Some (clock w0)) c) in
    (_rate_limit env ;; _get_session) c w = (inr tt, c0, w0)
    /\ get env url c w = (inl e, c0, w')
    /\ trace w' = trace w0 ++ evs
    /\ timeline evs = retried_attempts url 0 (Z.of_nat j) ++ [Attempt url]
    /\ http_gets evs = repeat url (j + 1).
Proof.
  intros Hbudget Hbefore Hreply.
  destruct (get_settles env url c w j (inl e) Hbudget Hbefore)
    as (w0 & w' & evs & Hpre & Hget & Htr & Htl & _).
  { intros c0 w1 _ Hn. apply attempt_body_fails_for_good. now rewrite Hn. }
  exists w0, w', evs. cbv zeta in *. repeat split; try assumption.
  rewrite http_gets_timeline, Htl, pick_app.
  replace (Z.of_nat j) with (0 + Z.of_nat j) by lia.
  rewrite attempts_of_retried. now rewrite repeat_app.
Qed.

(** Whatever the server and the network do, one [get] makes at most
    [max_retries] HTTP attempts: its attempts and suspensions are always a
    beginning of the schedule "attempt, 1, attempt, 2, ..., 2^(k-2),
    attempt".  It makes at least one attempt when the budget is positive,
    and none, raising [ClientError], when it is not. *)
Theorem get_stays_within_budget (c : HttpClient) (w : World) :
  exists res w0 w' evs,
    let k := max_retries c in
    let c0 := set_session (Some false)
                (set_last_request_time (Some (clock w0)) c) in
    (_rate_limit env ;; _get_session) c w = (inr tt, c0, w0)
    /\ get env url c w = (res, c0, w')
    /\ trace w' = trace w0 ++ evs
    /\ (exists rest, exhausted_schedule url k = timeline evs ++ rest)
    /\ (List.length (http_gets evs) <= Z.to_nat k)%nat
    /\ (exists later,
          map (fun i => inject_Z (2 ^ i)) (py_range 0 (k - 1)) =
          sleeps evs ++ later)
    /\ (0 < k -> exists more, timeline evs = Attempt url :: more)
    /\ (k <= 0 ->
        res = inl (mkExn ClientError MaxRetriesExceeded) /\ evs = []).
Proof.
  destruct (get_before_attempts env url c w)
    as (w0 & pre & Hpre & Hget & _).
  cbv zeta in Hpre, Hget.
  set (c0 := set_session (Some false)
               (set_last_request_time (Some (clock w0)) c)) in *.
  destruct (for_each_within_budget env url (Z.to_nat (max_retries c0 - 0))
              0 c0 w0 (Z.le_refl 0) eq_refl)
    as (r & w' & evs & Hrun & Htr & _ & _ & Hin & Hout).
  change (max_retries c0) with (max_retries c) in *.
  exists (match r with
          | inl e => inl e
          | inr (Some data) => inr data
          | inr None => inl (mkExn ClientError MaxRetriesExceeded)
          end), w0, w', evs.
  cbv zeta. fold c0. split; [exact Hpre|]. split.
  { rewrite Hget. unfold attempts, bind, get_self.
    change (max_retries c0) with (max_retries c). rewrite Hrun.
    destruct r as [e|[d|]]; reflexivity. }
  split; [exact Htr|].
  assert (Hprefix : exists rest,
            exhausted_schedule url (max_retries c) = timeline evs ++ rest).
  { unfold exhausted_schedule.
    destruct (Z.ltb_spec 0 (max_retries c)) as [Hpos|Hnone].
    - destruct (Hin Hpos) as (_ & _ & rest & Hrest). now exists rest.
    - destruct (Hout Hnone) as [_ ->]. now exists []. }
  destruct Hprefix as (rest & Hrest).
  split; [now exists rest|]. split.
  { pose proof (attempts_of_exhausted url (max_retries c)) as Hall.
    rewrite Hrest, pick_app, <- http_gets_timeline in Hall.
    apply (f_equal (@List.length string)) in Hall.
    rewrite length_app, repeat_length in Hall. lia. }
  split.
  { pose proof (naps_of_exhausted url (max_retries c)) as Hall.
    rewrite Hrest, pick_app, <- sleeps_timeline in Hall.
    eexists. symmetry. exact Hall. }
  split.
  - intros Hpos. destruct (Hin Hpos) as (_ & Hfirst & _). exact Hfirst.
  - intros Hnone. destruct (Hout Hnone) as [-> ->]. auto.
Qed.

(** Sessions.  [get] leaves the client with an open session, creating
    one only when the client has none or a closed one, and never closes
    one.  [close] closes the open session if there is one, keeps the
    recorded request instant, and is idempotent: closing again changes
    nothing and emits nothing. *)
Theorem session_lifecycle (c : HttpClient) (w : World) :
  (exists r c' w' evs,
     get env url c w = (r, c', w')
     /\ session c' = Some false
     /\ trace w' = trace w ++ evs
     /\ sessions_opened evs =
          match session c with Some false => [] | _ => [tt] end
     /\ sessions_closed evs = [])
  /\ (exists c1 w1 evs,
        close c w = (inr tt, c1, w1)
        /\ trace w1 = trace w ++ evs
        /\ session c1 =
             match session c with Some false => Some true | s => s end
        /\ sessions_closed evs =
             match session c with Some false => [tt] | _ => [] end
        /\ sessions_opened evs = []
        /\ last_request_time c1 = last_request_time c
        /\ close c1 w1 = (inr tt, c1, w1)).
Proof.
  split.
  - destruct (before_attempts_sessions env url c w)
      as (w0 & pre & _ & Hget & Htr0 & _ & _ & Hop0 & Hcl0).
    cbv zeta in Hget.
    set (c0 := set_session (Some false)
                 (set_last_request_time (Some (clock w0)) c)) in *.
    destruct (for_each_within_budget env url (Z.to_nat (max_retries c0 - 0))
                0 c0 w0 (Z.le_refl 0) eq_refl)
      as (r & w' & evs & Hrun & Htr & Hop & Hcl & _).
    exists (match r with
            | inl e => inl e
            | inr (Some data) => inr data
            | inr None => inl (mkExn ClientError MaxRetriesExceeded)
            end), c0, w', (pre ++ evs).
    split.
    { rewrite Hget. unfold attempts, bind, get_self. rewrite Hrun.
      destruct r as [e|[d|]]; reflexivity. }
    split; [reflexivity|].
    split; [rewrite Htr, Htr0; now rewrite app_assoc|].
    rewrite sessions_opened_app, sessions_closed_app, Hop0, Hcl0, Hop, Hcl.
    split; [now rewrite app_nil_r|reflexivity].
  - unfold close, bind, get_self, emit, modify, log, ret.
    destruct (session c) as [[|]|] eqn:Hs.
    + exists c, w, []. rewrite app_nil_r, Hs. repeat split.
    + eexists _, _, _. split; [reflexivity|].
      split; [cbn [trace emit_w]; rewrite <- !app_assoc; reflexivity|].
      repeat split.
    + exists c, w, []. rewrite app_nil_r, Hs. repeat split.
Qed.

End GetTheorems.

Lemma get_returns_first_answer_witness :
  let env := sample_env (fun n => if Nat.eqb n 0 then unavailable else answered)
               (fun _ => inr 0%Q) (fun _ => inr []) in
  let c := HttpClient_init 30 5 2 in
  (Z.of_nat 1 < max_retries c
   /\ (forall i, (i < 1)%nat ->
         transient (http_reply env (http_calls world0 + i)))
   /\ answers (http_reply env (http_calls world0 + 1)) (Json "{}"))
  /\ exists w',
       get env "u" c world0 =
         (inr (Json "{}"),
          set_session (Some false) (set_last_request_time (Some 0%Q) c), w')
       /\ timeline (trace w') = [Attempt "u"; Nap 1; Attempt "u"].
Proof.
  cbv zeta.
  set (env := sample_env
                (fun n => if Nat.eqb n 0 then unavailable else answered)
                (fun _ => inr 0%Q) (fun _ => inr [])).
  assert (Hbudget : Z.of_nat 1 < max_retries (HttpClient_init 30 5 2))
    by (simpl; lia).
  assert (Hbefore : forall i, (i < 1)%nat ->
            transient (http_reply env (http_calls world0 + i))).
  { intros i Hi. assert (i = 0%nat) as -> by lia. simpl. lia. }
  assert (Hreply : answers (http_reply env (http_calls world0 + 1)) (Json "{}"))
    by (simpl; split; [lia|reflexivity]).
  split; [auto|].
  destruct (get_returns_first_answer env "u" _ world0 1 _ Hbudget Hbefore Hreply)
    as (w0 & w' & evs & Hpre & Hget & Htr & Htl & _).
  cbv zeta in Hpre, Hget.
  vm_compute in Hpre. injection Hpre as Hw0. subst w0.
  exists w'. rewrite Hget. split; [reflexivity|].
  rewrite Htr, timeline_app, Htl. reflexivity.
Defined.

Lemma get_reraises_last_transport_error_witness :
  let env := sample_env (fun _ => dropped) (fun _ => inr 0%Q)
               (fun _ => inr []) in
  let c := HttpClient_init 30 3 2 in
  (Z.of_nat 2 = max_retries c - 1
   /\ (forall i, (i < 2)%nat ->
         transient (http_reply env (http_calls world0 + i)))
   /\ transport_error (http_reply env (http_calls world0 + 2)) timed_out)
  /\ exists w',
       get env "u" c world0 =
         (inl timed_out,
          set_session (Some false) (set_last_request_time (Some 0%Q) c), w')
       /\ timeline (trace w') =
            [Attempt "u"; Nap 1; Attempt "u"; Nap 2; Attempt "u"].
Proof.
  cbv zeta.
  set (env := sample_env (fun _ => dropped) (fun _ => inr 0%Q)
                (fun _ => inr [])).
  assert (Hlast : Z.of_nat 2 = max_retries (HttpClient_init 30 3 2) - 1)
    by reflexivity.
  assert (Hbefore : forall i, (i < 2)%nat ->
            transient (http_reply env (http_calls world0 + i)))
    by (intros i _; simpl; auto).
  assert (Hreply :
            transport_error (http_reply env (http_calls world0 + 2)) timed_out)
    by (simpl; auto).
  split; [auto|].
  destruct (get_reraises_last_transport_error env "u" _ world0 2 _
              Hlast Hbefore Hreply)
    as (w0 & w' & evs & Hpre & Hget & Htr & Htl & _).
  cbv zeta in Hpre, Hget.
  vm_compute in Hpre. injection Hpre as Hw0. subst w0.
  exists w'. rewrite Hget. split; [reflexivity|].
  rewrite Htr, timeline_app, Htl. reflexivity.
Defined.

Lemma get_does_not_retry_other_errors_witness :
  let env := sample_env (fun n => if Nat.eqb n 0 then unavailable else not_json)
               (fun _ => inr 0%Q) (fun _ => inr []) in
  let c := HttpClient_init 30 5 2 in
  (Z.of_nat 1 < max_retries c
   /\ (forall i, (i < 1)%nat ->
         transient (http_reply env (http_calls world0 + i)))
   /\ fails_for_good (http_reply env (http_calls world0 + 1))
        (mkExn OtherError (Text "not JSON")))
  /\ exists w',
       get env "u" c world0 =
         (inl (mkExn OtherError (Text "not JSON")),
          set_session (Some false) (set_last_request_time (Some 0%Q) c), w')
       /\ timeline (trace w') = [Attempt "u"; Nap 1; Attempt "u"].
Proof.
  cbv zeta.
  set (env := sample_env
                (fun n => if Nat.eqb n 0 then unavailable else not_json)
                (fun _ => inr 0%Q) (fun _ => inr [])).
  assert (Hbudget : Z.of_nat 1 < max_retries (HttpClient_init 30 5 2))
    by (simpl; lia).
  assert (Hbefore : forall i, (i < 1)%nat ->
            transient (http_reply env (http_calls world0 + i))).
  { intros i Hi. assert (i = 0%nat) as -> by lia. simpl. lia. }
  assert (Hreply : fails_for_good (http_reply env (http_calls world0 + 1))
                     (mkExn OtherError (Text "not JSON")))
    by (simpl; split; [lia|split; reflexivity]).
  split; [auto|].
  destruct (get_does_not_retry_other_errors env "u" _ world0 1 _
              Hbudget Hbefore Hreply)
    as (w0 & w' & evs & Hpre & Hget & Htr & Htl & _).
  cbv zeta in Hpre, Hget.
  vm_compute in Hpre. injection Hpre as Hw0. subst w0.
  exists w'. rewrite Hget. split; [reflexivity|].
  rewrite Htr, timeline_app, Htl. reflexivity.
Defined.

(* ================================================================= *)
(** ** MovingAverage: the window after any number of additions *)

Lemma last_n_all {A : Type} (n : nat) (l : list A) :
  (List.length l <= n)%nat -> last_n n l = l.
Proof.
  intros Hle. unfold last_n.
  now replace (List.length l - n)%nat with 0%nat by lia.
Qed.

Lemma last_n_snoc {A : Type} (n : nat) (l : list A) (x : A) :
  last_n (S n) (l ++ [x]) = last_n n l ++ [x].
Proof.
  unfold last_n. rewrite length_app. cbn [List.length].
  replace (List.length l + 1 - S n)%nat with (List.length l - n)%nat by lia.
  rewrite skipn_app.
  replace (List.length l - n - List.length l)%nat with 0%nat by lia.
  reflexivity.
Qed.

Lemma length_last_n {A : Type} (n : nat) (l : list A) :
  List.length (last_n n l) = Nat.min n (List.length l).
Proof. unfold last_n. rewrite length_skipn. lia. Qed.

Lemma tl_last_n_succ {A : Type} (n : nat) (l : list A) :
  (n < List.length l)%nat -> tl (last_n (S n) l) = last_n n l.
Proof.
  intros Hlt. unfold last_n.
  replace (List.length l - n)%nat with (S (List.length l - S n)) by lia.
  generalize (List.length l - S n)%nat as k. clear Hlt.
  intros k. revert l. induction k as [|k IH]; intros l.
  - destruct l; reflexivity.
  - destruct l as [|x l]; [reflexivity|]. cbn [skipn]. apply IH.
Qed.

Section MovingAverageWindow.
Context {F : Type} `{Numeric F}.

(** One addition to a window that holds the last [n] of the samples
    [vs]: it then holds the last [n] of [vs ++ [v]]. *)
Lemma add_value_last_n (n : Z) (vs : list F) (v : F) :
  values
    (snd (add_value v {| window_size := n; values := last_n (Z.to_nat n) vs |}))
  = last_n (Z.to_nat n) (vs ++ [v]).
Proof.
  unfold add_value. cbn [window_size values].
  destruct (Z.ltb_spec n (len (last_n (Z.to_nat n) vs ++ [v]))) as [Hfull|Hroom];
    cbn [snd values];
    rewrite len_app, len_cons, len_nil in *; unfold len in *;
    rewrite length_last_n in *.
  - unfold pop0.
    destruct (Z.to_nat n) as [|k] eqn:Hk.
    + unfold last_n. rewrite !Nat.sub_0_r, !skipn_all. reflexivity.
    + assert (Hlen : (k < List.length vs)%nat) by lia.
      rewrite last_n_snoc. rewrite <- (tl_last_n_succ k vs Hlen).
      destruct (last_n (S k) vs) as [|x l] eqn:Hl.
      * apply (f_equal (@List.length F)) in Hl.
        rewrite length_last_n in Hl. cbn [List.length] in Hl. lia.
      * reflexivity.
  - assert (Hle : (List.length vs < Z.to_nat n)%nat) by lia.
    rewrite !last_n_all; [reflexivity| |lia].
    rewrite length_app. cbn [List.length]. lia.
Qed.

Lemma add_values_last_n (n : Z) (l0 vs : list F) :
  values (add_values vs (MovingAverage_init n l0)) = last_n (Z.to_nat n) vs
  /\ window_size (add_values vs (MovingAverage_init n l0)) = n.
Proof.
  induction vs as [|v vs IH] using rev_ind.
  - split; reflexivity.
  - destruct IH as [IHv IHw].
    unfold add_values in *. rewrite fold_left_app. cbn [fold_left].
    set (m := fold_left (fun m v => snd (add_value v m)) vs
                (MovingAverage_init n l0)) in *.
    rewrite window_size_add_value. split; [|exact IHw].
    replace m with {| window_size := n; values := last_n (Z.to_nat n) vs |}
      by (destruct m; cbn in *; congruence).
    apply add_value_last_n.
Qed.

(** After any additions, the window holds the last [window_size] samples
    added, in order (none when the size is 0 or less), and the average is
    their mean. *)
Theorem window_holds_last_samples (n : Z) (l0 vs : list F) :
  let m := add_values vs (MovingAverage_init n l0) in
  values m = last_n (Z.to_nat n) vs
  /\ window_size m = n
  /\ fst (get_average m) = mean (last_n (Z.to_nat n) vs)
  /\ len (values m) = Z.min (Z.max n 0) (len vs).
Proof.
  cbv zeta. destruct (add_values_last_n n l0 vs) as [Hv Hw].
  split; [exact Hv|]. split; [exact Hw|]. split.
  - now rewrite get_average_values, Hv.
  - rewrite Hv. unfold len. rewrite length_last_n. lia.
Qed.

End MovingAverageWindow.

(* ================================================================= *)
(** ** The price poller: what a cycle stores, adds and prints *)

Lemma price_stores_app (l1 l2 : list Event) :
  price_stores (l1 ++ l2) = price_stores l1 ++ price_stores l2.
Proof. apply pick_app. Qed.

Lemma printed_smas_app (l1 l2 : list Event) :
  printed_smas (l1 ++ l2) = printed_smas l1 ++ printed_smas l2.
Proof. apply pick_app. Qed.

Lemma shutdowns_app (l1 l2 : list Event) :
  shutdowns (l1 ++ l2) = shutdowns l1 ++ shutdowns l2.
Proof. apply pick_app. Qed.

Section PollEffects.
Variable env : Env.

(** The [try] suite of a cycle, with what it leaves behind. *)
Lemma poll_try_effects (s : Service) (w : World) :
  exists res s1 w1 evs,
    poll_try env s w = (res, s1, w1)
    /\ trace w1 = trace w ++ evs
    /\ cycles w1 = cycles w
    /\ running s1 = running s
    /\ config s1 = config s
    /\ http_client s1 = http_client s
    /\ consecutive_failures s1 =
         match res with inr _ => 0 | inl _ => consecutive_failures s end
    /\ price_fetches evs = ["bitcoin"%string]
    /\ shutdowns evs = []
    /\ price_stores evs =
         match poll_price env (cycles w) with
         | inr p => [("BTC"%string, p, clock w)]
         | inl _ => []
         end
    /\ moving_average s1 =
         match poll_price env (cycles w), poll_store env (cycles w) with
         | inr p, None => snd (add_value p (moving_average s))
         | _, _ => moving_average s
         end
    /\ match poll_price env (cycles w), poll_store env (cycles w) with
       | inr p, None =>
           let ma' := snd (add_value p (moving_average s)) in
           if window_size ma' <=? len (values ma') then
             match values ma' with
             | [] => printed_smas evs = [] /\ sleeps evs = []
                     /\ res = inl (mkExn TypeError FormatNone)
             | _ :: _ => printed_smas evs = [mean (values ma')]
                         /\ sleeps evs = [Config.poll_interval (config s)]
                         /\ res = inr tt
             end
           else printed_smas evs = [None]
                /\ sleeps evs = [Config.poll_interval (config s)]
                /\ res = inr tt
       | inl e, _ => printed_smas evs = [] /\ sleeps evs = [] /\ res = inl e
       | inr _, Some e => printed_smas evs = [] /\ sleeps evs = []
                          /\ res = inl e
       end.
Proof.
  unfold poll_try, bind, get_price, store_price, now. cbn [cycles emit_w clock].
  destruct (poll_price env (cycles w)) as [e|p].
  - eexists _, _, _, _. split; [reflexivity|]. repeat split.
  - cbn [cycles emit_w clock pd_price pd_symbol pd_timestamp].
    destruct (poll_store env (cycles w)) as [e|].
    + eexists _, _, _, _. split; [reflexivity|].
      split; [cbn [trace emit_w]; rewrite <- !app_assoc; reflexivity|].
      repeat split.
    + unfold on_moving_average, call, is_ready, get_average.
      destruct (add_value p (moving_average s)) as [[] ma'] eqn:Hadd.
      cbn [snd moving_average set_moving_average]. cbv zeta.
      destruct (window_size ma' <=? len (values ma')).
      * destruct (values ma') as [|x l] eqn:Hv;
          unfold ret, raise, print, log, emit, modify, get_self, sleep;
          cbn [moving_average set_moving_average set_consecutive_failures
               config naps emit_w];
          rewrite ?Hv;
          (eexists _, _, _, _; split; [reflexivity|];
           split; [cbn [trace emit_w count_nap_w advance_w];
                   rewrite <- !app_assoc; reflexivity|]; repeat split).
      * unfold ret, raise, print, log, emit, modify, get_self, sleep;
          cbn [moving_average set_moving_average set_consecutive_failures
               config naps emit_w].
        eexists _, _, _, _. split; [reflexivity|].
        split; [cbn [trace emit_w count_nap_w advance_w];
                rewrite <- !app_assoc; reflexivity|].
        repeat split.
Qed.

(** A whole cycle, with what it leaves behind. *)
Lemma poll_cycle_effects (s : Service) (w : World) :
  exists r s' w' evs failed,
    poll_cycle env s w = (inr r, s', w')
    /\ trace w' = trace w ++ evs
    /\ cycles w' = S (cycles w)
    /\ config s' = config s
    /\ http_client s' = http_client s
    /\ price_fetches evs = ["bitcoin"%string]
    /\ shutdowns evs = []
    /\ price_stores evs =
         match poll_price env (cycles w) with
         | inr p => [("BTC"%string, p, clock w)]
         | inl _ => []
         end
    /\ moving_average s' =
         match poll_price env (cycles w), poll_store env (cycles w) with
         | inr p, None => snd (add_value p (moving_average s))
         | _, _ => moving_average s
         end
    /\ (failed = true <->
        exists e s1 w1, poll_try env s w = (inl e, s1, w1))
    /\ (if failed : bool then
          consecutive_failures s' = consecutive_failures s + 1
          /\ printed_smas evs = []
          /\ if Config.max_consecutive_failures (config s)
                <=? consecutive_failures s + 1
             then r = Some tt /\ running s' = false /\ sleeps evs = []
             else r = None /\ running s' = running s
                  /\ sleeps evs =
                       [Qmin (py_pow2 (consecutive_failures s + 1 - 1)) 30]
        else
          consecutive_failures s' = 0
          /\ r = None /\ running s' = running s
          /\ sleeps evs = [Config.poll_interval (config s)]
          /\ exists p,
               poll_price env (cycles w) = inr p
               /\ poll_store env (cycles w) = None
               /\ let ma' := snd (add_value p (moving_average s)) in
                  printed_smas evs =
                    [if window_size ma' <=? len (values ma')
                     then mean (values ma') else None]).
Proof.
  destruct (poll_try_effects s w)
    as (res & s1 & w1 & evs1 & Htry & Htr & Hcy & Hrun & Hcfg & Hhc & Hcf
        & Hpf & Hsd & Hps & Hma & Hcase).
  unfold poll_cycle, bind, try_except. rewrite Htry.
  destruct res as [e|[]].
  - (* the try suite raised *)
    rewrite poll_except_run. cbv zeta. rewrite Hcfg, Hcf.
    assert (Hquiet : printed_smas evs1 = [] /\ sleeps evs1 = []).
    { destruct (poll_price env (cycles w)) as [e'|p];
        [|destruct (poll_store env (cycles w)) as [e'|]]; cbv zeta in Hcase.
      - tauto.
      - tauto.
      - destruct (_ <=? _); [destruct (values _)|];
          destruct Hcase as (H1 & H2 & H3); try discriminate; auto. }
    destruct Hquiet as [Hsm Hsl].
    destruct (Config.max_consecutive_failures (config s)
              <=? consecutive_failures s + 1).
    + eexists _, _, _, (evs1 ++ _), true. split; [reflexivity|].
      split; [cbn [trace count_cycle_w emit_w]; rewrite Htr, <- !app_assoc;
              reflexivity|].
      split; [cbn [cycles count_cycle_w emit_w]; congruence|].
      split; [exact Hcfg|]. split; [exact Hhc|].
      rewrite price_fetches_app, shutdowns_app, price_stores_app,
        printed_smas_app, sleeps_app, Hpf, Hsd, Hps, Hsm, Hsl.
      split; [reflexivity|]. split; [reflexivity|].
      split; [now rewrite app_nil_r|]. split; [exact Hma|].
      split; [split; [intros _; eauto|reflexivity]|].
      repeat split.
    + eexists _, _, _, (evs1 ++ _), true. split; [reflexivity|].
      split; [cbn [trace count_cycle_w count_nap_w advance_w emit_w];
              rewrite Htr, <- !app_assoc; reflexivity|].
      split; [cbn [cycles count_cycle_w count_nap_w advance_w emit_w];
              congruence|].
      split; [exact Hcfg|]. split; [exact Hhc|].
      rewrite price_fetches_app, shutdowns_app, price_stores_app,
        printed_smas_app, sleeps_app, Hpf, Hsd, Hps, Hsm, Hsl.
      split; [reflexivity|]. split; [reflexivity|].
      split; [now rewrite app_nil_r|]. split; [exact Hma|].
      split; [split; [intros _; eauto|reflexivity]|].
      repeat split. exact Hrun.
  - (* the try suite completed *)
    unfold continue, ret, end_of_cycle.
    exists None, s1, (count_cycle_w w1), evs1, false.
    split; [reflexivity|]. split; [exact Htr|].
    split; [cbn [cycles count_cycle_w]; congruence|].
    split; [exact Hcfg|]. split; [exact Hhc|]. split; [exact Hpf|].
    split; [exact Hsd|]. split; [exact Hps|]. split; [exact Hma|].
    split.
    { split; [discriminate|]. intros (e & s2 & w2 & Hraise). discriminate. }
    split; [exact Hcf|]. split; [reflexivity|]. split; [exact Hrun|].
    destruct (poll_price env (cycles w)) as [e'|p];
      [destruct Hcase as (_ & _ & Hres); discriminate|].
    destruct (poll_store env (cycles w)) as [e'|];
      [destruct Hcase as (_ & _ & Hres); discriminate|].
    cbv zeta in Hcase.
    destruct (window_size _ <=? len _) eqn:Hready.
    + destruct (values (snd (add_value p (moving_average s)))) as [|x l] eqn:Hv.
      * destruct Hcase as (_ & _ & Hres). discriminate.
      * destruct Hcase as (Hsm & Hsl & _). split; [exact Hsl|].
        exists p. split; [reflexivity|]. split; [reflexivity|].
        cbv zeta. rewrite Hv, Hready. exact Hsm.
    + destruct Hcase as (Hsm & Hsl & _). split; [exact Hsl|].
      exists p. split; [reflexivity|]. split; [reflexivity|].
      cbv zeta. rewrite Hready. exact Hsm.
Qed.

End PollEffects.

Section PollRuns.
Variable env : Env.
Variable cfg : Config.t.

(** For the poller's own service object, the [try] suite raises exactly
    in the cycles that [cycle_fails] names. *)
Lemma poll_try_raises_iff (s : Service) (w : World) :
  poller_ok cfg s ->
  (exists e s1 w1, poll_try env s w = (inl e, s1, w1)) <->
  cycle_fails env (Config.moving_average_window cfg) (cycles w) = true.
Proof.
  intros Hok. split.
  - intros (e & s1 & w1 & Hraise).
    destruct (cycle_fails env _ (cycles w)) eqn:Hf; [reflexivity|exfalso].
    unfold cycle_fails in Hf. destruct Hok as (_ & Hwin & _).
    destruct (poll_price env (cycles w)) as [e'|p] eqn:Hprice; [discriminate|].
    destruct (poll_store env (cycles w)) as [e'|] eqn:Hstore; [discriminate|].
    apply Z.leb_gt in Hf.
    destruct (poll_try_after_store env s w p Hprice Hstore)
      as (w3 & _ & Htry & _); [lia|].
    rewrite Htry in Hraise. discriminate.
  - intros Hf. destruct (poll_try_raises env cfg s w Hok Hf)
      as (e & s1 & w1 & _ & Hraise & _).
    now exists e, s1, w1.
Qed.

(** A cycle of the poller's own service object: the counter, the flag,
    and everything the cycle leaves behind. *)
Lemma poll_cycle_full (s : Service) (w : World) :
  poller_ok cfg s ->
  exists r s' w' evs,
    poll_cycle env s w = (inr r, s', w')
    /\ poller_ok cfg s'
    /\ trace w' = trace w ++ evs
    /\ cycles w' = S (cycles w)
    /\ http_client s' = http_client s
    /\ price_fetches evs = ["bitcoin"%string]
    /\ shutdowns evs = []
    /\ price_stores evs =
         match poll_price env (cycles w) with
         | inr p => [("BTC"%string, p, clock w)]
         | inl _ => []
         end
    /\ moving_average s' =
         match poll_price env (cycles w), poll_store env (cycles w) with
         | inr p, None => snd (add_value p (moving_average s))
         | _, _ => moving_average s
         end
    /\ (if cycle_fails env (Config.moving_average_window cfg) (cycles w) then
          consecutive_failures s' = consecutive_failures s + 1
          /\ printed_smas evs = []
          /\ if Config.max_consecutive_failures cfg
                <=? consecutive_failures s + 1
             then r = Some tt /\ running s' = false /\ sleeps evs = []
             else r = None /\ running s' = running s
                  /\ sleeps evs =
                       [Qmin (py_pow2 (consecutive_failures s + 1 - 1)) 30]
        else
          consecutive_failures s' = 0
          /\ r = None /\ running s' = running s
          /\ sleeps evs = [Config.poll_interval cfg]
          /\ exists p,
               poll_price env (cycles w) = inr p
               /\ poll_store env (cycles w) = None
               /\ let ma' := snd (add_value p (moving_average s)) in
                  printed_smas evs =
                    [if window_size ma' <=? len (values ma')
                     then mean (values ma') else None]).
Proof.
  intros Hok.
  destruct (poll_cycle_effects env s w)
    as (r & s' & w' & evs & failed & Hcycle & Htr & Hcy & Hcfg & Hhc & Hpf
        & Hsd & Hps & Hma & Hfailed & Hcase).
  destruct (poll_cycle_run env cfg s w Hok)
    as (r2 & s2 & w2 & evs2 & Hcycle2 & Hok2 & _).
  rewrite Hcycle in Hcycle2. injection Hcycle2 as <- <- <-.
  exists r, s', w', evs. split; [exact Hcycle|]. split; [exact Hok2|].
  split; [exact Htr|]. split; [exact Hcy|]. split; [exact Hhc|].
  split; [exact Hpf|]. split; [exact Hsd|]. split; [exact Hps|].
  split; [exact Hma|].
  rewrite (poll_try_raises_iff s w Hok) in Hfailed.
  destruct Hok as (Hc & _).
  destruct failed.
  - rewrite (proj1 Hfailed eq_refl). now rewrite Hc in Hcase.
  - destruct (cycle_fails env _ (cycles w)) eqn:Hf.
    + discriminate (proj2 Hfailed eq_refl).
    + now rewrite Hc in Hcase.
Qed.

Let t := Config.max_consecutive_failures cfg.
Let fails := cycle_fails env (Config.moving_average_window cfg).

(** The loop goes through [m] cycles when no SIGINT arrives before any of
    them and none of them is a failure that takes the counter to the
    threshold. *)
Lemma poll_loop_goes_on (m : nat) :
  forall (s : Service) (w : World) (fuel : nat),
    poller_ok cfg s ->
    running s = true ->
    (forall i, (i < m)%nat -> poll_sigint env (cycles w + i) = false) ->
    (forall i, (i < m)%nat -> fails (cycles w + i)%nat = true ->
       streak fails (consecutive_failures s) (cycles w) (S i) < t) ->
    exists s' w' evs,
      poll_loop env (m + fuel) s w = poll_loop env fuel s' w'
      /\ poller_ok cfg s'
      /\ running s' = true
      /\ consecutive_failures s' =
           streak fails (consecutive_failures s) (cycles w) m
      /\ http_client s' = http_client s
      /\ cycles w' = (cycles w + m)%nat
      /\ trace w' = trace w ++ evs
      /\ price_fetches evs = repeat "bitcoin"%string m
      /\ shutdowns evs = [].
Proof.
  induction m as [|m IH]; intros s w fuel Hok Hrun Hquiet Hunder.
  - exists s, w, []. rewrite app_nil_r, Nat.add_0_r.
    split; [reflexivity|]. split; [exact Hok|]. repeat split; auto.
  - destruct (IH s w (S fuel) Hok Hrun) as
      (s1 & w1 & evs1 & Hloop & Hok1 & Hrun1 & Hcf1 & Hhc1 & Hcy1 & Htr1
       & Hpf1 & Hsd1).
    { intros i Hi. apply Hquiet. lia. }
    { intros i Hi. apply Hunder. lia. }
    replace (S m + fuel)%nat with (m + S fuel)%nat by lia.
    rewrite Hloop. cbn [poll_loop].
    unfold bind at 1, deliver_sigint.
    rewrite Hcy1, (Hquiet m (Nat.lt_succ_diag_r m)).
    unfold bind at 1, get_self. rewrite Hrun1.
    destruct (poll_cycle_full s1 w1 Hok1)
      as (r & s2 & w2 & evs2 & Hcycle & Hok2 & Htr2 & Hcy2 & Hhc2 & Hpf2
          & Hsd2 & _ & _ & Hcase).
    unfold bind. rewrite Hcycle.
    specialize (Hunder m (Nat.lt_succ_diag_r m)). cbn [streak] in Hunder.
    rewrite Hcy1 in Hcase. fold fails in Hcase. fold t in Hcase.
    assert (Hr : r = None /\ running s2 = true
                 /\ consecutive_failures s2 =
                    streak fails (consecutive_failures s) (cycles w) (S m)).
    { cbn [streak]. destruct (fails (cycles w + m)%nat) eqn:Hf.
      - destruct Hcase as (Hcf2 & _ & Hstop).
        specialize (Hunder eq_refl). rewrite <- Hcf1 in Hunder.
        destruct (Z.leb_spec t (consecutive_failures s1 + 1)); [lia|].
        destruct Hstop as (-> & Hrun2 & _). repeat split; congruence.
      - destruct Hcase as (Hcf2 & -> & Hrun2 & _). repeat split; congruence. }
    destruct Hr as (-> & Hrun2 & Hcf2).
    exists s2, w2, (evs1 ++ evs2). split; [reflexivity|].
    split; [exact Hok2|]. split; [exact Hrun2|]. split; [exact Hcf2|].
    split; [congruence|]. split; [lia|].
    split; [rewrite Htr2, Htr1; now rewrite app_assoc|].
    rewrite price_fetches_app, shutdowns_app, Hpf1, Hpf2, Hsd1, Hsd2.
    split; [|reflexivity].
    replace (S m) with (m + 1)%nat by lia. now rewrite repeat_app.
Qed.

(** After [m] such cycles, a failure that takes the counter to the
    threshold ends the loop. *)
Lemma poll_loop_ends_on_threshold (m : nat) (s : Service) (w : World)
  (fuel : nat) :
  poller_ok cfg s ->
  running s = true ->
  (forall i, (i <= m)%nat -> poll_sigint env (cycles w + i) = false) ->
  (forall i, (i < m)%nat -> fails (cycles w + i)%nat = true ->
     streak fails (consecutive_failures s) (cycles w) (S i) < t) ->
  fails (cycles w + m)%nat = true ->
  t <= streak fails (consecutive_failures s) (cycles w) (S m) ->
  exists s' w' evs,
    poll_loop env (m + S fuel) s w = (inr true, s', w')
    /\ running s' = false
    /\ consecutive_failures s' =
         streak fails (consecutive_failures s) (cycles w) (S m)
    /\ http_client s' = http_client s
    /\ trace w' = trace w ++ evs
    /\ price_fetches evs = repeat "bitcoin"%string (S m)
    /\ shutdowns evs = [].
Proof.
  intros Hok Hrun Hquiet Hunder Hfail Hreach.
  destruct (poll_loop_goes_on m s w (S fuel) Hok Hrun) as
    (s1 & w1 & evs1 & Hloop & Hok1 & Hrun1 & Hcf1 & Hhc1 & Hcy1 & Htr1
     & Hpf1 & Hsd1).
  { intros i Hi. apply Hquiet. lia. }
  { exact Hunder. }
  rewrite Hloop. cbn [poll_loop].
  unfold bind at 1, deliver_sigint.
  rewrite Hcy1, (Hquiet m (Nat.le_refl m)).
  unfold bind at 1, get_self. rewrite Hrun1.
  destruct (poll_cycle_full s1 w1 Hok1)
    as (r & s2 & w2 & evs2 & Hcycle & Hok2 & Htr2 & Hcy2 & Hhc2 & Hpf2
        & Hsd2 & _ & _ & Hcase).
  unfold bind. rewrite Hcycle.
  rewrite Hcy1 in Hcase. fold fails in Hcase. fold t in Hcase.
  rewrite Hfail in Hcase. cbn [streak] in Hreach |- *. rewrite Hfail in *.
  destruct Hcase as (Hcf2 & _ & Hstop). rewrite <- Hcf1 in Hreach.
  destruct (Z.leb_spec t (consecutive_failures s1 + 1)); [|lia].
  destruct Hstop as (-> & Hrun2 & _).
  exists s2, w2, (evs1 ++ evs2). split; [reflexivity|].
  split; [exact Hrun2|]. split; [congruence|]. split; [congruence|].
  split; [rewrite Htr2, Htr1; now rewrite app_assoc|].
  rewrite price_fetches_app, shutdowns_app, Hpf1, Hpf2, Hsd1, Hsd2.
  split; [|reflexivity].
  replace (S m) with (m + 1)%nat by lia. now rewrite repeat_app.
Qed.


End PollRuns.

(** Once the loop is left, the poller closes the HTTP client, says so and
    returns. *)
Lemma start_price_poller_returns (env : Env) (fuel : nat) (s s' : Service)
  (w w' : World) :
  poll_loop env fuel (set_running true s)
    (emit_w (EvPrint PressCtrlC)
       (emit_w (EvPrint StartingPoller)
          (emit_w (EvLog INFO StartingPoller) w))) = (inr true, s', w') ->
  exists c' w'' evs,
    start_price_poller env fuel s w = (inr true, set_http_client c' s', w'')
    /\ session c' =
         match session (http_client s') with
         | Some false => Some true
         | other => other
         end
    /\ trace w'' = trace w' ++ evs
    /\ price_fetches evs = []
    /\ shutdowns evs = []
    /\ printed_smas evs = []
    /\ price_stores evs = []
    /\ exists closing,
         evs = closing ++ [EvLog INFO PollerStopped; EvPrint PollerStopped].
Proof.
  intros Hloop. rewrite start_price_poller_run. cbv zeta. rewrite Hloop.
  cbv [bind on_http_client zoom close get_self emit modify log print ret].
  destruct (session (http_client s')) as [[|]|] eqn:Hs.
  - eexists _, _, _. split; [reflexivity|]. split; [exact Hs|].
    split; [cbn [trace emit_w]; rewrite <- !app_assoc; reflexivity|].
    do 4 (split; [reflexivity|]). now exists [].
  - eexists _, _, _. split; [reflexivity|]. split; [reflexivity|].
    split; [cbn [trace emit_w]; rewrite <- !app_assoc; reflexivity|].
    do 4 (split; [reflexivity|]).
    now exists [EvCloseSession; EvLog DEBUG HttpSessionClosed].
  - eexists _, _, _. split; [reflexivity|]. split; [exact Hs|].
    split; [cbn [trace emit_w]; rewrite <- !app_assoc; reflexivity|].
    do 4 (split; [reflexivity|]). now exists [].
Qed.

Lemma poller_ok_running (cfg : Config.t) (s : Service) (b : bool) :
  poller_ok cfg s -> poller_ok cfg (set_running b s).
Proof. intros (? & ? & ?). repeat split; assumption. Qed.


Section PollerTheorems.
Variable env : Env.
Variable cfg : Config.t.

Let t := Config.max_consecutive_failures cfg.
Let fails := cycle_fails env (Config.moving_average_window cfg).


(** [start_price_poller] does not reset the counter.  Started on a
    service whose counter is already within one of the threshold (as it is
    after a stop on the threshold), the poller stops with its first cycle
    if that cycle fails, after a single fetch. *)
Theorem poller_restart_keeps_counter (s : Service) (w : World) (fuel : nat) :
  poller_ok cfg s ->
  (1 <= fuel)%nat ->
  poll_sigint env (cycles w) = false ->
  fails (cycles w) = true ->
  t <= consecutive_failures s + 1 ->
  exists s' w' evs,
    start_price_poller env fuel s w = (inr true, s', w')
    /\ running s' = false
    /\ consecutive_failures s' = consecutive_failures s + 1
    /\ trace w' = trace w ++ evs
    /\ price_fetches evs = ["bitcoin"%string].
Proof.
  intros Hok Hfuel Hquiet Hfail Hreach.
  set (w0 := emit_w (EvPrint PressCtrlC)
               (emit_w (EvPrint StartingPoller)
                  (emit_w (EvLog INFO StartingPoller) w))).
  destruct (poll_loop_ends_on_threshold env cfg 0 (set_running true s) w0
              (fuel - 1) (poller_ok_running cfg s true Hok) eq_refl)
    as (s1 & w1 & evs1 & Hloop & Hrun & Hcf & _ & Htr1 & Hpf1 & _).
  { intros i Hi. assert (i = 0%nat) as -> by lia.
    change (cycles w0) with (cycles w). now rewrite Nat.add_0_r. }
  { intros i Hi. lia. }
  { change (cycles w0) with (cycles w). now rewrite Nat.add_0_r. }
  { cbn [streak]. change (cycles w0) with (cycles w). rewrite Nat.add_0_r.
    fold fails. rewrite Hfail. exact Hreach. }
  replace (0 + S (fuel - 1))%nat with fuel in Hloop by lia.
  destruct (start_price_poller_returns env fuel s s1 w w1 Hloop)
    as (c' & w2 & evs2 & Hstart & _ & Htr2 & Hpf2 & _).
  exists (set_http_client c' s1), w2,
    ([EvLog INFO StartingPoller; EvPrint StartingPoller; EvPrint PressCtrlC]
     ++ evs1 ++ evs2).
  split; [exact Hstart|]. split; [exact Hrun|]. split.
  { cbn [consecutive_failures set_http_client]. rewrite Hcf. cbn [streak].
    change (cycles w0) with (cycles w). rewrite Nat.add_0_r. fold fails.
    now rewrite Hfail. }
  split.
  { rewrite Htr2, Htr1. unfold w0. cbn [trace emit_w].
    rewrite <- !app_assoc. reflexivity. }
  rewrite !price_fetches_app, Hpf1, Hpf2. reflexivity.
Qed.

(** A threshold of 1 or less (0 and negative values included): a new
    poller keeps polling as long as its cycles succeed, and stops with the
    first cycle that fails. *)
Theorem poller_threshold_at_most_one (w : World) (m : nat) :
  t <= 1 ->
  (forall i, (i < m)%nat ->
     poll_sigint env (cycles w + i) = false
     /\ fails (cycles w + i)%nat = false) ->
  (exists s' w' evs,
     start_price_poller env m (Service_init cfg) w = (inr false, s', w')
     /\ running s' = true
     /\ trace w' = trace w ++ evs
     /\ price_fetches evs = repeat "bitcoin"%string m)
  /\ (poll_sigint env (cycles w + m) = false ->
      fails (cycles w + m)%nat = true ->
      forall fuel, (m < fuel)%nat ->
        exists s' w' evs,
          start_price_poller env fuel (Service_init cfg) w = (inr true, s', w')
          /\ running s' = false
          /\ consecutive_failures s' = 1
          /\ trace w' = trace w ++ evs
          /\ price_fetches evs = repeat "bitcoin"%string (S m)).
Proof.
  intros Ht Hgood.
  set (w0 := emit_w (EvPrint PressCtrlC)
               (emit_w (EvPrint StartingPoller)
                  (emit_w (EvLog INFO StartingPoller) w))).
  set (s0 := set_running true (Service_init cfg)).
  assert (Hquiet : forall i, (i < m)%nat ->
            poll_sigint env (cycles w0 + i) = false)
    by (intros i Hi; apply (Hgood i Hi)).
  assert (Hunder : forall i, (i < m)%nat ->
            fails (cycles w0 + i)%nat = true ->
            streak fails (consecutive_failures s0) (cycles w0) (S i) < t).
  { intros i Hi Hf. destruct (Hgood i Hi) as [_ Hok].
    change (cycles w0) with (cycles w) in Hf. congruence. }
  split.
  - destruct (poll_loop_goes_on env cfg m s0 w0 0 (poller_ok_init cfg)
                eq_refl Hquiet Hunder)
      as (s' & w' & evs & Hloop & _ & Hrun & _ & _ & _ & Htr & Hpf & _).
    rewrite Nat.add_0_r in Hloop. cbn [poll_loop] in Hloop.
    unfold ret in Hloop.
    exists s', w', ([EvLog INFO StartingPoller; EvPrint StartingPoller;
                     EvPrint PressCtrlC] ++ evs).
    rewrite start_price_poller_run. cbv zeta. fold w0 s0. rewrite Hloop.
    split; [reflexivity|]. split; [exact Hrun|].
    split; [rewrite Htr; unfold w0; cbn [trace emit_w];
            rewrite <- !app_assoc; reflexivity|].
    rewrite price_fetches_app. exact Hpf.
  - intros Hsig Hfail fuel Hfuel.
    assert (Hstreak : streak fails (consecutive_failures s0) (cycles w0) (S m)
                      = 1).
    { cbn [streak]. change (cycles w0) with (cycles w). rewrite Hfail.
      destruct m as [|m']; [reflexivity|]. cbn [streak].
      destruct (Hgood m' (Nat.lt_succ_diag_r m')) as [_ Hok].
      now rewrite Hok. }
    destruct (poll_loop_ends_on_threshold env cfg m s0 w0 (fuel - S m)
                (poller_ok_init cfg) eq_refl)
      as (s1 & w1 & evs1 & Hloop & Hrun & Hcf & _ & Htr1 & Hpf1 & _).
    { intros i Hi. destruct (Nat.eq_dec i m) as [->|Hne]; [exact Hsig|].
      apply Hquiet. lia. }
    { exact Hunder. }
    { exact Hfail. }
    { fold fails. rewrite Hstreak. exact Ht. }
    replace (m + S (fuel - S m))%nat with fuel in Hloop by lia.
    destruct (start_price_poller_returns env fuel (Service_init cfg) s1 w w1
                Hloop)
      as (c' & w2 & evs2 & Hstart & _ & Htr2 & Hpf2 & _).
    exists (set_http_client c' s1), w2,
      ([EvLog INFO StartingPoller; EvPrint StartingPoller; EvPrint PressCtrlC]
       ++ evs1 ++ evs2).
    split; [exact Hstart|]. split; [exact Hrun|]. split.
    { cbn [consecutive_failures set_http_client]. rewrite Hcf.
      exact Hstreak. }
    split.
    { rewrite Htr2, Htr1. unfold w0. cbn [trace emit_w].
      rewrite <- !app_assoc. reflexivity. }
    rewrite !price_fetches_app, Hpf1, Hpf2. cbn. now rewrite app_nil_r.
Qed.

End PollerTheorems.


Lemma poller_restart_keeps_counter_witness :
  let env :=
    sample_env (fun _ => unavailable) (fun _ => inl timed_out)
      (fun _ => inr []) in
  let cfg := config_with_threshold 5 in
  let s := set_consecutive_failures 5 (Service_init cfg) in
  (poller_ok cfg s
   /\ (1 <= 3)%nat
   /\ poll_sigint env (cycles world0) = false
   /\ cycle_fails env (Config.moving_average_window cfg) (cycles world0) = true
   /\ Config.max_consecutive_failures cfg <= consecutive_failures s + 1)
  /\ exists s' w' evs,
       start_price_poller env 3 s world0 = (inr true, s', w')
       /\ running s' = false
       /\ consecutive_failures s' = consecutive_failures s + 1
       /\ trace w' = trace world0 ++ evs
       /\ price_fetches evs = ["bitcoin"%string].
Proof.
  cbv zeta.
  set (env := sample_env (fun _ => unavailable) (fun _ => inl timed_out)
                (fun _ => inr [])).
  set (cfg := config_with_threshold 5).
  set (s := set_consecutive_failures 5 (Service_init cfg)).
  assert (Hok : poller_ok cfg s).
  { split; [reflexivity|]. split; [reflexivity|]. intros _. reflexivity. }
  assert (Hfuel : (1 <= 3)%nat) by lia.
  assert (Hquiet : poll_sigint env (cycles world0) = false) by reflexivity.
  assert (Hfail : cycle_fails env (Config.moving_average_window cfg)
                    (cycles world0) = true) by reflexivity.
  assert (Hreach : Config.max_consecutive_failures cfg
                   <= consecutive_failures s + 1) by (cbn; lia).
  split; [auto|].
  exact (poller_restart_keeps_counter env cfg s world0 3
           Hok Hfuel Hquiet Hfail Hreach).
Defined.

Lemma poller_threshold_at_most_one_witness :
  let env :=
    sample_env (fun _ => unavailable)
      (fun n => if Nat.ltb n 2 then inr 100%Q else inl timed_out)
      (fun _ => inr []) in
  let cfg := config_with_threshold 1 in
  Config.max_consecutive_failures cfg <= 1
  /\ (exists s' w' evs,
        start_price_poller env 2 (Service_init cfg) world0 = (inr false, s', w')
        /\ running s' = true
        /\ trace w' = trace world0 ++ evs
        /\ price_fetches evs = repeat "bitcoin"%string 2)
  /\ (exists s' w' evs,
        start_price_poller env 7 (Service_init cfg) world0 = (inr true, s', w')
        /\ running s' = false
        /\ consecutive_failures s' = 1
        /\ trace w' = trace world0 ++ evs
        /\ price_fetches evs = repeat "bitcoin"%string 3).
Proof.
  cbv zeta.
  set (env := sample_env (fun _ => unavailable)
                (fun n => if Nat.ltb n 2 then inr 100%Q else inl timed_out)
                (fun _ => inr [])).
  set (cfg := config_with_threshold 1).
  assert (Ht : Config.max_consecutive_failures cfg <= 1) by (cbn; lia).
  split; [exact Ht|].
  destruct (poller_threshold_at_most_one env cfg world0 2 Ht) as [Hgo Hstop].
  { intros i Hi. destruct i as [|[|i]]; [now split|now split|lia]. }
  split; [exact Hgo|].
  apply Hstop; [reflexivity|reflexivity|lia].
Defined.

(* ================================================================= *)
(** ** The price poller: a run of successful cycles *)

Section PollAverages.
Variable env : Env.
Variable cfg : Config.t.
Variable prices : nat -> Q.

(** The tracker after the first [i] prices. *)
Let tracker (s : Service) (i : nat) : MovingAverage Q :=
  add_values (map prices (seq 0 i)) (moving_average s).

Lemma poll_loop_successes (m : nat) :
  forall (s : Service) (w : World) (fuel : nat),
    poller_ok cfg s ->
    running s = true ->
    0 < Config.moving_average_window cfg ->
    (forall i, (i < m)%nat ->
       poll_sigint env (cycles w + i) = false
       /\ poll_price env (cycles w + i) = inr (prices i)
       /\ poll_store env (cycles w + i) = None) ->
    exists s' w' evs,
      poll_loop env (m + fuel) s w = poll_loop env fuel s' w'
      /\ poller_ok cfg s'
      /\ running s' = true
      /\ cycles w' = (cycles w + m)%nat
      /\ trace w' = trace w ++ evs
      /\ moving_average s' = tracker s m
      /\ printed_smas evs =
           map (fun i =>
                  if window_size (tracker s (S i))
                       <=? len (values (tracker s (S i)))
                  then mean (values (tracker s (S i))) else None)
             (seq 0 m)
      /\ map fst (price_stores evs) =
           map (fun i => ("BTC"%string, prices i)) (seq 0 m)
      /\ sleeps evs = repeat (Config.poll_interval cfg) m
      /\ price_fetches evs = repeat "bitcoin"%string m.
Proof.
  induction m as [|m IH]; intros s w fuel Hok Hrun Hwin Hgood.
  - exists s, w, []. rewrite app_nil_r, Nat.add_0_r.
    split; [reflexivity|]. split; [exact Hok|]. repeat split; auto.
  - destruct (IH s w (S fuel) Hok Hrun Hwin) as
      (s1 & w1 & evs1 & Hloop & Hok1 & Hrun1 & Hcy1 & Htr1 & Hma1 & Hsm1
       & Hps1 & Hsl1 & Hpf1).
    { intros i Hi. apply Hgood. lia. }
    replace (S m + fuel)%nat with (m + S fuel)%nat by lia.
    rewrite Hloop. cbn [poll_loop].
    destruct (Hgood m (Nat.lt_succ_diag_r m)) as (Hsig & Hprice & Hstore).
    unfold bind at 1, deliver_sigint.
    rewrite Hcy1, Hsig.
    unfold bind at 1, get_self. rewrite Hrun1.
    destruct (poll_cycle_full env cfg s1 w1 Hok1)
      as (r & s2 & w2 & evs2 & Hcycle & Hok2 & Htr2 & Hcy2 & _ & Hpf2
          & _ & Hps2 & Hma2 & Hcase).
    unfold bind. rewrite Hcycle.
    rewrite Hcy1 in Hcase, Hps2, Hma2.
    unfold cycle_fails in Hcase. rewrite Hprice, Hstore in Hcase.
    rewrite Hprice in Hps2. rewrite Hprice, Hstore in Hma2.
    destruct (Z.leb_spec (Config.moving_average_window cfg) 0) as [Hle|_];
      [lia|].
    destruct Hcase as (_ & -> & Hrun2 & Hsl2 & p & Hp & _ & Hsm2).
    injection Hp as <-. cbv zeta in Hsm2.
    assert (Hnext : snd (add_value (prices m) (moving_average s1))
                    = tracker s (S m)).
    { rewrite Hma1. unfold tracker, add_values.
      rewrite seq_S, map_app, fold_left_app. reflexivity. }
    rewrite Hnext in Hsm2, Hma2.
    exists s2, w2, (evs1 ++ evs2). split; [reflexivity|].
    split; [exact Hok2|]. split; [congruence|]. split; [lia|].
    split; [rewrite Htr2, Htr1; now rewrite app_assoc|].
    split; [exact Hma2|].
    rewrite printed_smas_app, price_stores_app, sleeps_app, price_fetches_app.
    rewrite Hsm1, Hsm2, Hps2, Hsl1, Hsl2, Hpf1, Hpf2.
    rewrite !seq_S, !map_app, Hps1. cbn [map fst Nat.add].
    repeat split.
    + replace (S m) with (m + 1)%nat by lia. now rewrite repeat_app.
    + replace (S m) with (m + 1)%nat by lia. now rewrite repeat_app.
Qed.

(** The moving average on the price lines.  In a run of [m] cycles that
    all succeed, started on a new service with a window of [n > 0], every
    cycle stores its price and then sleeps for the poll interval; the line
    printed by cycle [i] carries a moving average exactly when at least [n]
    prices have been fetched by then, and that average is the mean of the
    last [n] of them. *)
Theorem poller_prints_average_of_full_window (w : World) (m : nat) :
  0 < Config.moving_average_window cfg ->
  (forall i, (i < m)%nat ->
     poll_sigint env (cycles w + i) = false
     /\ poll_price env (cycles w + i) = inr (prices i)
     /\ poll_store env (cycles w + i) = None) ->
  let n := Config.moving_average_window cfg in
  exists s' w' evs,
    start_price_poller env m (Service_init cfg) w = (inr false, s', w')
    /\ trace w' = trace w ++ evs
    /\ map fst (price_stores evs) =
         map (fun i => ("BTC"%string, prices i)) (seq 0 m)
    /\ printed_smas evs =
         map (fun i =>
                if n <=? Z.of_nat (S i)
                then mean (last_n (Z.to_nat n) (map prices (seq 0 (S i))))
                else None)
           (seq 0 m)
    /\ values (moving_average s') = last_n (Z.to_nat n) (map prices (seq 0 m))
    /\ sleeps evs = repeat (Config.poll_interval cfg) m.
Proof.
  intros Hwin Hgood n.
  set (w0 := emit_w (EvPrint PressCtrlC)
               (emit_w (EvPrint StartingPoller)
                  (emit_w (EvLog INFO StartingPoller) w))).
  set (s0 := set_running true (Service_init cfg)).
  destruct (poll_loop_successes m s0 w0 0 (poller_ok_init cfg) eq_refl Hwin
              Hgood)
    as (s' & w' & evs & Hloop & _ & _ & _ & Htr & Hma & Hsm & Hps & Hsl & _).
  rewrite Nat.add_0_r in Hloop. cbn [poll_loop] in Hloop. unfold ret in Hloop.
  exists s', w', ([EvLog INFO StartingPoller; EvPrint StartingPoller;
                   EvPrint PressCtrlC] ++ evs).
  rewrite start_price_poller_run. cbv zeta. fold w0 s0. rewrite Hloop.
  split; [reflexivity|].
  split; [rewrite Htr; unfold w0; cbn [trace emit_w];
          rewrite <- !app_assoc; reflexivity|].
  rewrite price_stores_app, printed_smas_app, sleeps_app.
  split; [exact Hps|]. split.
  - cbn [app]. change (printed_smas _ ++ printed_smas evs)
      with (printed_smas evs). rewrite Hsm. apply map_ext. intros i.
    unfold tracker, s0. cbn [moving_average set_running Service_init].
    destruct (add_values_last_n (Config.moving_average_window cfg) []
                (map prices (seq 0 (S i)))) as [Hv Hw].
    rewrite Hv, Hw. fold n. unfold len. rewrite length_last_n.
    rewrite length_map, length_seq.
    destruct (Z.leb_spec n (Z.of_nat (S i)));
      destruct (Z.leb_spec n (Z.of_nat (Nat.min (Z.to_nat n) (S i))));
      try reflexivity; unfold n in *; lia.
  - split; [|exact Hsl].
    rewrite Hma. unfold tracker, s0.
    cbn [moving_average set_running Service_init].
    apply add_values_last_n.
Qed.

End PollAverages.

Lemma poller_prints_average_of_full_window_witness :
  let prices := fun i : nat => inject_Z (Z.of_nat i) in
  let env :=
    sample_env (fun _ => unavailable) (fun i => inr (prices i))
      (fun _ => inr []) in
  let cfg := config_with_threshold 5 in
  0 < Config.moving_average_window cfg
  /\ exists s' w' evs,
       start_price_poller env 12 (Service_init cfg) world0 = (inr false, s', w')
       /\ trace w' = trace world0 ++ evs
       /\ map fst (price_stores evs) =
            map (fun i => ("BTC"%string, prices i)) (seq 0 12)
       /\ printed_smas evs =
            map (fun i =>
                   if 10 <=? Z.of_nat (S i)
                   then mean (last_n 10 (map prices (seq 0 (S i))))
                   else None)
              (seq 0 12)
       /\ values (moving_average s') = last_n 10 (map prices (seq 0 12))
       /\ sleeps evs = repeat 1%Q 12.
Proof.
  cbv zeta. split; [reflexivity|].
  apply (poller_prints_average_of_full_window
           (sample_env (fun _ => unavailable)
              (fun i => inr (inject_Z (Z.of_nat i))) (fun _ => inr []))
           (config_with_threshold 5)
           (fun i => inject_Z (Z.of_nat i)) world0 12).
  - reflexivity.
  - intros i _. repeat split.
Defined.

(* ================================================================= *)
(** ** The paged crawls: empty ranges and the summary line *)

Lemma reported_app (l1 l2 : list Event) :
  reported (l1 ++ l2) = reported l1 ++ reported l2.
Proof. apply pick_app. Qed.

Section CrawlReports.
Variable env : Env.

Lemma html_page_reports_nothing (page : Z) (acc : list Listing) (s : Service)
  (w : World) :
  exists r w' evs,
    html_page env page acc s w = (inr r, s, w')
    /\ batch_calls w' = batch_calls w
    /\ trace w' = trace w ++ evs
    /\ reported evs = [].
Proof.
  unfold html_page, try_except, bind, get_self, log, print, emit,
    get_listings_html, sleep, ret.
  cbn [naps emit_w advance_w count_nap_w batch_calls].
  destruct (page_html env page) as [e|listings].
  - eexists _, _, _. split; [reflexivity|]. split; [reflexivity|].
    split; [simpl; rewrite <- !app_assoc; reflexivity|]. reflexivity.
  - eexists _, _, _. split; [reflexivity|]. split; [reflexivity|].
    split; [simpl; rewrite <- !app_assoc; reflexivity|]. reflexivity.
Qed.

Lemma json_page_reports_nothing (per_page page : Z) (acc : list Listing)
  (s : Service) (w : World) :
  exists r w' evs,
    json_page env per_page page acc s w = (inr r, s, w')
    /\ batch_calls w' = batch_calls w
    /\ trace w' = trace w ++ evs
    /\ reported evs = [].
Proof.
  unfold json_page, try_except, bind, get_self, log, print, emit,
    get_listings, sleep, ret.
  cbn [naps emit_w advance_w count_nap_w batch_calls].
  destruct (page_json env page per_page) as [e|listings].
  - eexists _, _, _. split; [reflexivity|]. split; [reflexivity|].
    split; [simpl; rewrite <- !app_assoc; reflexivity|]. reflexivity.
  - eexists _, _, _. split; [reflexivity|]. split; [reflexivity|].
    split; [simpl; rewrite <- !app_assoc; reflexivity|]. reflexivity.
Qed.

Lemma page_loop_reports_nothing
  (body : Z -> list Listing -> M Service (list Listing)) (s : Service) :
  (forall page acc w,
     exists r w' evs,
       body page acc s w = (inr r, s, w')
       /\ batch_calls w' = batch_calls w
       /\ trace w' = trace w ++ evs
       /\ reported evs = []) ->
  forall (pages : list Z) (acc : list Listing) (w : World),
    exists r w' evs,
      for_fold pages acc body s w = (inr r, s, w')
      /\ batch_calls w' = batch_calls w
      /\ trace w' = trace w ++ evs
      /\ reported evs = [].
Proof.
  intros Hbody pages. induction pages as [|page pages IH]; intros acc w.
  - exists acc, w, []. rewrite app_nil_r. repeat split.
  - destruct (Hbody page acc w) as (r1 & w1 & evs1 & Hrun & Hb & Htr & Hrep).
    destruct (IH r1 w1) as (r & w' & evs & Hrest & Hb' & Htr' & Hrep').
    exists r, w', (evs1 ++ evs). cbn [for_fold]. unfold bind.
    rewrite Hrun, Hrest. split; [reflexivity|]. split; [congruence|].
    split; [rewrite Htr', Htr; now rewrite app_assoc|].
    now rewrite reported_app, Hrep, Hrep'.
Qed.

(** What the HTML crawl reports. *)
Lemma crawl_html_report (pages : Z) (s : Service) (w : World) :
  exists r w' evs,
    crawl_coinmarketcap_html env pages s w = (r, s, w')
    /\ trace w' = trace w ++ evs
    /\ batch_calls w' = S (batch_calls w)
    /\ reported evs =
         match r with
         | inr all_listings => [len all_listings]
         | inl _ => []
         end.
Proof.
  destruct (page_loop_reports_nothing (html_page env) s
              (fun page acc w => html_page_reports_nothing page acc s w)
              (py_range 1 (pages + 1)) []
              (emit_w (EvPrint (ScrapingHtmlRange pages))
                 (emit_w (EvLog INFO (StartingHtml pages)) w)))
    as (r1 & w1 & evs1 & Hloop & Hb & Htr & Hrep).
  cbn [trace emit_w] in Htr.
  unfold crawl_coinmarketcap_html, bind, log, print, emit, store_listings, ret.
  rewrite Hloop. cbv zeta.
  destruct (store_batch env (batch_calls w1)) as [e|].
  - eexists _, _, _. split; [reflexivity|].
    split; [cbn [trace emit_w count_batch_w]; rewrite Htr, <- !app_assoc;
            reflexivity|].
    split; [cbn [batch_calls emit_w count_batch_w]; now rewrite Hb|].
    cbn [app]. unfold reported in *. cbn [pick reported_of].
    rewrite pick_app, Hrep. reflexivity.
  - eexists _, _, _. split; [reflexivity|].
    split; [cbn [trace emit_w count_batch_w]; rewrite Htr, <- !app_assoc;
            reflexivity|].
    split; [cbn [batch_calls emit_w count_batch_w]; now rewrite Hb|].
    cbn [app]. unfold reported in *. cbn [pick reported_of].
    rewrite pick_app, Hrep. reflexivity.
Qed.

(** What the JSON crawl reports. *)
Lemma crawl_json_report (pages per_page : Z) (s : Service) (w : World) :
  exists r w' evs,
    crawl_coinmarketcap_json env pages per_page s w = (r, s, w')
    /\ trace w' = trace w ++ evs
    /\ batch_calls w' = S (batch_calls w)
    /\ reported evs =
         match r with
         | inr all_listings => [len all_listings]
         | inl _ => []
         end.
Proof.
  destruct (page_loop_reports_nothing (json_page env per_page) s
              (fun page acc w => json_page_reports_nothing per_page page acc s w)
              (py_range 1 (pages + 1)) []
              (emit_w (EvPrint (ScrapingJsonRange pages))
                 (emit_w (EvLog INFO (StartingJson pages)) w)))
    as (r1 & w1 & evs1 & Hloop & Hb & Htr & Hrep).
  cbn [trace emit_w] in Htr.
  unfold crawl_coinmarketcap_json, bind, log, print, emit, store_listings, ret.
  rewrite Hloop. cbv zeta.
  destruct (store_batch env (batch_calls w1)) as [e|].
  - eexists _, _, _. split; [reflexivity|].
    split; [cbn [trace emit_w count_batch_w]; rewrite Htr, <- !app_assoc;
            reflexivity|].
    split; [cbn [batch_calls emit_w count_batch_w]; now rewrite Hb|].
    cbn [app]. unfold reported in *. cbn [pick reported_of].
    rewrite pick_app, Hrep. reflexivity.
  - eexists _, _, _. split; [reflexivity|].
    split; [cbn [trace emit_w count_batch_w]; rewrite Htr, <- !app_assoc;
            reflexivity|].
    split; [cbn [batch_calls emit_w count_batch_w]; now rewrite Hb|].
    cbn [app]. unfold reported in *. cbn [pick reported_of].
    rewrite pick_app, Hrep. reflexivity.
Qed.

(** The summary line of a crawl.  "Scraped N coins" is printed only
    after [store_listings] has returned, and N is then the number of
    records that were handed to the storage and are returned; when the
    storage call raises, the crawl ends without a summary although every
    page was asked for. *)
Theorem crawl_reports_stored_count (pages per_page : Z) (s : Service)
  (w : World) :
  (exists r w' evs batch,
     crawl_coinmarketcap_html env pages s w = (r, s, w')
     /\ trace w' = trace w ++ evs
     /\ stored evs = [batch]
     /\ pages_fetched evs = py_range 1 (pages + 1)
     /\ match r with
        | inr all_listings =>
            all_listings = batch /\ reported evs = [len batch]
        | inl e =>
            store_batch env (batch_calls w) = Some e /\ reported evs = []
        end)
  /\ (exists r w' evs batch,
        crawl_coinmarketcap_json env pages per_page s w = (r, s, w')
        /\ trace w' = trace w ++ evs
        /\ stored evs = [batch]
        /\ pages_fetched evs = py_range 1 (pages + 1)
        /\ match r with
           | inr all_listings =>
               all_listings = batch /\ reported evs = [len batch]
           | inl e =>
               store_batch env (batch_calls w) = Some e /\ reported evs = []
           end).
Proof.
  split.
  - destruct (crawl_html_run env pages s w)
      as (w' & evs & Hrun & Htr & _ & Hpg & _ & Hso).
    destruct (crawl_html_report pages s w)
      as (r2 & w2 & evs2 & Hrun2 & Htr2 & _ & Hrep).
    cbv zeta in *. rewrite Hrun in Hrun2. injection Hrun2 as <- <-.
    rewrite Htr in Htr2. apply app_inv_head in Htr2. subst evs2.
    eexists _, w', evs, _. split; [exact Hrun|]. split; [exact Htr|].
    split; [exact Hso|]. split; [exact Hpg|].
    destruct (store_batch env (batch_calls w)); now split.
  - destruct (crawl_json_run env pages per_page s w)
      as (w' & evs & Hrun & Htr & _ & Hpg & _ & Hso).
    destruct (crawl_json_report pages per_page s w)
      as (r2 & w2 & evs2 & Hrun2 & Htr2 & _ & Hrep).
    cbv zeta in *. rewrite Hrun in Hrun2. injection Hrun2 as <- <-.
    rewrite Htr in Htr2. apply app_inv_head in Htr2. subst evs2.
    eexists _, w', evs, _. split; [exact Hrun|]. split; [exact Htr|].
    split; [exact Hso|]. split; [exact Hpg|].
    destruct (store_batch env (batch_calls w)); now split.
Qed.

(** A crawl of no page.  With [pages <= 0] the range is empty: no page
    is asked for and there is no suspension, yet [store_listings] is still
    called once, with the empty list, and the crawl returns the empty list
    (or raises what that call raised). *)
Theorem crawl_without_pages (pages per_page : Z) (s : Service) (w : World) :
  pages <= 0 ->
  (exists w' evs,
     crawl_coinmarketcap_html env pages s w =
       (match store_batch env (batch_calls w) with
        | None => inr []
        | Some e => inl e
        end, s, w')
     /\ trace w' = trace w ++ evs
     /\ crawl_steps evs = []
     /\ pages_logged_failed evs = []
     /\ stored evs = [[]])
  /\ (exists w' evs,
        crawl_coinmarketcap_json env pages per_page s w =
          (match store_batch env (batch_calls w) with
           | None => inr []
           | Some e => inl e
           end, s, w')
        /\ trace w' = trace w ++ evs
        /\ crawl_steps evs = []
        /\ pages_logged_failed evs = []
        /\ stored evs = [[]]).
Proof.
  intros Hpages.
  assert (Hrange : py_range 1 (pages + 1) = []) by (apply py_range_nil; lia).
  split.
  - destruct (crawl_html_run env pages s w)
      as (w' & evs & Hrun & Htr & Hst & _ & Hlg & Hso).
    cbv zeta in *. rewrite Hrange in *. exists w', evs.
    repeat split; assumption.
  - destruct (crawl_json_run env pages per_page s w)
      as (w' & evs & Hrun & Htr & Hst & _ & Hlg & Hso).
    cbv zeta in *. rewrite Hrange in *. exists w', evs.
    repeat split; assumption.
Qed.

End CrawlReports.

Lemma crawl_without_pages_witness :
  let env :=
    sample_env (fun _ => unavailable) (fun _ => inr 0%Q) (fun _ => inr []) in
  0 <= 0
  /\ exists w' evs,
       crawl_coinmarketcap_html env 0 (Service_init Config.default) world0 =
         (inr [], Service_init Config.default, w')
       /\ trace w' = trace world0 ++ evs
       /\ crawl_steps evs = []
       /\ pages_logged_failed evs = []
       /\ stored evs = [[]].
Proof.
  cbv zeta. split; [lia|].
  exact (proj1 (crawl_without_pages
                  (sample_env (fun _ => unavailable) (fun _ => inr 0%Q)
                     (fun _ => inr []))
                  0 20 (Service_init Config.default) world0
                  (Z.le_refl 0))).
Defined.

(* ================================================================= *)
(** ** compare_methods *)

Lemma crawl_steps_app (l1 l2 : list Event) :
  crawl_steps (l1 ++ l2) = crawl_steps l1 ++ crawl_steps l2.
Proof. apply pick_app. Qed.

Lemma stored_app (l1 l2 : list Event) :
  stored (l1 ++ l2) = stored l1 ++ stored l2.
Proof. apply pick_app. Qed.

Lemma Qlt_bool_nonzero (d : Q) : Qlt_bool 0 d = true -> Qeq_bool d 0 = false.
Proof.
  intros Hpos. apply Qlt_bool_iff in Hpos.
  destruct (Qeq_bool d 0) eqn:Heq; [|reflexivity].
  apply Qeq_bool_iff in Heq. lra.
Qed.

Section CompareRuns.
Variable env : Env.
Variable str : Z -> string.
Variable format_f : Z -> Q -> string.

(** Everything a crawl leaves behind, in one statement. *)
Lemma crawl_html_full (pages : Z) (s : Service) (w : World) :
  exists w' evs,
    crawl_coinmarketcap_html env pages s w =
      (match store_batch env (batch_calls w) with
       | None => inr (combined (page_html env) (py_range 1 (pages + 1)))
       | Some e => inl e
       end, s, w')
    /\ trace w' = trace w ++ evs
    /\ batch_calls w' = S (batch_calls w)
    /\ crawl_steps evs =
         steps_of_pages (page_html env)
           (Config.html_scraping_delay (config s)) (py_range 1 (pages + 1))
    /\ stored evs = [combined (page_html env) (py_range 1 (pages + 1))].
Proof.
  destruct (crawl_html_run env pages s w)
    as (w' & evs & Hrun & Htr & Hst & _ & _ & Hso).
  destruct (crawl_html_report env pages s w)
    as (r2 & w2 & evs2 & Hrun2 & _ & Hb & _).
  cbv zeta in *. rewrite Hrun in Hrun2. injection Hrun2 as <- <-.
  exists w', evs. repeat split; assumption.
Qed.

Lemma crawl_json_full (pages per_page : Z) (s : Service) (w : World) :
  exists w' evs,
    crawl_coinmarketcap_json env pages per_page s w =
      (match store_batch env (batch_calls w) with
       | None =>
           inr (combined (fun page => page_json env page per_page)
                  (py_range 1 (pages + 1)))
       | Some e => inl e
       end, s, w')
    /\ trace w' = trace w ++ evs
    /\ batch_calls w' = S (batch_calls w)
    /\ crawl_steps evs =
         steps_of_pages (fun page => page_json env page per_page)
           (Config.json_api_delay (config s)) (py_range 1 (pages + 1))
    /\ stored evs =
         [combined (fun page => page_json env page per_page)
            (py_range 1 (pages + 1))].
Proof.
  destruct (crawl_json_run env pages per_page s w)
    as (w' & evs & Hrun & Htr & Hst & _ & _ & Hso).
  destruct (crawl_json_report env pages per_page s w)
    as (r2 & w2 & evs2 & Hrun2 & _ & Hb & _).
  cbv zeta in *. rewrite Hrun in Hrun2. injection Hrun2 as <- <-.
  exists w', evs. repeat split; assumption.
Qed.

(** The whole of [compare_methods], by what the two storage calls do. *)
Lemma compare_methods_run (s : Service) (w : World) :
  let hb := combined (page_html env) [1; 2] in
  let jb := combined (fun page => page_json env page 50) [1; 2] in
  let hsteps :=
    steps_of_pages (page_html env) (Config.html_scraping_delay (config s))
      [1; 2] in
  let jsteps :=
    steps_of_pages (fun page => page_json env page 50)
      (Config.json_api_delay (config s)) [1; 2] in
  exists r w' evs,
    compare_methods env str format_f s w = (r, s, w')
    /\ trace w' = trace w ++ evs
    /\ match store_batch env (batch_calls w) with
       | Some e =>
           r = inl e /\ crawl_steps evs = hsteps /\ stored evs = [hb]
       | None =>
           crawl_steps evs = hsteps ++ Delay 2 :: jsteps
           /\ stored evs = [hb; jb]
           /\ match store_batch env (S (batch_calls w)) with
              | Some e => r = inl e
              | None =>
                  exists c before,
                    r = inr c
                    /\ records (html_method c) = len hb
                    /\ records (json_method c) = len jb
                    /\ guarded_rate (html_method c)
                    /\ guarded_rate (json_method c)
                    /\ evs =
                         before
                         ++ [EvPrint (Message (Text (verdict_line format_f c)))]
              end
       end.
Proof.
  cbv zeta.
  set (w0 := emit_w (EvPrint (Message (Text "Comparing HTML vs JSON methods...")))
               w).
  destruct (crawl_html_full 2 s w0)
    as (w1 & evs1 & Hhtml & Htr1 & Hb1 & Hst1 & Hso1).
  change (py_range 1 (2 + 1)) with [1; 2] in *.
  change (batch_calls w0) with (batch_calls w) in *.
  unfold compare_methods.
  unfold bind at 1, print_text at 1, print, emit. fold w0.
  unfold bind at 1, now at 1.
  unfold bind at 1. rewrite Hhtml.
  destruct (store_batch env (batch_calls w)) as [e|].
  - exists (inl e), w1, (EvPrint (Message (Text "Comparing HTML vs JSON methods..."))
                        :: evs1).
    split; [reflexivity|]. split.
    { rewrite Htr1. unfold w0. cbn [trace emit_w]. now rewrite <- app_assoc. }
    split; [reflexivity|]. split; assumption.
  - unfold bind at 1, now at 1.
    unfold bind at 1, sleep at 1.
    set (w2 := count_nap_w _).
    unfold bind at 1, now at 1.
    destruct (crawl_json_full 2 50 s w2)
      as (w3 & evs3 & Hjson & Htr3 & Hb3 & Hst3 & Hso3).
    change (py_range 1 (2 + 1)) with [1; 2] in *.
    change (batch_calls w2) with (batch_calls w1) in *.
    rewrite Hb1 in Hjson.
    assert (Htr : trace w3 =
                  trace w
                  ++ (EvPrint (Message (Text "Comparing HTML vs JSON methods..."))
                      :: evs1 ++ EvSleep 2 :: evs3)).
    { rewrite Htr3. unfold w2. cbn [trace count_nap_w advance_w emit_w].
      rewrite Htr1. unfold w0. cbn [trace emit_w].
      rewrite <- !app_assoc. reflexivity. }
    assert (Hsteps : forall tail,
              crawl_steps tail = [] ->
              crawl_steps
                ((EvPrint (Message (Text "Comparing HTML vs JSON methods..."))
                  :: evs1 ++ EvSleep 2 :: evs3) ++ tail) =
              steps_of_pages (page_html env)
                (Config.html_scraping_delay (config s)) [1; 2]
              ++ Delay 2
                 :: steps_of_pages (fun page => page_json env page 50)
                      (Config.json_api_delay (config s)) [1; 2]).
    { intros tail Htail.
      change (EvPrint (Message (Text "Comparing HTML vs JSON methods..."))
              :: evs1 ++ EvSleep 2 :: evs3)
        with ([EvPrint (Message (Text "Comparing HTML vs JSON methods..."))]
              ++ evs1 ++ [EvSleep 2] ++ evs3).
      rewrite !crawl_steps_app, Hst1, Hst3, Htail, app_nil_r. reflexivity. }
    assert (Hstored : forall tail,
              stored tail = [] ->
              stored
                ((EvPrint (Message (Text "Comparing HTML vs JSON methods..."))
                  :: evs1 ++ EvSleep 2 :: evs3) ++ tail) =
              [combined (page_html env) [1; 2];
               combined (fun page => page_json env page 50) [1; 2]]).
    { intros tail Htail.
      change (EvPrint (Message (Text "Comparing HTML vs JSON methods..."))
              :: evs1 ++ EvSleep 2 :: evs3)
        with ([EvPrint (Message (Text "Comparing HTML vs JSON methods..."))]
              ++ evs1 ++ [EvSleep 2] ++ evs3).
      rewrite !stored_app, Hso1, Hso3, Htail. reflexivity. }
    unfold bind at 1. rewrite Hjson.
    destruct (store_batch env (S (batch_calls w))) as [e|].
    + exists (inl e), w3,
        ((EvPrint (Message (Text "Comparing HTML vs JSON methods..."))
          :: evs1 ++ EvSleep 2 :: evs3) ++ []).
      split; [reflexivity|].
      split; [rewrite app_nil_r; exact Htr|].
      split; [now apply Hsteps|]. split; [now apply Hstored|reflexivity].
    + unfold bind at 1, now at 1.
      set (hb := combined (page_html env) [1; 2]) in *.
      set (jb := combined (fun page => page_json env page 50) [1; 2]) in *.
      set (d1 := (clock w1 - clock w0)%Q).
      set (d2 := (clock w3 - clock w2)%Q).
      assert (Hrate : forall (n : Z) (d : Q) (k : Q -> M Service Comparison),
                bind (if Qlt_bool 0 d then truediv (inject_Z n) d else ret 0%Q)
                  k s w3 =
                k (if Qlt_bool 0 d then (inject_Z n / d)%Q else 0%Q) s w3).
      { intros n d k. unfold bind, truediv.
        destruct (Qlt_bool 0 d) eqn:Hd; [|reflexivity].
        now rewrite (Qlt_bool_nonzero d Hd). }
      rewrite Hrate, Hrate.
      set (r1 := if Qlt_bool 0 d1 then (inject_Z (len hb) / d1)%Q else 0%Q).
      set (r2 := if Qlt_bool 0 d2 then (inject_Z (len jb) / d2)%Q else 0%Q).
      unfold bind, print_text, print, emit, truediv, ret.
      destruct (Qlt_bool 0 r1) eqn:Hr1.
      * rewrite (Qlt_bool_nonzero r1 Hr1).
        eexists _, _, _. split; [reflexivity|].
        split; [cbn [trace emit_w]; rewrite Htr, <- !app_assoc; reflexivity|].
        split; [now apply Hsteps|]. split; [now apply Hstored|].
        eexists _, _. split; [reflexivity|].
        split; [reflexivity|]. split; [reflexivity|].
        split; [reflexivity|]. split; [reflexivity|].
        unfold verdict_line. cbn [records_per_second html_method json_method].
        rewrite Hr1. rewrite !app_assoc. reflexivity.
      * eexists _, _, _. split; [reflexivity|].
        split; [cbn [trace emit_w]; rewrite Htr, <- !app_assoc; reflexivity|].
        split; [now apply Hsteps|]. split; [now apply Hstored|].
        eexists _, _. split; [reflexivity|].
        split; [reflexivity|]. split; [reflexivity|].
        split; [reflexivity|]. split; [reflexivity|].
        unfold verdict_line. cbn [records_per_second html_method json_method].
        rewrite Hr1. rewrite !app_assoc. reflexivity.
Qed.

(** The rate is positive exactly when there are records and the
    duration is positive. *)
Lemma guarded_rate_positive (m : MethodStats) :
  guarded_rate m ->
  Qlt_bool 0 (records_per_second m)
  = (0 <? records m) && Qlt_bool 0 (duration m).
Proof.
  unfold guarded_rate. intros ->.
  destruct (Qlt_bool 0 (duration m)) eqn:Hd.
  - rewrite andb_true_r. apply Qlt_bool_iff in Hd.
    destruct (Z.ltb_spec 0 (records m)) as [Hpos|Hle].
    + apply Qlt_bool_iff. apply Qlt_shift_div_l; [exact Hd|].
      rewrite Qmult_0_l. change 0%Q with (inject_Z 0).
      now rewrite <- Zlt_Qlt.
    + apply Qlt_bool_false. apply Qle_shift_div_r; [exact Hd|].
      rewrite Qmult_0_l. change 0%Q with (inject_Z 0).
      now rewrite <- Zle_Qle.
  - now rewrite andb_false_r.
Qed.

(** [compare_methods] crawls pages 1 and 2 as HTML first.  If the
    storage call of that crawl raises, [compare_methods] ends there with
    that exception: there is no pause and no JSON page is asked for.
    Otherwise it pauses for 2 seconds and crawls pages 1 and 2 through the
    JSON API with 50 records a page, so two batches are handed to the
    storage, in that order. *)
Theorem compare_methods_html_then_json (s : Service) (w : World) :
  let hb := combined (page_html env) [1; 2] in
  let jb := combined (fun page => page_json env page 50) [1; 2] in
  let hsteps :=
    steps_of_pages (page_html env) (Config.html_scraping_delay (config s))
      [1; 2] in
  let jsteps :=
    steps_of_pages (fun page => page_json env page 50)
      (Config.json_api_delay (config s)) [1; 2] in
  exists r w' evs,
    compare_methods env str format_f s w = (r, s, w')
    /\ trace w' = trace w ++ evs
    /\ match store_batch env (batch_calls w) with
       | Some e =>
           r = inl e /\ crawl_steps evs = hsteps /\ stored evs = [hb]
       | None =>
           crawl_steps evs = hsteps ++ Delay 2 :: jsteps
           /\ stored evs = [hb; jb]
       end.
Proof.
  cbv zeta.
  destruct (compare_methods_run s w) as (r & w' & evs & Hrun & Htr & Hcase).
  cbv zeta in Hcase. exists r, w', evs.
  split; [exact Hrun|]. split; [exact Htr|].
  destruct (store_batch env (batch_calls w)); [exact Hcase|].
  destruct Hcase as (Hst & Hso & _). now split.
Qed.

(** [compare_methods] raises only what one of its two storage calls
    raised: its divisions are guarded, so no duration and no record count
    makes it raise.  When it returns, the record counts are those of the
    two crawls, and each rate is the count over the duration, or 0 when the
    duration is not positive. *)
Theorem compare_methods_raises_only_storage_errors (s : Service) (w : World) :
  exists r w' evs,
    compare_methods env str format_f s w = (r, s, w')
    /\ trace w' = trace w ++ evs
    /\ match r with
       | inl e =>
           store_batch env (batch_calls w) = Some e
           \/ (store_batch env (batch_calls w) = None
               /\ store_batch env (S (batch_calls w)) = Some e)
       | inr c =>
           store_batch env (batch_calls w) = None
           /\ store_batch env (S (batch_calls w)) = None
           /\ records (html_method c) = len (combined (page_html env) [1; 2])
           /\ records (json_method c) =
                len (combined (fun page => page_json env page 50) [1; 2])
           /\ guarded_rate (html_method c)
           /\ guarded_rate (json_method c)
       end.
Proof.
  destruct (compare_methods_run s w) as (r & w' & evs & Hrun & Htr & Hcase).
  cbv zeta in Hcase. exists r, w', evs.
  split; [exact Hrun|]. split; [exact Htr|].
  destruct (store_batch env (batch_calls w)) as [e|].
  - destruct Hcase as (-> & _). now left.
  - destruct Hcase as (_ & _ & Hcase).
    destruct (store_batch env (S (batch_calls w))) as [e|].
    + subst r. right. now split.
    + destruct Hcase as (c & before & -> & Hh & Hj & Hrh & Hrj & _).
      repeat split; assumption.
Qed.

(** The last line of the comparison.  When both storage calls succeed,
    the last thing [compare_methods] prints is "JSON is ...x faster", with
    the ratio of the two rates, exactly when the HTML crawl returned at
    least one record in a positive time; otherwise, in particular when the
    HTML crawl found nothing, it prints "JSON method succeeded", whatever
    the JSON crawl returned. *)
Theorem compare_methods_verdict (s : Service) (w : World) :
  store_batch env (batch_calls w) = None ->
  store_batch env (S (batch_calls w)) = None ->
  exists c w' before line,
    compare_methods env str format_f s w = (inr c, s, w')
    /\ trace w' = trace w ++ before ++ [EvPrint (Message (Text line))]
    /\ line =
         (if (0 <? len (combined (page_html env) [1; 2]))
             && Qlt_bool 0 (duration (html_method c))
          then fstring ["JSON is "%string;
                        format_f 1 (records_per_second (json_method c)
                                    / records_per_second (html_method c))%Q;
                        "x faster"%string]
          else "JSON method succeeded"%string).
Proof.
  intros Hfirst Hsecond.
  destruct (compare_methods_run s w) as (r & w' & evs & Hrun & Htr & Hcase).
  cbv zeta in Hcase. rewrite Hfirst, Hsecond in Hcase.
  destruct Hcase as (_ & _ & c & before & -> & Hh & _ & Hrh & _ & Hevs).
  exists c, w', before, (verdict_line format_f c).
  split; [exact Hrun|]. split; [now rewrite Htr, Hevs|].
  unfold verdict_line. now rewrite (guarded_rate_positive _ Hrh), Hh.
Qed.

End CompareRuns.

Lemma compare_methods_verdict_witness :
  let env :=
    sample_env (fun _ => unavailable) (fun _ => inr 0%Q)
      (fun _ => inl timed_out) in
  let s := Service_init Config.default in
  (store_batch env (batch_calls world0) = None
   /\ store_batch env (S (batch_calls world0)) = None)
  /\ exists c w' before line,
       compare_methods env (fun _ => "n"%string) (fun _ _ => "x"%string)
         s world0 = (inr c, s, w')
       /\ trace w' = trace world0 ++ before ++ [EvPrint (Message (Text line))]
       /\ line =
            (if (0 <? len (combined (page_html env) [1; 2]))
                && Qlt_bool 0 (duration (html_method c))
             then fstring ["JSON is "%string;
                           (fun (_ : Z) (_ : Q) => "x"%string) 1
                             (records_per_second (json_method c)
                              / records_per_second (html_method c))%Q;
                           "x faster"%string]
             else "JSON method succeeded"%string).
Proof.
  cbv zeta. split; [split; reflexivity|].
  exact (compare_methods_verdict
           (sample_env (fun _ => unavailable) (fun _ => inr 0%Q)
              (fun _ => inl timed_out))
           (fun _ => "n"%string) (fun _ _ => "x"%string)
           (Service_init Config.default) world0 eq_refl eq_refl).
Defined.

(* ================================================================= *)
(** ** CrawlerConfig.validate *)




Section ValidateFacts.
Variable upper : string -> string.


(** [validate] reads six settings only.  Two configurations that agree
    on them get the same list of errors, whatever their failure threshold,
    delays, request rate, page counts, URLs, data directory and log
    format: none of these is ever rejected. *)
Theorem validate_reads_six_settings (a b : CrawlerConfig.t) :
  CrawlerConfig.same_validated_settings upper a b ->
  CrawlerConfig.validate upper a = CrawlerConfig.validate upper b.
Proof.
  intros (H1 & H2 & H3 & H4 & H5 & H6).
  unfold CrawlerConfig.validate. now rewrite H1, H2, H3, H4, H5, H6.
Qed.

End ValidateFacts.

Lemma validate_reads_six_settings_witness :
  let upper := fun level : string => level in
  let a := CrawlerConfig.default in
  let b :=
    {| CrawlerConfig.http_timeout := 30;
       CrawlerConfig.http_max_retries := 5;
       CrawlerConfig.poll_interval := 1;
       CrawlerConfig.max_consecutive_failures := 0;
       CrawlerConfig.html_scraping_delay := - (1);
       CrawlerConfig.json_api_delay := - (1);
       CrawlerConfig.moving_average_window := 10;
       CrawlerConfig.storage_type := "csv";
       CrawlerConfig.data_directory := "elsewhere";
       CrawlerConfig.requests_per_second := 0;
       CrawlerConfig.coingecko_base_url := "x";
       CrawlerConfig.coinmarketcap_base_url := "y";
       CrawlerConfig.coinmarketcap_api_url := "z";
       CrawlerConfig.log_level := "INFO";
       CrawlerConfig.log_format := "%(message)s";
       CrawlerConfig.cmc_pages_per_scrape := 0;
       CrawlerConfig.cmc_coins_per_page := - 3 |} in
  CrawlerConfig.same_validated_settings upper a b
  /\ CrawlerConfig.validate upper a = CrawlerConfig.validate upper b
  /\ CrawlerConfig.validate upper b = [].
Proof.
  cbv zeta.
  assert (Hsame : CrawlerConfig.same_validated_settings (fun level => level)
                    CrawlerConfig.default
                    {| CrawlerConfig.http_timeout := 30;
                       CrawlerConfig.http_max_retries := 5;
                       CrawlerConfig.poll_interval := 1;
                       CrawlerConfig.max_consecutive_failures := 0;
                       CrawlerConfig.html_scraping_delay := - (1);
                       CrawlerConfig.json_api_delay := - (1);
                       CrawlerConfig.moving_average_window := 10;
                       CrawlerConfig.storage_type := "csv";
                       CrawlerConfig.data_directory := "elsewhere";
                       CrawlerConfig.requests_per_second := 0;
                       CrawlerConfig.coingecko_base_url := "x";
                       CrawlerConfig.coinmarketcap_base_url := "y";
                       CrawlerConfig.coinmarketcap_api_url := "z";
                       CrawlerConfig.log_level := "INFO";
                       CrawlerConfig.log_format := "%(message)s";
                       CrawlerConfig.cmc_pages_per_scrape := 0;
                       CrawlerConfig.cmc_coins_per_page := - 3 |})
    by (repeat split).
  split; [exact Hsame|].
  split; [exact (validate_reads_six_settings _ _ _ Hsame)|reflexivity].
Defined.

(* ================================================================= *)
(** ** The price poller: a run of failed cycles *)

Section PollFailures.
Variable env : Env.
Variable cfg : Config.t.

Let t := Config.max_consecutive_failures cfg.
Let fails := cycle_fails env (Config.moving_average_window cfg).

(** [m] failed cycles that leave the counter under the threshold. *)
Lemma poll_loop_failures (m : nat) :
  forall (s : Service) (w : World) (fuel : nat),
    poller_ok cfg s ->
    running s = true ->
    (forall i, (i < m)%nat -> poll_sigint env (cycles w + i) = false) ->
    (forall i, (i < m)%nat -> fails (cycles w + i)%nat = true) ->
    consecutive_failures s + Z.of_nat m < t ->
    exists s' w' evs,
      poll_loop env (m + fuel) s w = poll_loop env fuel s' w'
      /\ poller_ok cfg s'
      /\ running s' = true
      /\ consecutive_failures s' = consecutive_failures s + Z.of_nat m
      /\ cycles w' = (cycles w + m)%nat
      /\ trace w' = trace w ++ evs
      /\ price_fetches evs = repeat "bitcoin"%string m
      /\ printed_smas evs = []
      /\ map fst (price_stores evs) =
           flat_map (fun i => price_of_cycle env (cycles w + i)) (seq 0 m).
Proof.
  induction m as [|m IH]; intros s w fuel Hok Hrun Hquiet Hfails Hunder.
  - exists s, w, []. rewrite app_nil_r, Nat.add_0_r, Z.add_0_r.
    split; [reflexivity|]. split; [exact Hok|]. repeat split; auto.
  - destruct (IH s w (S fuel) Hok Hrun) as
      (s1 & w1 & evs1 & Hloop & Hok1 & Hrun1 & Hcf1 & Hcy1 & Htr1 & Hpf1
       & Hsm1 & Hps1).
    { intros i Hi. apply Hquiet. lia. }
    { intros i Hi. apply Hfails. lia. }
    { lia. }
    replace (S m + fuel)%nat with (m + S fuel)%nat by lia.
    rewrite Hloop. cbn [poll_loop].
    unfold bind at 1, deliver_sigint.
    rewrite Hcy1, (Hquiet m (Nat.lt_succ_diag_r m)).
    unfold bind at 1, get_self. rewrite Hrun1.
    destruct (poll_cycle_full env cfg s1 w1 Hok1)
      as (r & s2 & w2 & evs2 & Hcycle & Hok2 & Htr2 & Hcy2 & _ & Hpf2
          & _ & Hps2 & _ & Hcase).
    unfold bind. rewrite Hcycle.
    rewrite Hcy1 in Hcase, Hps2. fold fails in Hcase. fold t in Hcase.
    rewrite (Hfails m (Nat.lt_succ_diag_r m)) in Hcase.
    destruct Hcase as (Hcf2 & Hsm2 & Hstop).
    destruct (Z.leb_spec t (consecutive_failures s1 + 1)); [lia|].
    destruct Hstop as (-> & Hrun2 & _).
    exists s2, w2, (evs1 ++ evs2). split; [reflexivity|].
    split; [exact Hok2|]. split; [congruence|]. split; [lia|].
    split; [lia|].
    split; [rewrite Htr2, Htr1; now rewrite app_assoc|].
    rewrite price_fetches_app, printed_smas_app, price_stores_app, map_app.
    rewrite Hpf1, Hpf2, Hsm1, Hsm2, Hps1, Hps2.
    split; [replace (S m) with (m + 1)%nat by lia; now rewrite repeat_app|].
    split; [reflexivity|].
    rewrite seq_S, flat_map_app. cbn [flat_map Nat.add]. rewrite app_nil_r.
    f_equal. unfold price_of_cycle.
    destruct (poll_price env (cycles w + m)); reflexivity.
Qed.

(** After them, one more failed cycle takes the counter to the
    threshold and ends the loop. *)
Lemma poll_loop_failures_end (m : nat) (s : Service) (w : World)
  (fuel : nat) :
  poller_ok cfg s ->
  running s = true ->
  (forall i, (i <= m)%nat -> poll_sigint env (cycles w + i) = false) ->
  (forall i, (i <= m)%nat -> fails (cycles w + i)%nat = true) ->
  consecutive_failures s + Z.of_nat m < t ->
  t <= consecutive_failures s + Z.of_nat m + 1 ->
  exists s' w' evs,
    poll_loop env (m + S fuel) s w = (inr true, s', w')
    /\ running s' = false
    /\ consecutive_failures s' = t
    /\ trace w' = trace w ++ evs
    /\ price_fetches evs = repeat "bitcoin"%string (S m)
    /\ printed_smas evs = []
    /\ map fst (price_stores evs) =
         flat_map (fun i => price_of_cycle env (cycles w + i)) (seq 0 (S m)).
Proof.
  intros Hok Hrun Hquiet Hfails Hunder Hreach.
  destruct (poll_loop_failures m s w (S fuel) Hok Hrun) as
    (s1 & w1 & evs1 & Hloop & Hok1 & Hrun1 & Hcf1 & Hcy1 & Htr1 & Hpf1
     & Hsm1 & Hps1).
  { intros i Hi. apply Hquiet. lia. }
  { intros i Hi. apply Hfails. lia. }
  { exact Hunder. }
  rewrite Hloop. cbn [poll_loop].
  unfold bind at 1, deliver_sigint.
  rewrite Hcy1, (Hquiet m (Nat.le_refl m)).
  unfold bind at 1, get_self. rewrite Hrun1.
  destruct (poll_cycle_full env cfg s1 w1 Hok1)
    as (r & s2 & w2 & evs2 & Hcycle & Hok2 & Htr2 & Hcy2 & _ & Hpf2
        & _ & Hps2 & _ & Hcase).
  unfold bind. rewrite Hcycle.
  rewrite Hcy1 in Hcase, Hps2. fold fails in Hcase. fold t in Hcase.
  rewrite (Hfails m (Nat.le_refl m)) in Hcase.
  destruct Hcase as (Hcf2 & Hsm2 & Hstop).
  destruct (Z.leb_spec t (consecutive_failures s1 + 1)); [|lia].
  destruct Hstop as (-> & Hrun2 & _).
  exists s2, w2, (evs1 ++ evs2). split; [reflexivity|].
  split; [exact Hrun2|]. split; [lia|].
  split; [rewrite Htr2, Htr1; now rewrite app_assoc|].
  rewrite price_fetches_app, printed_smas_app, price_stores_app, map_app.
  rewrite Hpf1, Hpf2, Hsm1, Hsm2, Hps1, Hps2.
  split; [replace (S m) with (m + 1)%nat by lia; now rewrite repeat_app|].
  split; [reflexivity|].
  rewrite (seq_S (S m)) || rewrite seq_S. rewrite flat_map_app.
  cbn [flat_map Nat.add]. rewrite app_nil_r.
  f_equal. unfold price_of_cycle.
  destruct (poll_price env (cycles w + m)); reflexivity.
Qed.

(** A window of size 0 or less.  The tracker then never holds a sample,
    yet counts as ready, so the price line cannot be made up and every
    cycle fails after its price was stored: whatever the fetches and the
    storage do, a new poller with threshold [t >= 1] prints no price line,
    hands every fetched price to the storage and stops after exactly [t]
    cycles. *)
Theorem poller_with_nonpositive_window (w : World) (k fuel : nat) :
  Config.moving_average_window cfg <= 0 ->
  t = Z.of_nat (S k) ->
  (k < fuel)%nat ->
  (forall i, (i <= k)%nat -> poll_sigint env (cycles w + i) = false) ->
  exists s' w' evs,
    start_price_poller env fuel (Service_init cfg) w = (inr true, s', w')
    /\ running s' = false
    /\ consecutive_failures s' = t
    /\ trace w' = trace w ++ evs
    /\ price_fetches evs = repeat "bitcoin"%string (S k)
    /\ printed_smas evs = []
    /\ map fst (price_stores evs) =
         flat_map (fun i => price_of_cycle env (cycles w + i)) (seq 0 (S k)).
Proof.
  intros Hwin Ht Hfuel Hquiet.
  set (w0 := emit_w (EvPrint PressCtrlC)
               (emit_w (EvPrint StartingPoller)
                  (emit_w (EvLog INFO StartingPoller) w))).
  set (s0 := set_running true (Service_init cfg)).
  assert (Hfails : forall n, fails n = true).
  { intros n. unfold fails, cycle_fails.
    destruct (poll_price env n); [reflexivity|].
    destruct (poll_store env n); [reflexivity|].
    now apply Z.leb_le. }
  destruct (poll_loop_failures_end k s0 w0 (fuel - S k) (poller_ok_init cfg)
              eq_refl Hquiet)
    as (s1 & w1 & evs1 & Hloop & Hrun & Hcf & Htr1 & Hpf1 & Hsm1 & Hps1).
  { intros i _. apply Hfails. }
  { cbn [consecutive_failures s0 set_running Service_init]. lia. }
  { cbn [consecutive_failures s0 set_running Service_init]. lia. }
  replace (k + S (fuel - S k))%nat with fuel in Hloop by lia.
  destruct (start_price_poller_returns env fuel (Service_init cfg) s1 w w1
              Hloop)
    as (c' & w2 & evs2 & Hstart & _ & Htr2 & Hpf2 & _ & Hsm2 & Hps2 & _).
  exists (set_http_client c' s1), w2,
    ([EvLog INFO StartingPoller; EvPrint StartingPoller; EvPrint PressCtrlC]
     ++ evs1 ++ evs2).
  split; [exact Hstart|]. split; [exact Hrun|]. split; [exact Hcf|].
  split.
  { rewrite Htr2, Htr1. unfold w0. cbn [trace emit_w].
    rewrite <- !app_assoc. reflexivity. }
  rewrite !price_fetches_app, !printed_smas_app, !price_stores_app, !map_app.
  rewrite Hpf1, Hpf2, Hsm1, Hsm2, Hps1, Hps2.
  split; [cbn; now rewrite app_nil_r|]. split; [reflexivity|].
  cbn [price_stores pick price_store_of map app]. now rewrite app_nil_r.
Qed.

End PollFailures.

Lemma poller_with_nonpositive_window_witness :
  let env :=
    sample_env (fun _ => unavailable) (fun _ => inr 100%Q) (fun _ => inr []) in
  let cfg :=
    {| Config.http_timeout := 30;
       Config.http_max_retries := 5;
       Config.poll_interval := 1;
       Config.max_consecutive_failures := 2;
       Config.html_scraping_delay := 1 # 2;
       Config.json_api_delay := 1 # 5;
       Config.moving_average_window := 0;
       Config.requests_per_second := 2 |} in
  (Config.moving_average_window cfg <= 0
   /\ Config.max_consecutive_failures cfg = Z.of_nat 2
   /\ (1 < 5)%nat)
  /\ exists s' w' evs,
       start_price_poller env 5 (Service_init cfg) world0 = (inr true, s', w')
       /\ running s' = false
       /\ consecutive_failures s' = 2
       /\ trace w' = trace world0 ++ evs
       /\ price_fetches evs = repeat "bitcoin"%string 2
       /\ printed_smas evs = []
       /\ map fst (price_stores evs) =
            [("BTC"%string, 100%Q); ("BTC"%string, 100%Q)].
Proof.
  cbv zeta.
  set (env := sample_env (fun _ => unavailable) (fun _ => inr 100%Q)
                (fun _ => inr [])).
  set (cfg := {| Config.http_timeout := 30;
                 Config.http_max_retries := 5;
                 Config.poll_interval := 1;
                 Config.max_consecutive_failures := 2;
                 Config.html_scraping_delay := 1 # 2;
                 Config.json_api_delay := 1 # 5;
                 Config.moving_average_window := 0;
                 Config.requests_per_second := 2 |}).
  assert (Hwin : Config.moving_average_window cfg <= 0) by (cbn; lia).
  assert (Ht : Config.max_consecutive_failures cfg = Z.of_nat 2)
    by reflexivity.
  assert (Hfuel : (1 < 5)%nat) by lia.
  split; [auto|].
  apply (poller_with_nonpositive_window env cfg world0 1 5 Hwin Ht Hfuel).
  intros i _. reflexivity.
Defined.

(* ================================================================= *)
(** ** Storage: the prices file *)



Section StorageFacts.
Variable F : Type.
Variable str_float : F -> string.
Variable py_float : string -> Exn + F.
Variable isoformat : Q -> string.
Variable sqlite_store_price :
  Storage.t -> string -> F -> Q -> M Storage.Files unit.
Variable sqlite_get_recent_prices :
  Storage.t -> string -> Z -> M Storage.Files (list (Storage.RecentPrice F)).
Variable self : Storage.t.
Hypothesis csv : String.eqb (Storage.storage_type self) "sqlite" = false.

Let path := Storage.csv_prices self.
Let store_price :=
  Storage.store_price F str_float isoformat sqlite_store_price self.
Let store_prices :=
  Storage.store_prices F str_float isoformat sqlite_store_price self.
Let get_recent_prices :=
  Storage.get_recent_prices F py_float sqlite_get_recent_prices self.
Let price_row := Storage.price_row F str_float isoformat.
Let stored_for := Storage.stored_for F isoformat.







End StorageFacts.


